(** * Finance Buddy: export serialisers and transaction aggregation

    A shallow embedding of [src/lib/exportUtils.ts] ([escapeCSV],
    [exportToCSV], [exportToExcel], [downloadBlob]), of the [stats] and
    [categorySpending] memos of [pages/Dashboard.tsx] and of the [stats] and
    [categoryBreakdown] memos of [pages/Budgets.tsx].

    Conventions of the embedding:
    - a stored amount is a decimal, an exact rational ([Q]).  The pages are
      embedded twice: once with the decimals added and compared exactly
      (modules [Dashboard] and [Budgets]), and once over the arithmetic of the
      running program, IEEE doubles, where every operation rounds (modules
      [DashboardPage] and [BudgetsPage]);
    - a JavaScript string is a [string] of bytes (its UTF-8 encoding).  Every
      character the serialisers look for is ASCII, and no byte of a multi-byte
      UTF-8 sequence is ASCII, so searching and replacing on bytes agrees with
      the same operation on UTF-16 code units;
    - [string | null] and optional fields are [option];
    - a [Map] is an association list in insertion order;
    - the browser (clock, downloads) is an explicit [World] threaded through
      the exporters. *)

From Stdlib Require Import String Ascii List Bool Arith ZArith QArith Lia Lqa.
From Stdlib Require Import Sorted Permutation DecimalString.
From Stdlib Require Floats.
Import ListNotations.

Local Open Scope string_scope.

(** ** JavaScript built-ins used by the sources *)

Module JS.

(** The two characters that cannot be typed inside a literal. *)
Definition dq_char : ascii := "034"%char.
Definition nl_char : ascii := "010"%char.
Definition dq : string := String dq_char EmptyString.
Definition nl : string := String nl_char EmptyString.

(** [s.includes(needle)]: [needle] occurs in [s] as a substring. *)
Fixpoint includes (s needle : string) : bool :=
  prefix needle s ||
  match s with
  | EmptyString => false
  | String _ s' => includes s' needle
  end.

(** [s.replace(/c/g, r)] for a regular expression that is one literal
    character [c] and a replacement [r] without [$] patterns. *)
Fixpoint replaceAll (c : ascii) (r : string) (s : string) : string :=
  match s with
  | EmptyString => EmptyString
  | String a s' =>
      (if Ascii.eqb a c then r else String a EmptyString) ++ replaceAll c r s'
  end.

(** [a.join(sep)]. *)
Definition join (sep : string) (a : list string) : string :=
  String.concat sep a.

(** [x || d] on a value of type [string | null | undefined]: the empty
    string is falsy, like [null] and [undefined]. *)
Definition or_else (x : option string) (d : string) : string :=
  match x with
  | Some (String a s) => String a s
  | Some EmptyString | None => d
  end.

(** [Array.prototype.sort(cmp)].  ECMAScript specifies a stable sort driven
    by the sign of [cmp a b]: negative puts [a] first, positive puts [b]
    first, zero keeps the input order.  For a comparator that is a total
    preorder the result is unique; it is computed here by insertion. *)
Section Sort.
Context {A : Type} (cmp : A -> A -> Q).

Fixpoint insert (x : A) (l : list A) : list A :=
  match l with
  | [] => [x]
  | y :: l' =>
      if Qle_bool (cmp x y) 0 then x :: y :: l' else y :: insert x l'
  end.

Definition sort (l : list A) : list A := fold_right insert [] l.
End Sort.

(** [Map<K, V>]: entries in insertion order, keys unique. *)
Section Map.
Context {K V : Type} (keq : K -> K -> bool).

Definition Map := list (K * V).

Definition empty : Map := [].

Fixpoint get (k : K) (m : Map) : option V :=
  match m with
  | [] => None
  | (k', v) :: m' => if keq k k' then Some v else get k m'
  end.

(** [m.set(k, v)]: a key already present keeps its position. *)
Fixpoint set (k : K) (v : V) (m : Map) : Map :=
  match m with
  | [] => [(k, v)]
  | (k', v') :: m' =>
      if keq k k' then (k', v) :: m' else (k', v') :: set k v m'
  end.

(** [Array.from(m.values())]. *)
Definition values (m : Map) : list V := map snd m.
End Map.

(** [x > y] on numbers. *)
Definition gt (x y : Q) : bool := negb (Qle_bool x y).

(** [Number(x) || 0] where [x] is a number or [undefined]: [NaN] and [0] are
    falsy. *)
Definition number_or_zero (x : option Q) : Q :=
  match x with
  | Some n => if Qeq_bool n 0 then 0 else n
  | None => 0
  end.

(** Truthiness of an optional object. *)
Definition truthy {A : Type} (x : option A) : bool :=
  match x with
  | Some _ => true
  | None => false
  end.

End JS.

(** ** [src/lib/types.ts] *)

Module TransactionType.
Inductive t : Type := income | expense.

(** The string a [TransactionType] is at run time. *)
Definition to_string (k : t) : string :=
  match k with
  | income => "income"
  | expense => "expense"
  end.

(** [a === b] on two values of the type. *)
Definition eqb (a b : t) : bool :=
  match a, b with
  | income, income | expense, expense => true
  | _, _ => false
  end.
End TransactionType.

Inductive CategoryGroup : Type := fixed | variable | transfers.

Module Category.
Record t : Type := mk {
  id : string;
  user_id : string;
  name : string;
  icon : string;
  color : string;
  type : TransactionType.t;
  category_group : CategoryGroup;
  is_default : bool;
  created_at : string
}.
End Category.

Module Transaction.
Record t : Type := mk {
  id : string;
  user_id : string;
  category_id : option string;
  amount : Q;
  type : TransactionType.t;
  description : option string;
  date : string;
  is_recurring : bool;
  recurring_frequency : option string;
  next_occurrence : option string;
  reminder_enabled : bool;
  reminder_days_before : Q;
  created_at : string;
  updated_at : string;
  category : option Category.t
}.
End Transaction.

Module Profile.
Record t : Type := mk {
  id : string;
  user_id : string;
  full_name : option string;
  currency : string;
  monthly_budget : Q;
  low_fund_threshold : Q;
  theme : string;
  accent_color : string;
  created_at : string;
  updated_at : string
}.
End Profile.

Module CategorySpending.
Record t : Type := mk {
  category : option Category.t;
  amount : Q;
  percentage : Q
}.
End CategorySpending.

(** ** [src/lib/exportUtils.ts] *)

Definition escapeCSV (value : string) : string :=
  if JS.includes value "," || JS.includes value JS.dq || JS.includes value JS.nl
  then JS.dq ++ JS.replaceAll JS.dq_char (JS.dq ++ JS.dq) value ++ JS.dq
  else value.

(** What the sources take from the runtime and from date-fns: [new Date(s)],
    [format(d, 'yyyy-MM-dd')] and the conversion [String(n)] of a number.
    The [date] column of the store holds calendar dates, on which [format]
    returns; the time zone it prints in is part of the runtime. *)
Class Runtime : Type := {
  Date : Type;
  Date_parse : string -> Date;
  format_yyyy_MM_dd : Date -> string;
  String_of_number : Q -> string
}.

(** The payload handed to the browser by [downloadBlob]. *)
Record Download : Type := {
  content : string;
  mimeType : string;
  filename : string
}.

(** The browser as the exporters see it: the clock read by [new Date()] and
    the downloads triggered so far. *)
Record World `{Runtime} : Type := {
  now : Date;
  downloads : list Download
}.

(** A cell of a spreadsheet row: [string | number]. *)
Inductive Cell : Type :=
| Str (s : string)
| Num (n : Q).

Section Exporter.
Context `{RT : Runtime}.

Definition downloadBlob (content mimeType filename : string) (w : World)
  : World :=
  {| now := now w;
     downloads := downloads w ++
       [{| content := content; mimeType := mimeType; filename := filename |}]
  |}.

Definition headers : list string :=
  ["Date"; "Type"; "Category"; "Amount"; "Description"; "Recurring";
   "Frequency"].

(** The row built by [transactions.map] in [exportToCSV]. *)
Definition csv_row (t : Transaction.t) : list string :=
  [ format_yyyy_MM_dd (Date_parse (Transaction.date t));
    TransactionType.to_string (Transaction.type t);
    JS.or_else (option_map Category.name (Transaction.category t))
      "Uncategorized";
    String_of_number (Transaction.amount t);
    JS.or_else (Transaction.description t) "";
    if Transaction.is_recurring t then "Yes" else "No";
    JS.or_else (Transaction.recurring_frequency t) "" ].

Definition exportToCSV (transactions : list Transaction.t)
    (filename : option string) (w : World) : World :=
  if Nat.eqb (length transactions) 0 then w else
  let rows := map csv_row transactions in
  let csvContent :=
    JS.join JS.nl
      (JS.join "," (map escapeCSV headers)
       :: map (fun row => JS.join "," (map escapeCSV row)) rows) in
  downloadBlob csvContent "text/csv;charset=utf-8;"
    (JS.or_else filename
       ("transactions-" ++ format_yyyy_MM_dd (now w) ++ ".csv"))
    w.

(** The row built by [transactions.map] in [exportToExcel]. *)
Definition excel_row (t : Transaction.t) : list Cell :=
  [ Str (format_yyyy_MM_dd (Date_parse (Transaction.date t)));
    Str (TransactionType.to_string (Transaction.type t));
    Str (JS.or_else (option_map Category.name (Transaction.category t))
           "Uncategorized");
    Num (Transaction.amount t);
    Str (JS.or_else (Transaction.description t) "");
    Str (if Transaction.is_recurring t then "Yes" else "No");
    Str (JS.or_else (Transaction.recurring_frequency t) "") ].

(** [String(cell)], also what a template literal applies to [cell]. *)
Definition String_of_cell (c : Cell) : string :=
  match c with
  | Str s => s
  | Num n => String_of_number n
  end.

(** [row[i] === lit] for a string literal [lit]. *)
Definition strict_eq_string (c : option Cell) (lit : string) : bool :=
  match c with
  | Some (Str s) => String.eqb s lit
  | _ => false
  end.

(** [a.forEach((x, i) => ...)] where the callback updates the variable
    [xml] of the enclosing function. *)
Definition forEach {A : Type} (a : list A)
    (f : string -> A -> nat -> string) (xml : string) : string :=
  fold_left (fun xml ix => f xml (snd ix) (fst ix))
    (combine (seq 0 (length a)) a) xml.

(** [.replace(/&/g, '&amp;').replace(/</g, '&lt;')]. *)
Definition escape_markup (s : string) : string :=
  JS.replaceAll "<" "&lt;" (JS.replaceAll "&" "&amp;" s).

(** The style of the Amount cell, read off the row's second slot. *)
Definition amount_style (row : list Cell) : string :=
  if strict_eq_string (nth_error row 1) "income" then "income"
  else "expense".

(** The body of [row.forEach((cell, i) => ...)]. *)
Definition emit_cell (row : list Cell) (xml : string) (cell : Cell)
    (i : nat) : string :=
  if Nat.eqb i 3 then
    let style := amount_style row in
    xml ++ "        <Cell ss:StyleID=" ++ JS.dq ++ style ++ JS.dq
        ++ "><Data ss:Type=" ++ JS.dq ++ "Number" ++ JS.dq ++ ">"
        ++ String_of_cell cell ++ "</Data></Cell>" ++ JS.nl
  else
    xml ++ "        <Cell><Data ss:Type=" ++ JS.dq ++ "String" ++ JS.dq
        ++ ">" ++ escape_markup (String_of_cell cell)
        ++ "</Data></Cell>" ++ JS.nl.

(** The body of [rows.forEach((row) => ...)]. *)
Definition emit_row (xml : string) (row : list Cell) (_ : nat) : string :=
  let xml := xml ++ "      <Row>" ++ JS.nl in
  let xml := forEach row (emit_cell row) xml in
  xml ++ "      </Row>" ++ JS.nl.

(** The body of [headers.forEach((h) => ...)]. *)
Definition emit_header (xml : string) (h : string) (_ : nat) : string :=
  xml ++ "        <Cell ss:StyleID=" ++ JS.dq ++ "header" ++ JS.dq
      ++ "><Data ss:Type=" ++ JS.dq ++ "String" ++ JS.dq ++ ">" ++ h
      ++ "</Data></Cell>" ++ JS.nl.

(** The document prologue: declaration, workbook element and styles. *)
Definition xml_prologue : string :=
  let q s := JS.dq ++ s ++ JS.dq in
  let xml := "<?xml version=" ++ q "1.0" ++ " encoding=" ++ q "UTF-8"
             ++ "?>" ++ JS.nl in
  let xml := xml ++ "<?mso-application progid=" ++ q "Excel.Sheet" ++ "?>"
             ++ JS.nl in
  let xml := xml ++ "<Workbook xmlns="
             ++ q "urn:schemas-microsoft-com:office:spreadsheet" ++ JS.nl in
  let xml := xml ++ "  xmlns:ss="
             ++ q "urn:schemas-microsoft-com:office:spreadsheet" ++ ">"
             ++ JS.nl in
  let xml := xml ++ "  <Styles>" ++ JS.nl in
  let xml := xml ++ "    <Style ss:ID=" ++ q "header" ++ "><Font ss:Bold="
             ++ q "1" ++ "/><Interior ss:Color=" ++ q "#E2E8F0"
             ++ " ss:Pattern=" ++ q "Solid" ++ "/></Style>" ++ JS.nl in
  let xml := xml ++ "    <Style ss:ID=" ++ q "income" ++ "><Font ss:Color="
             ++ q "#16A34A" ++ "/></Style>" ++ JS.nl in
  let xml := xml ++ "    <Style ss:ID=" ++ q "expense" ++ "><Font ss:Color="
             ++ q "#DC2626" ++ "/></Style>" ++ JS.nl in
  let xml := xml ++ "    <Style ss:ID=" ++ q "number"
             ++ "><NumberFormat ss:Format=" ++ q "#,##0.00" ++ "/></Style>"
             ++ JS.nl in
  let xml := xml ++ "  </Styles>" ++ JS.nl in
  let xml := xml ++ "  <Worksheet ss:Name=" ++ q "Transactions" ++ ">"
             ++ JS.nl in
  xml ++ "    <Table>" ++ JS.nl.

Definition exportToExcel (transactions : list Transaction.t)
    (filename : option string) (w : World) : World :=
  if Nat.eqb (length transactions) 0 then w else
  let rows := map excel_row transactions in
  let xml := xml_prologue in
  let xml := xml ++ "      <Row>" ++ JS.nl in
  let xml := forEach headers emit_header xml in
  let xml := xml ++ "      </Row>" ++ JS.nl in
  let xml := forEach rows emit_row xml in
  let xml := xml ++ "    </Table>" ++ JS.nl in
  let xml := xml ++ "  </Worksheet>" ++ JS.nl in
  let xml := xml ++ "</Workbook>" in
  downloadBlob xml "application/vnd.ms-excel"
    (JS.or_else filename
       ("transactions-" ++ format_yyyy_MM_dd (now w) ++ ".xls"))
    w.

End Exporter.

(** ** Aggregation shared by the pages *)

(** [a === b] on [string | null], the key comparison of a [Map]. *)
Definition key_eqb (a b : option string) : bool :=
  match a, b with
  | Some x, Some y => String.eqb x y
  | None, None => true
  | _, _ => false
  end.

(** [ts.filter((t) => t.type === k)]. *)
Definition of_type (k : TransactionType.t) (ts : list Transaction.t)
  : list Transaction.t :=
  filter (fun t => TransactionType.eqb (Transaction.type t) k) ts.

(** [ts.reduce((sum, t) => sum + Number(t.amount), 0)]. *)
Definition sum_amount (ts : list Transaction.t) : Q :=
  fold_left (fun sum t => sum + Transaction.amount t) ts 0.

(** [ts.filter((t) => t.type === 'expense' && t.category)]. *)
Definition expenses_with_category (ts : list Transaction.t)
  : list Transaction.t :=
  filter (fun t =>
            TransactionType.eqb (Transaction.type t) TransactionType.expense
            && JS.truthy (Transaction.category t)) ts.

(** ** [src/pages/Dashboard.tsx] *)

Module Dashboard.

Record Stats : Type := {
  income : Q;
  expenses : Q;
  balance : Q;
  budget : Q
}.

(** The [stats] memo; [monthlyIncome] comes from [useMonthlyIncome]. *)
Definition stats (transactions : list Transaction.t)
    (profile : option Profile.t) (monthlyIncome : Q) : Stats :=
  let income := sum_amount (of_type TransactionType.income transactions) in
  let expenses := sum_amount (of_type TransactionType.expense transactions) in
  let totalIncome := if JS.gt monthlyIncome 0 then monthlyIncome else income in
  {| income := totalIncome;
     expenses := expenses;
     balance := totalIncome - expenses;
     budget := JS.number_or_zero (option_map Profile.monthly_budget profile) |}.

(** A value of the [categoryTotals] map. *)
Record Total : Type := {
  category : option Category.t;
  amount : Q
}.

(** The body of [expenseTransactions.forEach((t) => ...)].  [existing] is the
    object held by the map, so [existing.amount += ...] updates the entry
    where it stands. *)
Definition add_transaction (categoryTotals : JS.Map) (t : Transaction.t)
  : JS.Map :=
  match JS.get key_eqb (Transaction.category_id t) categoryTotals with
  | Some existing =>
      JS.set key_eqb (Transaction.category_id t)
        {| category := category existing;
           amount := amount existing + Transaction.amount t |}
        categoryTotals
  | None =>
      JS.set key_eqb (Transaction.category_id t)
        {| category := Transaction.category t;
           amount := Transaction.amount t |}
        categoryTotals
  end.

(** The map after the [forEach]. *)
Definition categoryTotals (transactions : list Transaction.t)
  : JS.Map (K := option string) (V := Total) :=
  let expenseTransactions := expenses_with_category transactions in
  fold_left add_transaction expenseTransactions JS.empty.

(** [Array.from(categoryTotals.values()).reduce(...)]. *)
Definition total (transactions : list Transaction.t) : Q :=
  fold_left (fun sum c => sum + amount c)
    (JS.values (categoryTotals transactions)) 0.

(** The callback of [.map((item) => ...)]. *)
Definition to_spending (total : Q) (item : Total) : CategorySpending.t :=
  {| CategorySpending.category := category item;
     CategorySpending.amount := amount item;
     CategorySpending.percentage :=
       if JS.gt total 0 then (amount item / total) * 100 else 0 |}.

(** The [categorySpending] memo. *)
Definition categorySpending (transactions : list Transaction.t)
  : list CategorySpending.t :=
  let total := total transactions in
  JS.sort
    (fun a b => CategorySpending.amount b - CategorySpending.amount a)
    (map (to_spending total) (JS.values (categoryTotals transactions))).

End Dashboard.

(** ** [src/pages/Budgets.tsx] *)

Module Budgets.

Record Stats : Type := {
  expenses : Q;
  income : Q;
  budget : Q
}.

(** The [stats] memo. *)
Definition stats (transactions : list Transaction.t)
    (profile : option Profile.t) : Stats :=
  let expenses := sum_amount (of_type TransactionType.expense transactions) in
  let income := sum_amount (of_type TransactionType.income transactions) in
  {| expenses := expenses;
     income := income;
     budget := JS.number_or_zero (option_map Profile.monthly_budget profile) |}.

(** [stats.income - stats.expenses], the figure of the Net Savings card. *)
Definition net_savings (stats : Stats) : Q := income stats - expenses stats.

(** A value of the [breakdown] map. *)
Record Spent : Type := {
  category : option Category.t;
  spent : Q
}.

(** The body of the [forEach] of [categoryBreakdown]. *)
Definition add_transaction (breakdown : JS.Map) (t : Transaction.t) : JS.Map :=
  match JS.get key_eqb (Transaction.category_id t) breakdown with
  | Some existing =>
      JS.set key_eqb (Transaction.category_id t)
        {| category := category existing;
           spent := spent existing + Transaction.amount t |}
        breakdown
  | None =>
      JS.set key_eqb (Transaction.category_id t)
        {| category := Transaction.category t;
           spent := Transaction.amount t |}
        breakdown
  end.

(** The map after the [forEach]. *)
Definition breakdown (transactions : list Transaction.t)
  : JS.Map (K := option string) (V := Spent) :=
  fold_left add_transaction (expenses_with_category transactions) JS.empty.

(** The [categoryBreakdown] memo. *)
Definition categoryBreakdown (transactions : list Transaction.t)
  : list Spent :=
  JS.sort (fun a b => spent b - spent a)
    (JS.values (breakdown transactions)).

(** [const percentage = stats.expenses > 0 ? (spent / stats.expenses) * 100 : 0]
    in the rendering of one entry. *)
Definition percentage (stats : Stats) (entry : Spent) : Q :=
  if JS.gt (expenses stats) 0 then (spent entry / expenses stats) * 100
  else 0.

End Budgets.

(** * Vocabulary of the specification *)

(** The character [c] occurs in [s]. *)
Definition has_char (c : ascii) (s : string) : Prop :=
  In c (list_ascii_of_string s).

(** The trigger of CSV quoting: a comma, a double quote or a newline. *)
Definition needs_quoting (s : string) : Prop :=
  has_char "," s \/ has_char JS.dq_char s \/ has_char JS.nl_char s.

(** A field wrapped in double quotes. *)
Definition quoted (field : string) : Prop :=
  exists body, field = JS.dq ++ body ++ JS.dq.

(** Every double quote doubled, character by character. *)
Definition double_quotes (s : string) : string :=
  string_of_list_ascii
    (flat_map (fun a => if Ascii.eqb a JS.dq_char
                        then [JS.dq_char; JS.dq_char] else [a])
       (list_ascii_of_string s)).

(** [&] and [<] replaced in one pass over the characters. *)
Definition markup_escaped (s : string) : string :=
  string_of_list_ascii
    (flat_map (fun a => if Ascii.eqb a "&" then list_ascii_of_string "&amp;"
                        else if Ascii.eqb a "<" then list_ascii_of_string "&lt;"
                        else [a])
       (list_ascii_of_string s)).

(** A string-typed cell of the spreadsheet markup. *)
Definition string_cell (text : string) : string :=
  "        <Cell><Data ss:Type=" ++ JS.dq ++ "String" ++ JS.dq ++ ">"
  ++ markup_escaped text ++ "</Data></Cell>" ++ JS.nl.

(** A numeric-typed cell carrying a style. *)
Definition number_cell (style number : string) : string :=
  "        <Cell ss:StyleID=" ++ JS.dq ++ style ++ JS.dq
  ++ "><Data ss:Type=" ++ JS.dq ++ "Number" ++ JS.dq ++ ">"
  ++ number ++ "</Data></Cell>" ++ JS.nl.

(** The style of the Amount cell decided on the transaction's kind. *)
Definition style_of_kind (k : TransactionType.t) : string :=
  match k with
  | TransactionType.income => "income"
  | TransactionType.expense => "expense"
  end.

(** The Category column as the specification words it: the name of the
    category, and the literal when there is no category. *)
Definition category_name_or_literal (t : Transaction.t) : string :=
  match Transaction.category t with
  | Some c => Category.name c
  | None => "Uncategorized"
  end.

(** The Category column of the exporters: the literal also stands in for an
    empty name. *)
Definition category_label (t : Transaction.t) : string :=
  match Transaction.category t with
  | Some c => if String.eqb (Category.name c) "" then "Uncategorized"
              else Category.name c
  | None => "Uncategorized"
  end.

(** An optional text, empty when absent. *)
Definition text_or_empty (x : option string) : string :=
  match x with
  | Some s => s
  | None => ""
  end.

Definition yes_no (b : bool) : string := if b then "Yes" else "No".

(** ** Sample data for the examples *)

Fixpoint fraction_digits (fuel : nat) (r d : Z) : string :=
  match fuel with
  | O => ""
  | S fuel' =>
      if Z.eqb r 0 then ""
      else String (ascii_of_nat (48 + Z.to_nat (10 * r / d)))
             (fraction_digits fuel' ((10 * r) mod d) d)
  end.

(** Decimal notation of a rational with a short decimal expansion. *)
Definition show_number (q : Q) : string :=
  let n := Qnum q in
  let d := Zpos (Qden q) in
  let a := Z.abs n in
  (if Z.ltb n 0 then "-" else "")
  ++ DecimalString.NilZero.string_of_int (Z.to_int (a / d))
  ++ (if Z.eqb (a mod d) 0 then ""
      else "." ++ fraction_digits 17 (a mod d) d).

(** A runtime whose dates are already written [yyyy-MM-dd]. *)
Definition sample_runtime : Runtime :=
  {| Date := string;
     Date_parse := fun s => s;
     format_yyyy_MM_dd := fun d => d;
     String_of_number := show_number |}.

Definition sample_category (id name : string) : Category.t :=
  Category.mk id "u1" name "tag" "#6b7280" TransactionType.expense variable
    false "2026-01-01".

Definition sample_transaction (kind : TransactionType.t) (amount : Q)
    (category_id : option string) (category : option Category.t)
    (description : option string) : Transaction.t :=
  Transaction.mk "t" "u1" category_id amount kind description "2026-02-03"
    false None None false 3 "2026-02-03" "2026-02-03" category.

Definition sample_world (today : string) : World (H := sample_runtime) :=
  {| now := today : @Date sample_runtime; downloads := [] |}.

(** ** The spreadsheet document, piece by piece *)

(** Strings put end to end. *)
Definition flatten (l : list string) : string := fold_right append "" l.

Section Markup.
Context `{RT : Runtime}.

(** The markup of one transaction: six string-typed cells around the
    numeric-typed Amount cell. *)
Definition row_markup (t : Transaction.t) : string :=
  "      <Row>" ++ JS.nl
  ++ string_cell (format_yyyy_MM_dd (Date_parse (Transaction.date t)))
  ++ string_cell (TransactionType.to_string (Transaction.type t))
  ++ string_cell (category_label t)
  ++ number_cell (amount_style (excel_row t))
       (String_of_number (Transaction.amount t))
  ++ string_cell (text_or_empty (Transaction.description t))
  ++ string_cell (yes_no (Transaction.is_recurring t))
  ++ string_cell (text_or_empty (Transaction.recurring_frequency t))
  ++ "      </Row>" ++ JS.nl.

Definition header_cell (h : string) : string :=
  "        <Cell ss:StyleID=" ++ JS.dq ++ "header" ++ JS.dq
  ++ "><Data ss:Type=" ++ JS.dq ++ "String" ++ JS.dq ++ ">" ++ h
  ++ "</Data></Cell>" ++ JS.nl.

Definition spreadsheet (ts : list Transaction.t) : string :=
  xml_prologue
  ++ "      <Row>" ++ JS.nl ++ flatten (map header_cell headers)
  ++ "      </Row>" ++ JS.nl
  ++ flatten (map row_markup ts)
  ++ "    </Table>" ++ JS.nl ++ "  </Worksheet>" ++ JS.nl ++ "</Workbook>".

End Markup.

(** Sample transactions. *)
Definition groceries : Category.t := sample_category "c-food" "Food".
Definition unnamed_category : Category.t := sample_category "c-blank" "".

Definition lunch : Transaction.t :=
  sample_transaction TransactionType.expense 12.5 (Some "c-food")
    (Some groceries) (Some "a < b & c").

Definition blank_category_purchase : Transaction.t :=
  sample_transaction TransactionType.expense 7 (Some "c-blank")
    (Some unnamed_category) None.

(** ** Sums and groups *)

(** The sum of a list of numbers. *)
Fixpoint Qsum (l : list Q) : Q :=
  match l with
  | [] => 0
  | x :: l' => x + Qsum l'
  end.

(** The sum of the amounts of the transactions of kind [k]. *)
Definition total_of_type (k : TransactionType.t) (ts : list Transaction.t)
  : Q :=
  Qsum (map Transaction.amount (of_type k ts)).

Definition key_dec (a b : option string) : {a = b} + {a <> b}.
Proof. decide equality. apply string_dec. Defined.

(** The keys of [ks] without repetition, each at its first occurrence. *)
Definition first_occurrences (ks : list (option string))
  : list (option string) :=
  rev (nodup key_dec (rev ks)).

(** The categories of the expense breakdown, in the order in which the
    input list first shows each of them. *)
Definition first_seen (ts : list Transaction.t) : list (option string) :=
  first_occurrences (map Transaction.category_id (expenses_with_category ts)).



(** The loop body shared by [Dashboard.add_transaction] and
    [Budgets.add_transaction]: the entry of the transaction's category is
    either bumped where it stands or appended. *)
Section Grouping.
Context {E : Type} (bumped : E -> Q -> E) (fresh : Transaction.t -> E).

Definition group_step (m : JS.Map) (t : Transaction.t) : JS.Map :=
  match JS.get key_eqb (Transaction.category_id t) m with
  | Some existing =>
      JS.set key_eqb (Transaction.category_id t)
        (bumped existing (Transaction.amount t)) m
  | None => JS.set key_eqb (Transaction.category_id t) (fresh t) m
  end.

Definition grouped (ts : list Transaction.t) : JS.Map :=
  fold_left group_step ts JS.empty.
End Grouping.


(** The two pages as instances of the shared loop body. *)
Definition dashboard_bumped (e : Dashboard.Total) (a : Q) : Dashboard.Total :=
  {| Dashboard.category := Dashboard.category e;
     Dashboard.amount := Dashboard.amount e + a |}.

Definition dashboard_fresh (t : Transaction.t) : Dashboard.Total :=
  {| Dashboard.category := Transaction.category t;
     Dashboard.amount := Transaction.amount t |}.

Definition budgets_bumped (e : Budgets.Spent) (a : Q) : Budgets.Spent :=
  {| Budgets.category := Budgets.category e;
     Budgets.spent := Budgets.spent e + a |}.

Definition budgets_fresh (t : Transaction.t) : Budgets.Spent :=
  {| Budgets.category := Transaction.category t;
     Budgets.spent := Transaction.amount t |}.

(** The total of the expenses that have a category. *)
Definition categorized_expense (ts : list Transaction.t) : Q :=
  Qsum (map Transaction.amount (expenses_with_category ts)).

(** Every expense transaction has a category. *)
Definition all_expenses_categorized (ts : list Transaction.t) : Prop :=
  forall t, In t ts ->
    Transaction.type t = TransactionType.expense ->
    Transaction.category t <> None.

(** The expense transactions without a category have non-negative amounts. *)
Definition uncategorized_nonnegative (ts : list Transaction.t) : Prop :=
  forall t, In t ts ->
    Transaction.type t = TransactionType.expense ->
    Transaction.category t = None ->
    0 <= Transaction.amount t.

(** The month of the specification's scenario, and the same month with a
    cash expense that has no category. *)
Definition rent_category : Category.t := sample_category "c-rent" "Rent".

Definition food_60 : Transaction.t :=
  sample_transaction TransactionType.expense 60 (Some "c-food")
    (Some groceries) None.

Definition rent_40 : Transaction.t :=
  sample_transaction TransactionType.expense 40 (Some "c-rent")
    (Some rent_category) None.

Definition salary_200 : Transaction.t :=
  sample_transaction TransactionType.income 200 None None (Some "Salary").

Definition cash_40 : Transaction.t :=
  sample_transaction TransactionType.expense 40 None None (Some "cash").

Definition scenario_month : list Transaction.t :=
  [food_60; rent_40; salary_200].

Definition month_with_cash : list Transaction.t :=
  [food_60; cash_40; salary_200].

(** The name shown for an entry of the Dashboard breakdown. *)
Definition spending_name (e : CategorySpending.t) : string :=
  text_or_empty (option_map Category.name (CategorySpending.category e)).

(** Two categories spending the same amount, Rent met first. *)
Definition tied_month : list Transaction.t :=
  [rent_40; food_60; salary_200;
   sample_transaction TransactionType.expense 20 (Some "c-rent")
     (Some rent_category) None].


(** * Further vocabulary *)



(** What the two pages show of an entry: its category and its amount. *)
Definition dashboard_shown (e : CategorySpending.t)
  : option Category.t * Q :=
  (CategorySpending.category e, CategorySpending.amount e).

Definition budgets_shown (e : Budgets.Spent) : option Category.t * Q :=
  (Budgets.category e, Budgets.spent e).

(** An entry of the Dashboard map read as an entry of the Budgets map. *)
Definition total_as_spent (e : Dashboard.Total) : Budgets.Spent :=
  {| Budgets.category := Dashboard.category e;
     Budgets.spent := Dashboard.amount e |}.

(** ** Reading delimited text back

    A reader of comma-separated text in the usual convention: records end
    at a newline, fields at a comma; a field that opens with a double quote
    runs to the closing double quote, and two double quotes inside it stand
    for one. *)

Inductive csv_state : Type :=
| FieldStart   (* nothing of the field read yet *)
| Unquoted     (* inside a bare field *)
| Quoted       (* inside a quoted field *)
| QuoteSeen.   (* a double quote met inside a quoted field *)

Fixpoint csv_read (st : csv_state) (field : string) (row : list string)
    (rows : list (list string)) (s : string) : list (list string) :=
  match s with
  | EmptyString => (rows ++ [row ++ [field]])%list
  | String c s' =>
      match st with
      | Quoted =>
          if Ascii.eqb c JS.dq_char then csv_read QuoteSeen field row rows s'
          else csv_read Quoted (field ++ String c EmptyString) row rows s'
      | _ =>
          if Ascii.eqb c "," then
            csv_read FieldStart "" (row ++ [field])%list rows s'
          else if Ascii.eqb c JS.nl_char then
            csv_read FieldStart "" [] (rows ++ [row ++ [field]])%list s'
          else if Ascii.eqb c JS.dq_char then
            match st with
            | FieldStart => csv_read Quoted "" row rows s'
            | QuoteSeen => csv_read Quoted (field ++ JS.dq) row rows s'
            | _ => csv_read Unquoted (field ++ JS.dq) row rows s'
            end
          else csv_read Unquoted (field ++ String c EmptyString) row rows s'
      end
  end.

Definition parse_csv (s : string) : list (list string) :=
  csv_read FieldStart "" [] [] s.

(** The text [exportToCSV] builds from its header and rows. *)
Definition csv_text (records : list (list string)) : string :=
  JS.join JS.nl (map (fun row => JS.join "," (map escapeCSV row)) records).

(** The text may stop here, or go on with a separator. *)
Definition at_separator (rest : string) : Prop :=
  match rest with
  | EmptyString => True
  | String c _ => c = ","%char \/ c = JS.nl_char
  end.

(** What [escape_markup] writes for one character. *)
Definition markup_piece (c : ascii) : string :=
  if Ascii.eqb c "&" then "&amp;"
  else if Ascii.eqb c "<" then "&lt;"
  else String c EmptyString.

(** ** Plain JavaScript objects used as dictionaries *)

Module JSObject.

(** The property names every plain object inherits from [Object.prototype].
    Reading one of them on an object that has no own property of that name
    yields the inherited function or object, which is truthy. *)
Definition prototype_names : list string :=
  [ "constructor"; "__defineGetter__"; "__defineSetter__"; "hasOwnProperty";
    "__lookupGetter__"; "__lookupSetter__"; "isPrototypeOf";
    "propertyIsEnumerable"; "toString"; "valueOf"; "__proto__";
    "toLocaleString" ].

Definition inherited (k : string) : bool :=
  existsb (String.eqb k) prototype_names.

(** The own properties of an object literal, in order of creation. *)
Definition Obj (V : Type) : Type := list (string * V).

Definition get_own {V : Type} (k : string) (o : Obj V) : option V :=
  JS.get String.eqb k o.

Definition set_own {V : Type} (k : string) (v : V) (o : Obj V) : Obj V :=
  JS.set String.eqb k v o.

Definition digit (c : ascii) : option N :=
  let n := N_of_ascii c in
  if (48 <=? n)%N && (n <=? 57)%N then Some (n - 48)%N else None.

Fixpoint digits_value (acc : N) (s : string) : option N :=
  match s with
  | EmptyString => Some acc
  | String c s' =>
      match digit c with
      | Some d => digits_value (10 * acc + d)%N s'
      | None => None
      end
  end.

(** A property name that is an array index: the canonical decimal form of
    an integer below 2^32 - 1. *)
Definition array_index (k : string) : option N :=
  match k with
  | EmptyString => None
  | String c rest =>
      if Ascii.eqb c "0" && negb (String.eqb rest "") then None
      else match digits_value 0 k with
           | Some n => if (n <=? 4294967294)%N then Some n else None
           | None => None
           end
  end.

Definition index_of (k : string) : Q :=
  match array_index k with
  | Some n => inject_Z (Z.of_N n)
  | None => 0
  end.

Definition is_index (k : string) : bool :=
  match array_index k with
  | Some _ => true
  | None => false
  end.

(** [Object.entries(o)]: the array-index names in ascending order, then the
    other names in order of creation. *)
Definition entries {V : Type} (o : Obj V) : list (string * V) :=
  (JS.sort (fun a b => index_of (fst a) - index_of (fst b))
     (filter (fun kv => is_index (fst kv)) o)
   ++ filter (fun kv => negb (is_index (fst kv))) o)%list.

End JSObject.

(** ** [src/pages/Transactions.tsx] *)

(** Library functions of the page: [String.prototype.toLowerCase] and
    [localeCompare], and [isBefore], [isAfter], [startOfDay], [endOfDay] of
    date-fns. *)
Class PageRuntime `{Runtime} : Type := {
  toLowerCase : string -> string;
  localeCompare : string -> string -> Q;
  isBefore : Date -> Date -> bool;
  isAfter : Date -> Date -> bool;
  startOfDay : Date -> Date;
  endOfDay : Date -> Date
}.

Inductive Toast : Type :=
| toast_error (message : string)
| toast_success (message : string).

Module Transactions.
Section Page.
Context `{PR : PageRuntime}.

(** The value of the filter bar. *)
Record Filters : Type := {
  search : string;
  typeFilter : string;
  categoryFilter : string;
  dateFrom : option Date;
  dateTo : option Date
}.

(** The filters the page starts with. *)
Definition initial_filters : Filters :=
  {| search := "";
     typeFilter := "all";
     categoryFilter := "all";
     dateFrom := None;
     dateTo := None |}.

(** The callback of [transactions.filter((t) => ...)]. *)
Definition matches (filters : Filters) (t : Transaction.t) : bool :=
  let matchesSearch :=
    String.eqb (search filters) ""
    || match Transaction.description t with
       | Some d => JS.includes (toLowerCase d) (toLowerCase (search filters))
       | None => false
       end
    || match Transaction.category t with
       | Some c =>
           JS.includes (toLowerCase (Category.name c))
             (toLowerCase (search filters))
       | None => false
       end in
  let matchesType :=
    String.eqb (typeFilter filters) "all"
    || String.eqb (TransactionType.to_string (Transaction.type t))
         (typeFilter filters) in
  let matchesCategory :=
    String.eqb (categoryFilter filters) "all"
    || match Transaction.category_id t with
       | Some id => String.eqb id (categoryFilter filters)
       | None => false
       end in
  let txDate := Date_parse (Transaction.date t) in
  let matchesDateFrom :=
    match dateFrom filters with
    | None => true
    | Some d => negb (isBefore txDate (startOfDay d))
    end in
  let matchesDateTo :=
    match dateTo filters with
    | None => true
    | Some d => negb (isAfter txDate (endOfDay d))
    end in
  matchesSearch && matchesType && matchesCategory && matchesDateFrom
  && matchesDateTo.

(** The [filteredTransactions] memo. *)
Definition filteredTransactions (transactions : list Transaction.t)
    (filters : Filters) : list Transaction.t :=
  filter (matches filters) transactions.

Definition dateKey (t : Transaction.t) : string :=
  format_yyyy_MM_dd (Date_parse (Transaction.date t)).

(** The body of [filteredTransactions.forEach((t) => ...)].  [None] is the
    [TypeError] raised by [groups[dateKey].push] when [dateKey] names an
    inherited property: the test [!groups[dateKey]] then finds a truthy
    value and no array is created. *)
Definition add_to_groups
    (groups : option (JSObject.Obj (list Transaction.t)))
    (t : Transaction.t) : option (JSObject.Obj (list Transaction.t)) :=
  match groups with
  | None => None
  | Some groups =>
      match JSObject.get_own (dateKey t) groups with
      | Some day => Some (JSObject.set_own (dateKey t) (day ++ [t])%list groups)
      | None =>
          if JSObject.inherited (dateKey t) then None
          else Some (JSObject.set_own (dateKey t) [t] groups)
      end
  end.

(** The [groupedTransactions] memo: the days, latest first. *)
Definition groupedTransactions (filteredTransactions : list Transaction.t)
  : option (list (string * list Transaction.t)) :=
  match fold_left add_to_groups filteredTransactions (Some []) with
  | None => None
  | Some groups =>
      Some (JS.sort (fun a b => localeCompare (fst b) (fst a))
              (JSObject.entries groups))
  end.

(** The page as the handlers change it: the browser and the toasts shown. *)
Record Page : Type := {
  browser : World;
  toasts : list Toast
}.

Definition count_text (n : nat) : string :=
  String_of_number (inject_Z (Z.of_nat n)).

Definition handleExportCSV (filteredTransactions : list Transaction.t)
    (p : Page) : Page :=
  if Nat.eqb (length filteredTransactions) 0 then
    {| browser := browser p;
       toasts := (toasts p ++ [toast_error "No transactions to export"])%list
    |}
  else
    {| browser := exportToCSV filteredTransactions None (browser p);
       toasts := (toasts p ++
                  [toast_success
                     ("Exported " ++ count_text (length filteredTransactions)
                      ++ " transactions as CSV")])%list |}.

Definition handleExportExcel (filteredTransactions : list Transaction.t)
    (p : Page) : Page :=
  if Nat.eqb (length filteredTransactions) 0 then
    {| browser := browser p;
       toasts := (toasts p ++ [toast_error "No transactions to export"])%list
    |}
  else
    {| browser := exportToExcel filteredTransactions None (browser p);
       toasts := (toasts p ++
                  [toast_success
                     ("Exported " ++ count_text (length filteredTransactions)
                      ++ " transactions as Excel")])%list |}.

End Page.
End Transactions.

(** A list as a day of the grouped view holds it: absent when empty. *)
Definition nonempty {A : Type} (l : list A) : option (list A) :=
  match l with
  | [] => None
  | _ :: _ => Some l
  end.

(** A page runtime for the examples: lower case on ASCII letters, dates
    and keys compared as strings. *)
Definition lower_ascii (c : ascii) : ascii :=
  let n := nat_of_ascii c in
  if (65 <=? n)%nat && (n <=? 90)%nat then ascii_of_nat (n + 32) else c.

Fixpoint lower_string (s : string) : string :=
  match s with
  | EmptyString => EmptyString
  | String c s' => String (lower_ascii c) (lower_string s')
  end.

Definition compare_strings (a b : string) : Q :=
  match String.compare a b with
  | Lt => -1
  | Eq => 0
  | Gt => 1
  end.

Definition sample_page_runtime : PageRuntime (H := sample_runtime) :=
  {| toLowerCase := lower_string;
     localeCompare := compare_strings;
     isBefore := fun a b : @Date sample_runtime => String.ltb a b;
     isAfter := fun a b : @Date sample_runtime => String.ltb b a;
     startOfDay := fun d => d;
     endOfDay := fun d => d |}.

Definition sample_on (date : string) (description : string) : Transaction.t :=
  Transaction.mk "t" "u1" None 5 TransactionType.expense (Some description)
    date false None None false 3 date date None.

Definition three_days : list Transaction.t :=
  [sample_on "2026-02-03" "a"; sample_on "2026-02-05" "b";
   sample_on "2026-02-03" "c"].

(** ** [src/pages/MonthlyTracker.tsx] *)

Module MonthlyTracker.

(** A value of the [groups] object of [expensesByCategory]. *)
Record Group : Type := {
  category : option Category.t;
  transactions : list Transaction.t;
  total : Q
}.

(** [t.category_id!] used as a property name: [null] becomes the name
    "null". *)
Definition catId (t : Transaction.t) : string :=
  match Transaction.category_id t with
  | Some id => id
  | None => "null"
  end.

(** The body of the [forEach] of [expensesByCategory].  [None] is the
    [TypeError] of [groups[catId].transactions.push] when [catId] names an
    inherited property, for which [!groups[catId]] is false and no group is
    created. *)
Definition add_expense (groups : option (JSObject.Obj Group))
    (t : Transaction.t) : option (JSObject.Obj Group) :=
  match groups with
  | None => None
  | Some groups =>
      match JSObject.get_own (catId t) groups with
      | Some g =>
          Some (JSObject.set_own (catId t)
                  {| category := category g;
                     transactions := (transactions g ++ [t])%list;
                     total := total g + Transaction.amount t |} groups)
      | None =>
          if JSObject.inherited (catId t) then None
          else
            Some (JSObject.set_own (catId t)
                    {| category := Transaction.category t;
                       transactions := [t];
                       total := 0 + Transaction.amount t |} groups)
      end
  end.

(** The [expensesByCategory] memo. *)
Definition expensesByCategory (transactions : list Transaction.t)
  : option (JSObject.Obj Group) :=
  fold_left add_expense (expenses_with_category transactions) (Some []).

End MonthlyTracker.




Definition utilities_category : Category.t :=
  Category.mk "c-power" "u1" "Power" "zap" "#eab308" TransactionType.expense
    fixed false "2026-01-01".



(** ** [src/pages/Reports.tsx] *)

Module Reports.

(** A value of the [categoryMap] of [budgetComparisonData]. *)
Module Item.
Record t : Type := mk {
  name : string;
  current : Q;
  previous : Q;
  color : string
}.
End Item.

(** An item with its change, [{ ...item, change }]. *)
Module Row.
Record t : Type := mk {
  name : string;
  current : Q;
  previous : Q;
  color : string;
  change : Q
}.
End Row.

(** [t.category?.name || 'Other'] and [t.category?.color || '#6b7280']. *)
Definition display_name (t : Transaction.t) : string :=
  JS.or_else (option_map Category.name (Transaction.category t)) "Other".

Definition display_color (t : Transaction.t) : string :=
  JS.or_else (option_map Category.color (Transaction.category t)) "#6b7280".

(** The body of the loop over the expenses of the current period. *)
Definition add_current (categoryMap : JS.Map) (t : Transaction.t) : JS.Map :=
  match JS.get key_eqb (Transaction.category_id t) categoryMap with
  | Some existing =>
      JS.set key_eqb (Transaction.category_id t)
        {| Item.name := Item.name existing;
           Item.current := Item.current existing + Transaction.amount t;
           Item.previous := Item.previous existing;
           Item.color := Item.color existing |}
        categoryMap
  | None =>
      JS.set key_eqb (Transaction.category_id t)
        {| Item.name := display_name t;
           Item.current := Transaction.amount t;
           Item.previous := 0;
           Item.color := display_color t |}
        categoryMap
  end.

(** The body of the loop over the expenses of the previous period. *)
Definition add_previous (categoryMap : JS.Map) (t : Transaction.t) : JS.Map :=
  match JS.get key_eqb (Transaction.category_id t) categoryMap with
  | Some existing =>
      JS.set key_eqb (Transaction.category_id t)
        {| Item.name := Item.name existing;
           Item.current := Item.current existing;
           Item.previous := Item.previous existing + Transaction.amount t;
           Item.color := Item.color existing |}
        categoryMap
  | None =>
      JS.set key_eqb (Transaction.category_id t)
        {| Item.name := display_name t;
           Item.current := 0;
           Item.previous := Transaction.amount t;
           Item.color := display_color t |}
        categoryMap
  end.

(** The map after the two loops. *)
Definition categoryMap (currentTransactions prevTransactions
                          : list Transaction.t)
  : JS.Map (K := option string) (V := Item.t) :=
  let categoryMap :=
    fold_left add_current (expenses_with_category currentTransactions)
      JS.empty in
  fold_left add_previous (expenses_with_category prevTransactions)
    categoryMap.

(** The callback of [.map(item => ({ ...item, change: ... }))]. *)
Definition with_change (item : Item.t) : Row.t :=
  {| Row.name := Item.name item;
     Row.current := Item.current item;
     Row.previous := Item.previous item;
     Row.color := Item.color item;
     Row.change :=
       if JS.gt (Item.previous item) 0
       then ((Item.current item - Item.previous item) / Item.previous item)
            * 100
       else 0 |}.

(** The [budgetComparisonData] memo.  The two arguments are the [data] of
    the two queries, [None] while a query has none. *)
Definition budgetComparisonData
    (reportsData comparisonData : option (list Transaction.t))
  : list Row.t :=
  match reportsData, comparisonData with
  | Some currentTransactions, Some prevTransactions =>
      firstn 8
        (JS.sort (fun a b => Row.current b - Row.current a)
           (map with_change
              (JS.values (categoryMap currentTransactions prevTransactions))))
  | _, _ => []
  end.

End Reports.






Definition more_food : Transaction.t :=
  sample_transaction TransactionType.expense 30 (Some "c-food")
    (Some groceries) None.


(** * The pages in the arithmetic of the running program

    The memos of the Dashboard and of the Budgets page add, subtract,
    multiply, divide and compare [number]s.  At run time a [number] is an
    IEEE 754 double: every operation rounds, so two ways of adding the same
    amounts can give two results, and the order of the additions is part of
    what the code does.  The memos are embedded here over the operations
    they use, given as a class; one instance is the double arithmetic of the
    running program, the other the exact arithmetic of the rationals. *)

Class Arithmetic : Type := {
  number : Type;
  (** The number a decimal becomes at run time: a literal of the source, or
      [Number(x)] for a value [x] of a numeric column. *)
  Number : Q -> number;
  add : number -> number -> number;
  sub : number -> number -> number;
  mul : number -> number -> number;
  div : number -> number -> number;
  (** [x > y]. *)
  greater : number -> number -> bool;
  (** The numbers that are falsy: [0], [-0] and [NaN]. *)
  falsy : number -> bool
}.

(** ** IEEE 754 binary64 *)

Module Double.

(** The double nearest to [n / d], ties to even, with its sign: the quotient
    of the two integers, rounded once. *)
Definition nearest (negative : bool) (n d : positive) : PrimFloat.float :=
  FloatOps.SF2Prim
    (SpecFloat.SFdiv FloatOps.prec FloatOps.emax
       (SpecFloat.S754_finite negative n 0)
       (SpecFloat.S754_finite false d 0)).

Definition Number (q : Q) : PrimFloat.float :=
  match Qnum q with
  | Z0 => PrimFloat.zero
  | Zpos n => nearest false n (Qden q)
  | Zneg n => nearest true n (Qden q)
  end.

Definition greater (x y : PrimFloat.float) : bool := PrimFloat.ltb y x.

Definition falsy (x : PrimFloat.float) : bool :=
  PrimFloat.eqb x PrimFloat.zero || PrimFloat.is_nan x.

(** The least exponent of the format. *)
Definition emin : Z := SpecFloat.emin FloatOps.prec FloatOps.emax.

(** The place of a double among the doubles, as an integer: its value
    counted in units of the least positive double, with the infinities
    beyond every finite double. *)
Definition ordinal (x : SpecFloat.spec_float) : Z :=
  match x with
  | SpecFloat.S754_zero _ => 0
  | SpecFloat.S754_nan => 0
  | SpecFloat.S754_infinity s =>
      SpecFloat.cond_Zopp s (2 ^ (FloatOps.emax - emin))
  | SpecFloat.S754_finite s m e =>
      SpecFloat.cond_Zopp s (Zpos m * 2 ^ (e - emin))
  end%Z.

End Double.

(** The arithmetic of the running program. *)
Definition double_arithmetic : Arithmetic :=
  {| number := PrimFloat.float;
     Number := Double.Number;
     add := PrimFloat.add;
     sub := PrimFloat.sub;
     mul := PrimFloat.mul;
     div := PrimFloat.div;
     greater := Double.greater;
     falsy := Double.falsy |}.

(** The arithmetic of the rationals, where nothing is rounded. *)
Definition exact_arithmetic : Arithmetic :=
  {| number := Q;
     Number := fun q => q;
     add := Qplus;
     sub := Qminus;
     mul := Qmult;
     div := Qdiv;
     greater := JS.gt;
     falsy := fun x => Qeq_bool x 0 |}.

(** ** Built-ins over an arithmetic *)

Section Numbers.
Context `{AR : Arithmetic}.

(** The literals [0] and [100]. *)
Definition zero : number := Number 0.
Definition hundred : number := Number 100.

(** [Number(x) || 0] where [x] is a number or [undefined]:
    [Number(undefined)] is [NaN], which is falsy. *)
Definition or_zero (x : option number) : number :=
  match x with
  | Some n => if falsy n then zero else n
  | None => zero
  end.

(** [ts.reduce((sum, t) => sum + Number(t.amount), 0)]. *)
Definition reduce_amounts (ts : list Transaction.t) : number :=
  fold_left (fun sum t => add sum (Number (Transaction.amount t))) ts zero.

(** [Array.prototype.sort(cmp)] with a comparator that returns a number: a
    positive [cmp a b] puts [b] first; a negative one, zero or [NaN] (which
    ECMAScript reads as zero) leaves [a] before [b].  ECMAScript fixes the
    result, a stable sort, when the comparator is a consistent comparison
    of the elements; it is computed here by insertion. *)
Section Sort.
Context {A : Type} (cmp : A -> A -> number).

Fixpoint insert_by (x : A) (l : list A) : list A :=
  match l with
  | [] => [x]
  | y :: l' =>
      if greater (cmp x y) zero then y :: insert_by x l' else x :: y :: l'
  end.

Definition sort_by (l : list A) : list A := fold_right insert_by [] l.
End Sort.

End Numbers.

(** [CategorySpending] of [src/lib/types.ts], over an arithmetic. *)
Module Spending.
Section Numbers.
Context `{AR : Arithmetic}.

Record t : Type := mk {
  category : option Category.t;
  amount : number;
  percentage : number
}.

End Numbers.
End Spending.

(** ** [src/pages/Dashboard.tsx], over an arithmetic *)

Module DashboardPage.
Section Numbers.
Context `{AR : Arithmetic}.

Record Stats : Type := {
  income : number;
  expenses : number;
  balance : number;
  budget : number
}.

(** The [stats] memo; [monthlyIncome] comes from [useMonthlyIncome]. *)
Definition stats (transactions : list Transaction.t)
    (profile : option Profile.t) (monthlyIncome : number) : Stats :=
  let income :=
    reduce_amounts (of_type TransactionType.income transactions) in
  let expenses :=
    reduce_amounts (of_type TransactionType.expense transactions) in
  let totalIncome :=
    if greater monthlyIncome zero then monthlyIncome else income in
  {| income := totalIncome;
     expenses := expenses;
     balance := sub totalIncome expenses;
     budget :=
       or_zero
         (option_map (fun p => Number (Profile.monthly_budget p)) profile) |}.

(** A value of the [categoryTotals] map. *)
Record Total : Type := {
  category : option Category.t;
  amount : number
}.

(** The body of [expenseTransactions.forEach((t) => ...)]: the first
    transaction of a category sets the entry to [Number(t.amount)], each
    later one adds its [Number(t.amount)] to the entry where it stands. *)
Definition add_transaction (categoryTotals : JS.Map) (t : Transaction.t)
  : JS.Map :=
  match JS.get key_eqb (Transaction.category_id t) categoryTotals with
  | Some existing =>
      JS.set key_eqb (Transaction.category_id t)
        {| category := category existing;
           amount := add (amount existing) (Number (Transaction.amount t)) |}
        categoryTotals
  | None =>
      JS.set key_eqb (Transaction.category_id t)
        {| category := Transaction.category t;
           amount := Number (Transaction.amount t) |}
        categoryTotals
  end.

(** The map after the [forEach]. *)
Definition categoryTotals (transactions : list Transaction.t)
  : JS.Map (K := option string) (V := Total) :=
  let expenseTransactions := expenses_with_category transactions in
  fold_left add_transaction expenseTransactions JS.empty.

(** [Array.from(categoryTotals.values()).reduce((sum, c) => sum + c.amount, 0)]. *)
Definition total (transactions : list Transaction.t) : number :=
  fold_left (fun sum c => add sum (amount c))
    (JS.values (categoryTotals transactions)) zero.

(** The callback of [.map((item) => ...)]. *)
Definition to_spending (total : number) (item : Total) : Spending.t :=
  {| Spending.category := category item;
     Spending.amount := amount item;
     Spending.percentage :=
       if greater total zero then mul (div (amount item) total) hundred
       else zero |}.

(** The [categorySpending] memo. *)
Definition categorySpending (transactions : list Transaction.t)
  : list Spending.t :=
  let total := total transactions in
  sort_by (fun a b => sub (Spending.amount b) (Spending.amount a))
    (map (to_spending total) (JS.values (categoryTotals transactions))).

(** The same memo run on the entries of the map, so that every entry of the
    result keeps the key it has in [categoryTotals]. *)
Definition keyed (transactions : list Transaction.t)
  : list (option string * Spending.t) :=
  let total := total transactions in
  sort_by (fun a b => sub (Spending.amount (snd b)) (Spending.amount (snd a)))
    (map (fun ke => (fst ke, to_spending total (snd ke)))
       (categoryTotals transactions)).

End Numbers.
End DashboardPage.

(** ** [src/pages/Budgets.tsx], over an arithmetic *)

Module BudgetsPage.
Section Numbers.
Context `{AR : Arithmetic}.

Record Stats : Type := {
  expenses : number;
  income : number;
  budget : number
}.

(** The [stats] memo. *)
Definition stats (transactions : list Transaction.t)
    (profile : option Profile.t) : Stats :=
  let expenses :=
    reduce_amounts (of_type TransactionType.expense transactions) in
  let income :=
    reduce_amounts (of_type TransactionType.income transactions) in
  {| expenses := expenses;
     income := income;
     budget :=
       or_zero
         (option_map (fun p => Number (Profile.monthly_budget p)) profile) |}.

(** [stats.income - stats.expenses], the figure of the Net Savings card. *)
Definition net_savings (stats : Stats) : number :=
  sub (income stats) (expenses stats).

(** A value of the [breakdown] map. *)
Record Spent : Type := {
  category : option Category.t;
  spent : number
}.

(** The body of the [forEach] of [categoryBreakdown]. *)
Definition add_transaction (breakdown : JS.Map) (t : Transaction.t) : JS.Map :=
  match JS.get key_eqb (Transaction.category_id t) breakdown with
  | Some existing =>
      JS.set key_eqb (Transaction.category_id t)
        {| category := category existing;
           spent := add (spent existing) (Number (Transaction.amount t)) |}
        breakdown
  | None =>
      JS.set key_eqb (Transaction.category_id t)
        {| category := Transaction.category t;
           spent := Number (Transaction.amount t) |}
        breakdown
  end.

(** The map after the [forEach]. *)
Definition breakdown (transactions : list Transaction.t)
  : JS.Map (K := option string) (V := Spent) :=
  fold_left add_transaction (expenses_with_category transactions) JS.empty.

(** The [categoryBreakdown] memo. *)
Definition categoryBreakdown (transactions : list Transaction.t)
  : list Spent :=
  sort_by (fun a b => sub (spent b) (spent a))
    (JS.values (breakdown transactions)).

(** The same memo run on the entries of the map, so that every entry of the
    result keeps the key it has in [breakdown]. *)
Definition keyed (transactions : list Transaction.t)
  : list (option string * Spent) :=
  sort_by (fun a b => sub (spent (snd b)) (spent (snd a)))
    (breakdown transactions).

(** [const percentage = stats.expenses > 0 ? (spent / stats.expenses) * 100 : 0]
    in the rendering of one entry. *)
Definition percentage (stats : Stats) (entry : Spent) : number :=
  if greater (expenses stats) zero
  then mul (div (spent entry) (expenses stats)) hundred
  else zero.

End Numbers.
End BudgetsPage.

(** ** Vocabulary of the specification for the aggregation

    None of these definitions uses a filter, a loop or a sort of the pages:
    transactions are selected by recursion on the list and by decidable
    equality, and amounts are added in the order of the list. *)

Definition kind_dec (a b : TransactionType.t) : {a = b} + {a <> b}.
Proof. decide equality. Defined.

(** The transactions of [ts] whose kind is [k], in the order of [ts]. *)
Fixpoint those_of_kind (k : TransactionType.t) (ts : list Transaction.t)
  : list Transaction.t :=
  match ts with
  | [] => []
  | t :: ts' =>
      if kind_dec (Transaction.type t) k then t :: those_of_kind k ts'
      else those_of_kind k ts'
  end.

(** The expense transactions of [ts] that have a category, in the order of
    [ts]. *)
Fixpoint categorised_expenses (ts : list Transaction.t)
  : list Transaction.t :=
  match ts with
  | [] => []
  | t :: ts' =>
      match Transaction.type t, Transaction.category t with
      | TransactionType.expense, Some _ => t :: categorised_expenses ts'
      | _, _ => categorised_expenses ts'
      end
  end.

(** The transactions of [ts] that bear the category id [k], in the order of
    [ts]. *)
Fixpoint bearing (k : option string) (ts : list Transaction.t)
  : list Transaction.t :=
  match ts with
  | [] => []
  | t :: ts' =>
      if key_dec (Transaction.category_id t) k then t :: bearing k ts'
      else bearing k ts'
  end.

(** The category ids of the expenses that have a category, each once, in the
    order in which [ts] first shows them. *)
Definition category_ids (ts : list Transaction.t) : list (option string) :=
  first_occurrences (map Transaction.category_id (categorised_expenses ts)).

(** [x] stands somewhere before [y] in [l]. *)
Definition before_in {A : Type} (x y : A) (l : list A) : Prop :=
  exists l1 l2 l3, l = (l1 ++ x :: l2 ++ y :: l3)%list.

Section Sums.
Context `{AR : Arithmetic}.

(** The amounts of [ts] as numbers of the arithmetic. *)
Definition amounts (ts : list Transaction.t) : list number :=
  map (fun t => Number (Transaction.amount t)) ts.

(** The numbers of [l] added to [0] one after the other, in the order of
    [l]. *)
Definition in_order_sum (l : list number) : number := fold_left add l zero.

(** What [ts] spends on the category [k]: the amounts of the expenses that
    have a category and bear the id [k], the later ones added one after the
    other to the first. *)
Definition category_amount (k : option string) (ts : list Transaction.t)
  : number :=
  match amounts (bearing k (categorised_expenses ts)) with
  | [] => zero
  | a :: rest => fold_left add rest a
  end.

(** The amounts of the categories of [ts], in order of first appearance. *)
Definition category_amounts (ts : list Transaction.t) : list number :=
  map (fun k => category_amount k ts) (category_ids ts).

(** An entry of amount [a] stays before one of amount [b] when the
    comparison [b - a] of the sort is not positive. *)
Definition stays_before (a b : number) : bool :=
  negb (greater (sub b a) zero).

(** The comparison of the sort orders the numbers of [l]: the difference
    [b - a] is positive exactly when [b > a], no two numbers are each
    greater than the other, and not being greater is transitive.  The
    comparator is then a consistent comparison, for which ECMAScript fixes
    the result of [sort]. *)
Definition comparison_orders (l : list number) : bool :=
  forallb (fun a =>
    forallb (fun b =>
      Bool.eqb (greater (sub b a) zero) (greater b a)
      && negb (greater a b && greater b a)
      && forallb (fun c =>
           implb (negb (greater b a) && negb (greater c b))
             (negb (greater c a))) l)
      l) l.

(** A breakdown [keyed] of [ts], each entry with its category id and with its
    amount read by [amount_of]: one entry per category of [ts], holding what
    [ts] spends on it; no entry has a greater amount than an entry before
    it; of two entries neither of which has the greater amount, the one
    whose category [ts] shows first comes first. *)
Definition breakdown_in_order {E : Type} (amount_of : E -> number)
    (ts : list Transaction.t) (keyed : list (option string * E)) : Prop :=
  Permutation (map fst keyed) (category_ids ts)
  /\ (forall k e, In (k, e) keyed -> amount_of e = category_amount k ts)
  /\ (forall x y, before_in x y keyed ->
        greater (amount_of (snd y)) (amount_of (snd x)) = false)
  /\ (forall x y, before_in x y keyed ->
        greater (amount_of (snd x)) (amount_of (snd y)) = false ->
        before_in (fst x) (fst y) (category_ids ts)).

End Sums.

(** Every amount of [ts] is a finite double: none is so large that it reads
    as an infinity. *)
Definition amounts_are_finite (ts : list Transaction.t) : Prop :=
  forall t, In t ts ->
    PrimFloat.is_finite (Double.Number (Transaction.amount t)) = true.

(** A breakdown of the running program in the words of the specification:
    one entry per category of [ts], holding the amount the program computes
    for it; amounts never increase along the breakdown; two entries of
    equal amount stand in the order in which [ts] first shows their
    categories. *)
Definition descending_with_stable_ties {E : Type}
    (amount_of : E -> PrimFloat.float) (ts : list Transaction.t)
    (keyed : list (option string * E)) : Prop :=
  Permutation (map fst keyed) (category_ids ts)
  /\ (forall k e, In (k, e) keyed ->
        amount_of e = category_amount (AR := double_arithmetic) k ts)
  /\ (forall x y, before_in x y keyed ->
        PrimFloat.leb (amount_of (snd y)) (amount_of (snd x)) = true)
  /\ (forall x y, before_in x y keyed ->
        PrimFloat.eqb (amount_of (snd x)) (amount_of (snd y)) = true ->
        before_in (fst x) (fst y) (category_ids ts)).

(** The two pages as instances of the shared loop body [group_step]. *)
Definition page_total_bumped `{AR : Arithmetic} (e : DashboardPage.Total)
    (a : Q) : DashboardPage.Total :=
  {| DashboardPage.category := DashboardPage.category e;
     DashboardPage.amount := add (DashboardPage.amount e) (Number a) |}.

Definition page_total_fresh `{AR : Arithmetic} (t : Transaction.t)
  : DashboardPage.Total :=
  {| DashboardPage.category := Transaction.category t;
     DashboardPage.amount := Number (Transaction.amount t) |}.

Definition page_spent_bumped `{AR : Arithmetic} (e : BudgetsPage.Spent)
    (a : Q) : BudgetsPage.Spent :=
  {| BudgetsPage.category := BudgetsPage.category e;
     BudgetsPage.spent := add (BudgetsPage.spent e) (Number a) |}.

Definition page_spent_fresh `{AR : Arithmetic} (t : Transaction.t)
  : BudgetsPage.Spent :=
  {| BudgetsPage.category := Transaction.category t;
     BudgetsPage.spent := Number (Transaction.amount t) |}.

(** ** The exact reading

    With the exact arithmetic the pages over an arithmetic are the pages of
    the modules [Dashboard] and [Budgets]; the records of the one are read
    as records of the other field by field. *)

Definition exact_total (e : DashboardPage.Total (AR := exact_arithmetic))
  : Dashboard.Total :=
  {| Dashboard.category := DashboardPage.category e;
     Dashboard.amount := DashboardPage.amount e |}.

Definition exact_spending (e : Spending.t (AR := exact_arithmetic))
  : CategorySpending.t :=
  {| CategorySpending.category := Spending.category e;
     CategorySpending.amount := Spending.amount e;
     CategorySpending.percentage := Spending.percentage e |}.

Definition exact_spent (e : BudgetsPage.Spent (AR := exact_arithmetic))
  : Budgets.Spent :=
  {| Budgets.category := BudgetsPage.category e;
     Budgets.spent := BudgetsPage.spent e |}.

Definition exact_dashboard_stats
    (s : DashboardPage.Stats (AR := exact_arithmetic)) : Dashboard.Stats :=
  {| Dashboard.income := DashboardPage.income s;
     Dashboard.expenses := DashboardPage.expenses s;
     Dashboard.balance := DashboardPage.balance s;
     Dashboard.budget := DashboardPage.budget s |}.

Definition exact_budgets_stats
    (s : BudgetsPage.Stats (AR := exact_arithmetic)) : Budgets.Stats :=
  {| Budgets.expenses := BudgetsPage.expenses s;
     Budgets.income := BudgetsPage.income s;
     Budgets.budget := BudgetsPage.budget s |}.

(** ** Sample months with amounts that round *)

Definition expense_on (c : Category.t) (amount : Q) : Transaction.t :=
  sample_transaction TransactionType.expense amount (Some (Category.id c))
    (Some c) None.

(** 0.1 and 2.2 on Food, 0.2 on Rent: every expense has a category. *)
Definition penny_month : list Transaction.t :=
  [expense_on groceries 0.1; expense_on rent_category 0.2;
   expense_on groceries 2.2].

(** 0.3 on Food, then 0.1 and 0.2 on Rent: three tenths on each. *)
Definition three_tenths_month : list Transaction.t :=
  [expense_on groceries 0.3; expense_on rent_category 0.1;
   expense_on rent_category 0.2].

(** A month whose Rent entries overflow in both directions: the amount of
    Rent is [Infinity - Infinity]. *)
Definition overflowing_month : list Transaction.t :=
  [expense_on groceries 1; expense_on rent_category 1e400;
   expense_on rent_category (-1e400); expense_on utilities_category 2].

(** The name shown for an entry of the Dashboard breakdown. *)
Definition name_of `{AR : Arithmetic} (e : Spending.t) : string :=
  text_or_empty (option_map Category.name (Spending.category e)).

Definition budgets_name_of `{AR : Arithmetic} (e : BudgetsPage.Spent)
  : string :=
  text_or_empty (option_map Category.name (BudgetsPage.category e)).

(** ** What a call hands to the browser *)

(** The downloads a call of an exporter triggers: those the world holds
    after the call beyond those it held before. *)
Definition handed_over `{Runtime} (before after : World) : list Download :=
  skipn (length (downloads before)) (downloads after).

(** ** A runtime west of Greenwich

    [new Date('2026-02-03')] is midnight UTC; date-fns prints a date in the
    time zone of the process, so a process west of Greenwich prints the day
    before. *)

Definition digits_value (s : string) : nat :=
  fold_left (fun acc c => 10 * acc + (nat_of_ascii c - 48))%nat
    (list_ascii_of_string s) 0%nat.

Definition digit_char (n : nat) : ascii := ascii_of_nat (48 + n mod 10)%nat.

Definition two_digits (n : nat) : string :=
  String (digit_char (n / 10)%nat) (String (digit_char n) "").

Definition four_digits (n : nat) : string :=
  String (digit_char (n / 1000)%nat)
    (String (digit_char (n / 100)%nat) (two_digits n)).

Definition leap_year (y : nat) : bool :=
  (Nat.eqb (y mod 4)%nat 0%nat && negb (Nat.eqb (y mod 100)%nat 0%nat))
  || Nat.eqb (y mod 400)%nat 0%nat.

Definition days_in_month (y m : nat) : nat :=
  match m with
  | 2 => if leap_year y then 29 else 28
  | 4 | 6 | 9 | 11 => 30
  | _ => 31
  end%nat.

(** The calendar day before a day written [yyyy-MM-dd]. *)
Definition day_before (d : string) : string :=
  let y := digits_value (substring 0 4 d) in
  let m := digits_value (substring 5 2 d) in
  let day := digits_value (substring 8 2 d) in
  if Nat.ltb 1 day then
    four_digits y ++ "-" ++ two_digits m ++ "-" ++ two_digits (day - 1)%nat
  else if Nat.ltb 1 m then
    four_digits y ++ "-" ++ two_digits (m - 1)%nat ++ "-"
    ++ two_digits (days_in_month y (m - 1)%nat)
  else four_digits (y - 1)%nat ++ "-12-31".

(** The sample runtime in a process west of Greenwich. *)
Definition western_runtime : Runtime :=
  {| Date := string;
     Date_parse := fun s => s;
     format_yyyy_MM_dd := day_before;
     String_of_number := show_number |}.

Definition western_world (today : string) : World (H := western_runtime) :=
  {| now := today : @Date western_runtime; downloads := [] |}.

(** A runtime an hour east of Greenwich, whose dates are local date-times:
    midnight UTC is one o'clock of the same day. *)
Definition eastern_runtime : Runtime :=
  {| Date := string;
     Date_parse := fun s => s ++ "T01:00";
     format_yyyy_MM_dd := fun d => substring 0 10 d;
     String_of_number := show_number |}.

Definition eastern_world (today : string) (log : list Download)
  : World (H := eastern_runtime) :=
  {| now := today : @Date eastern_runtime; downloads := log |}.
(** * Proofs *)

(** ** Strings *)

Lemma append_assoc (a b c : string) : (a ++ b) ++ c = a ++ (b ++ c).
Proof.
  induction a as [|x a IH]; simpl; [reflexivity|].
  now rewrite IH.
Qed.

Lemma append_nil_r (a : string) : a ++ "" = a.
Proof.
  induction a as [|x a IH]; simpl; [reflexivity|].
  now rewrite IH.
Qed.

Lemma list_ascii_app (a b : string) :
  list_ascii_of_string (a ++ b)
  = (list_ascii_of_string a ++ list_ascii_of_string b)%list.
Proof.
  induction a as [|x a IH]; simpl; [reflexivity|].
  now rewrite IH.
Qed.

Lemma string_of_list_app (l1 l2 : list ascii) :
  string_of_list_ascii (l1 ++ l2)
  = string_of_list_ascii l1 ++ string_of_list_ascii l2.
Proof.
  induction l1 as [|x l1 IH]; simpl; [reflexivity|].
  now rewrite IH.
Qed.

(** Searching for a one-character needle is membership of that character. *)
Lemma includes_char (s : string) (c : ascii) :
  JS.includes s (String c EmptyString) = true <-> has_char c s.
Proof.
  unfold has_char.
  induction s as [|a s IH]; simpl.
  - split; [discriminate | intros []].
  - destruct (ascii_dec c a) as [->|Hne].
    + split; [now left | intros _].
      destruct s; reflexivity.
    + simpl. rewrite IH. split; [now right|].
      intros [Heq|Hin]; [congruence | exact Hin].
Qed.

Lemma includes_char_false (s : string) (c : ascii) :
  JS.includes s (String c EmptyString) = false <-> ~ has_char c s.
Proof.
  rewrite <- includes_char.
  destruct (JS.includes s (String c EmptyString)); split; congruence.
Qed.

(** A global replace acts on each character separately. *)
Lemma replaceAll_flat_map (c : ascii) (r s : string) :
  list_ascii_of_string (JS.replaceAll c r s)
  = flat_map (fun a => if Ascii.eqb a c then list_ascii_of_string r else [a])
      (list_ascii_of_string s).
Proof.
  induction s as [|a s IH]; simpl; [reflexivity|].
  rewrite list_ascii_app, IH.
  now destruct (Ascii.eqb a c).
Qed.

Lemma replaceAll_app (c : ascii) (r s1 s2 : string) :
  JS.replaceAll c r (s1 ++ s2) = JS.replaceAll c r s1 ++ JS.replaceAll c r s2.
Proof.
  induction s1 as [|a s1 IH]; simpl; [reflexivity|].
  now rewrite IH, append_assoc.
Qed.

Lemma replaceAll_double_quotes (s : string) :
  JS.replaceAll JS.dq_char (JS.dq ++ JS.dq) s = double_quotes s.
Proof.
  unfold double_quotes.
  rewrite <- (string_of_list_ascii_of_string (JS.replaceAll _ _ s)).
  now rewrite replaceAll_flat_map.
Qed.

Lemma needs_quoting_test (s : string) :
  JS.includes s "," || JS.includes s JS.dq || JS.includes s JS.nl = true
  <-> needs_quoting s.
Proof.
  unfold needs_quoting, JS.dq, JS.nl.
  rewrite !orb_true_iff, !includes_char. tauto.
Qed.

(** ** The CSV field escape *)

Lemma escapeCSV_special (s : string) :
  needs_quoting s -> escapeCSV s = JS.dq ++ double_quotes s ++ JS.dq.
Proof.
  intros H. apply needs_quoting_test in H.
  unfold escapeCSV. now rewrite H, replaceAll_double_quotes.
Qed.

Lemma escapeCSV_plain (s : string) :
  ~ needs_quoting s -> escapeCSV s = s.
Proof.
  intros H. unfold escapeCSV.
  destruct (JS.includes s "," || JS.includes s JS.dq || JS.includes s JS.nl)
    eqn:E; [|reflexivity].
  now apply needs_quoting_test in E.
Qed.

Lemma needs_quoting_dec (s : string) : needs_quoting s \/ ~ needs_quoting s.
Proof.
  rewrite <- needs_quoting_test.
  destruct (JS.includes s "," || JS.includes s JS.dq || JS.includes s JS.nl);
    [now left | right; discriminate].
Qed.

(** C1. [escapeCSV] wraps a field in double quotes exactly when the value
    contains a comma, a double quote or a newline; a wrapped field is the
    value with every double quote doubled, between two double quotes; a value
    with none of the three characters is returned unchanged. *)
Theorem escapeCSV_quotes_iff_special (s : string) :
  (quoted (escapeCSV s) <-> needs_quoting s) /\
  (needs_quoting s -> escapeCSV s = JS.dq ++ double_quotes s ++ JS.dq) /\
  (~ needs_quoting s -> escapeCSV s = s).
Proof.
  split; [|split; [apply escapeCSV_special | apply escapeCSV_plain]].
  split.
  - intros [body Hq].
    destruct (needs_quoting_dec s) as [H|H]; [exact H|].
    rewrite (escapeCSV_plain s H) in Hq.
    right; left. unfold has_char. rewrite Hq. simpl. now left.
  - intros H. exists (double_quotes s). now apply escapeCSV_special.
Qed.

Lemma escapeCSV_quotes_iff_special_witness :
  needs_quoting "a,b"
  /\ escapeCSV "a,b" = JS.dq ++ double_quotes "a,b" ++ JS.dq
  /\ ~ needs_quoting "ab"
  /\ escapeCSV "ab" = "ab".
Proof.
  assert (Hyes : needs_quoting "a,b").
  { left. unfold has_char. simpl. right. now left. }
  assert (Hno : ~ needs_quoting "ab").
  { unfold needs_quoting, has_char. simpl.
    intros [[H|[H|[]]]|[[H|[H|[]]]|[H|[H|[]]]]]; discriminate. }
  split; [exact Hyes|].
  split; [exact (proj1 (proj2 (escapeCSV_quotes_iff_special "a,b")) Hyes)|].
  split; [exact Hno|].
  exact (proj2 (proj2 (escapeCSV_quotes_iff_special "ab")) Hno).
Defined.

(** The scenario of the specification: the description [He said, "hi"]. *)
Example escapeCSV_he_said_hi :
  escapeCSV ("He said, " ++ JS.dq ++ "hi" ++ JS.dq)
  = JS.dq ++ "He said, " ++ JS.dq ++ JS.dq ++ "hi" ++ JS.dq ++ JS.dq ++ JS.dq.
Proof. reflexivity. Qed.

(** ** The exporters *)

Section ExporterFacts.
Context `{RT : Runtime}.

Lemma or_else_empty (x : option string) : JS.or_else x "" = text_or_empty x.
Proof. destruct x as [[|a s]|]; reflexivity. Qed.

Lemma or_else_nonempty (s d : string) : s <> "" -> JS.or_else (Some s) d = s.
Proof. destruct s; [congruence | reflexivity]. Qed.

Lemma category_column (t : Transaction.t) :
  JS.or_else (option_map Category.name (Transaction.category t))
    "Uncategorized" = category_label t.
Proof.
  unfold category_label.
  destruct (Transaction.category t) as [c|]; [|reflexivity].
  simpl. now destruct (Category.name c).
Qed.

(** The two passes of [escape_markup] amount to one pass that rewrites [&]
    and [<] and nothing else: the text inserted for [&] has no [<]. *)
Lemma escape_markup_one_pass (s : string) : escape_markup s = markup_escaped s.
Proof.
  unfold escape_markup, markup_escaped.
  induction s as [|a s IH]; [reflexivity|].
  cbn [JS.replaceAll list_ascii_of_string flat_map].
  rewrite replaceAll_app, IH, string_of_list_app.
  f_equal.
  destruct (Ascii.eqb a "&") eqn:Ea; [reflexivity|].
  cbn [JS.replaceAll]. rewrite append_nil_r.
  now destruct (Ascii.eqb a "<").
Qed.

Lemma emit_cell_amount (row : list Cell) (xml : string) (n : Q) :
  emit_cell row xml (Num n) 3
  = xml ++ number_cell (amount_style row) (String_of_number n).
Proof. reflexivity. Qed.

Lemma emit_cell_text (row : list Cell) (xml : string) (s : string) (i : nat) :
  i <> 3%nat -> emit_cell row xml (Str s) i = xml ++ string_cell s.
Proof.
  intros Hi. unfold emit_cell.
  destruct (Nat.eqb_spec i 3) as [->|_]; [congruence|].
  cbn [String_of_cell]. now rewrite escape_markup_one_pass.
Qed.

Lemma amount_style_excel_row (t : Transaction.t) :
  amount_style (excel_row t) = style_of_kind (Transaction.type t).
Proof.
  unfold amount_style. cbn.
  now destruct (Transaction.type t).
Qed.

End ExporterFacts.

Section SpreadsheetFacts.
Context `{RT : Runtime}.

Lemma forEach_appends {A B : Type} (f : string -> B -> nat -> string)
    (h : A -> B) (g : A -> string) (a : list A) :
  (forall xml x i, f xml (h x) i = xml ++ g x) ->
  forall xml, forEach (map h a) f xml = xml ++ flatten (map g a).
Proof.
  intros Hf xml. unfold forEach.
  generalize 0%nat as start. revert xml.
  induction a as [|x a IH]; intros xml start; simpl.
  - now rewrite append_nil_r.
  - now rewrite IH, Hf, append_assoc.
Qed.

Lemma emit_row_markup (t : Transaction.t) (xml : string) (i : nat) :
  emit_row xml (excel_row t) i = xml ++ row_markup t.
Proof.
  unfold emit_row, forEach, row_markup.
  cbn [excel_row length seq combine fold_left fst snd].
  rewrite emit_cell_amount.
  rewrite !emit_cell_text by discriminate.
  rewrite category_column, !or_else_empty.
  rewrite !append_assoc. reflexivity.
Qed.

Lemma emit_header_cell (xml h : string) (i : nat) :
  emit_header xml h i = xml ++ header_cell h.
Proof. reflexivity. Qed.

Lemma exportToExcel_document (t : Transaction.t) (ts : list Transaction.t)
    (fn : option string) (w : World) :
  exportToExcel (t :: ts) fn w
  = downloadBlob (spreadsheet (t :: ts)) "application/vnd.ms-excel"
      (JS.or_else fn ("transactions-" ++ format_yyyy_MM_dd (now w) ++ ".xls"))
      w.
Proof.
  unfold exportToExcel. cbn [length Nat.eqb]. cbv zeta.
  f_equal. unfold spreadsheet.
  rewrite <- (map_id headers) at 1.
  rewrite (forEach_appends emit_header (fun h => h) header_cell headers
             emit_header_cell).
  rewrite (forEach_appends emit_row excel_row row_markup (t :: ts)
             (fun xml x i => emit_row_markup x xml i)).
  rewrite !append_assoc. reflexivity.
Qed.

End SpreadsheetFacts.

Section ExporterClaims.
Context `{RT : Runtime}.

(** C4. On the empty list both exporters return at once: the world, and with
    it the list of downloads handed to the browser, is left as it was,
    whatever the optional file name. *)
Theorem export_empty_is_noop (filename : option string) (w : World) :
  exportToCSV [] filename w = w /\ exportToExcel [] filename w = w.
Proof. split; reflexivity. Qed.

(** C5. In the spreadsheet markup of a transaction the Amount column, at
    index 3, is a numeric-typed cell holding the number as [String] prints
    it, and each of the six other columns is a string-typed cell whose text
    has [&] and [<] replaced by [&amp;] and [&lt;] and is otherwise
    unchanged; these rows are the rows of the exported document. *)
Theorem excel_row_amount_numeric_rest_escaped (t : Transaction.t)
    (xml : string) (i : nat) (ts : list Transaction.t)
    (filename : option string) (w : World) :
  emit_row xml (excel_row t) i
  = xml ++ "      <Row>" ++ JS.nl
    ++ string_cell (format_yyyy_MM_dd (Date_parse (Transaction.date t)))
    ++ string_cell (TransactionType.to_string (Transaction.type t))
    ++ string_cell (category_label t)
    ++ number_cell (amount_style (excel_row t))
         (String_of_number (Transaction.amount t))
    ++ string_cell (text_or_empty (Transaction.description t))
    ++ string_cell (yes_no (Transaction.is_recurring t))
    ++ string_cell (text_or_empty (Transaction.recurring_frequency t))
    ++ "      </Row>" ++ JS.nl
  /\ (forall s, escape_markup s = markup_escaped s)
  /\ map content (downloads (exportToExcel (t :: ts) filename w))
     = (map content (downloads w) ++ [spreadsheet (t :: ts)])%list.
Proof.
  split; [apply emit_row_markup|].
  split; [apply escape_markup_one_pass|].
  rewrite exportToExcel_document. unfold downloadBlob. cbn [downloads].
  now rewrite map_app.
Qed.

(** C8, as the exporters have it. Both exporters build the row of a
    transaction as seven columns in this order: the date formatted
    yyyy-MM-dd, the type, the category name with the literal Uncategorized
    when the category is absent or its name is empty, the amount, the
    description or the empty string, Yes or No for the recurring flag, the
    frequency or the empty string; the header row names the seven columns in
    the same order. *)
Theorem export_row_columns (t : Transaction.t) :
  csv_row t
  = [ format_yyyy_MM_dd (Date_parse (Transaction.date t));
      TransactionType.to_string (Transaction.type t);
      category_label t;
      String_of_number (Transaction.amount t);
      text_or_empty (Transaction.description t);
      yes_no (Transaction.is_recurring t);
      text_or_empty (Transaction.recurring_frequency t) ]
  /\ excel_row t
  = [ Str (format_yyyy_MM_dd (Date_parse (Transaction.date t)));
      Str (TransactionType.to_string (Transaction.type t));
      Str (category_label t);
      Num (Transaction.amount t);
      Str (text_or_empty (Transaction.description t));
      Str (yes_no (Transaction.is_recurring t));
      Str (text_or_empty (Transaction.recurring_frequency t)) ]
  /\ headers
  = [ "Date"; "Type"; "Category"; "Amount"; "Description"; "Recurring";
      "Frequency" ]
  /\ (Transaction.category t = None -> category_label t = "Uncategorized")
  /\ (forall c, Transaction.category t = Some c -> Category.name c <> "" ->
      category_label t = Category.name c).
Proof.
  unfold csv_row, excel_row.
  rewrite category_column, !or_else_empty.
  repeat split.
  - unfold category_label. now intros ->.
  - unfold category_label. intros c -> Hc.
    apply String.eqb_neq in Hc. now rewrite Hc.
Qed.

(** C9. The style of the Amount cell, which [exportToExcel] reads off the
    string in the row's second slot, is the style read off the
    transaction's kind: income for an income transaction, expense
    otherwise. *)
Theorem amount_style_matches_kind (t : Transaction.t) (xml : string) :
  amount_style (excel_row t) = style_of_kind (Transaction.type t)
  /\ (amount_style (excel_row t) = "income"
      <-> Transaction.type t = TransactionType.income)
  /\ (amount_style (excel_row t) = "expense"
      <-> Transaction.type t = TransactionType.expense)
  /\ emit_cell (excel_row t) xml (Num (Transaction.amount t)) 3
     = xml ++ number_cell (style_of_kind (Transaction.type t))
                (String_of_number (Transaction.amount t)).
Proof.
  rewrite emit_cell_amount, amount_style_excel_row.
  destruct (Transaction.type t); cbn;
    repeat split; intros; (reflexivity || discriminate).
Qed.

End ExporterClaims.

(** The category of [blank_category_purchase] is present and its name is
    empty: the exporters print the literal, not the name. *)
Lemma category_column_blank_name :
  nth_error (csv_row (RT := sample_runtime) blank_category_purchase) 2
  = Some "Uncategorized"
  /\ nth_error (excel_row (RT := sample_runtime) blank_category_purchase) 2
     = Some (Str "Uncategorized")
  /\ category_name_or_literal blank_category_purchase = "".
Proof. repeat split. Qed.

Lemma export_row_columns_witness :
  Transaction.category lunch = Some groceries
  /\ Category.name groceries <> ""
  /\ category_label lunch = "Food".
Proof.
  split; [reflexivity|]. split; [discriminate|].
  apply (proj2 (proj2 (proj2 (proj2
           (export_row_columns (RT := sample_runtime) lunch)))) groceries).
  - reflexivity.
  - discriminate.
Defined.

(** The scenario of the specification, on the whole CSV text. *)
Example exportToCSV_lunch :
  map content
    (downloads (exportToCSV [lunch] None (sample_world "2026-02-04")))
  = [ "Date,Type,Category,Amount,Description,Recurring,Frequency" ++ JS.nl
      ++ "2026-02-03,expense,Food,12.5,a < b & c,No," ].
Proof. reflexivity. Qed.

Example row_markup_lunch :
  row_markup (RT := sample_runtime) lunch
  = "      <Row>" ++ JS.nl
    ++ "        <Cell><Data ss:Type=" ++ JS.dq ++ "String" ++ JS.dq
    ++ ">2026-02-03</Data></Cell>" ++ JS.nl
    ++ "        <Cell><Data ss:Type=" ++ JS.dq ++ "String" ++ JS.dq
    ++ ">expense</Data></Cell>" ++ JS.nl
    ++ "        <Cell><Data ss:Type=" ++ JS.dq ++ "String" ++ JS.dq
    ++ ">Food</Data></Cell>" ++ JS.nl
    ++ "        <Cell ss:StyleID=" ++ JS.dq ++ "expense" ++ JS.dq
    ++ "><Data ss:Type=" ++ JS.dq ++ "Number" ++ JS.dq
    ++ ">12.5</Data></Cell>" ++ JS.nl
    ++ "        <Cell><Data ss:Type=" ++ JS.dq ++ "String" ++ JS.dq
    ++ ">a &lt; b &amp; c</Data></Cell>" ++ JS.nl
    ++ "        <Cell><Data ss:Type=" ++ JS.dq ++ "String" ++ JS.dq
    ++ ">No</Data></Cell>" ++ JS.nl
    ++ "        <Cell><Data ss:Type=" ++ JS.dq ++ "String" ++ JS.dq
    ++ "></Data></Cell>" ++ JS.nl
    ++ "      </Row>" ++ JS.nl.
Proof. reflexivity. Qed.

(** ** Numbers *)

Lemma gt_true (x y : Q) : JS.gt x y = true <-> y < x.
Proof.
  unfold JS.gt. rewrite negb_true_iff.
  destruct (Qle_bool x y) eqn:E.
  - apply Qle_bool_iff in E. split; [discriminate|].
    intros H. exfalso. apply (Qlt_not_le _ _ H E).
  - split; [intros _|reflexivity].
    apply Qnot_le_lt. intros H. apply Qle_bool_iff in H. congruence.
Qed.

Lemma gt_false (x y : Q) : JS.gt x y = false <-> x <= y.
Proof.
  unfold JS.gt. rewrite negb_false_iff. apply Qle_bool_iff.
Qed.

Lemma Qsum_app (l1 l2 : list Q) : Qsum (l1 ++ l2) == Qsum l1 + Qsum l2.
Proof.
  induction l1 as [|x l1 IH]; simpl; [lra|].
  rewrite IH. lra.
Qed.

Lemma Qsum_perm (l1 l2 : list Q) : Permutation l1 l2 -> Qsum l1 == Qsum l2.
Proof.
  induction 1; simpl; try lra.
Qed.

(** A [reduce] that adds up from the left is the sum. *)
Lemma fold_left_sum {A : Type} (f : A -> Q) (l : list A) (acc : Q) :
  fold_left (fun sum x => sum + f x) l acc == acc + Qsum (map f l).
Proof.
  revert acc. induction l as [|x l IH]; intros acc; simpl; [lra|].
  rewrite IH. lra.
Qed.

Lemma sum_amount_Qsum (ts : list Transaction.t) :
  sum_amount ts == Qsum (map Transaction.amount ts).
Proof.
  unfold sum_amount. rewrite fold_left_sum. lra.
Qed.

(** ** The stable sort *)

Section SortFacts.
Context {A : Type} (f : A -> Q).

Lemma insert_perm (cmp : A -> A -> Q) (x : A) (l : list A) :
  Permutation (JS.insert cmp x l) (x :: l).
Proof.
  induction l as [|y l IH]; simpl; [reflexivity|].
  destruct (Qle_bool (cmp x y) 0); [reflexivity|].
  rewrite IH. apply perm_swap.
Qed.

Lemma sort_perm (cmp : A -> A -> Q) (l : list A) :
  Permutation (JS.sort cmp l) l.
Proof.
  induction l as [|x l IH]; simpl; [reflexivity|].
  rewrite insert_perm. now constructor.
Qed.





End SortFacts.


(** ** The insertion-ordered map *)

Lemma key_eqb_eq (a b : option string) : key_eqb a b = true <-> a = b.
Proof.
  destruct a as [x|], b as [y|]; simpl; try (split; congruence).
  rewrite String.eqb_eq. split; congruence.
Qed.

Lemma key_eqb_refl (a : option string) : key_eqb a a = true.
Proof. now apply key_eqb_eq. Qed.

Lemma key_eqb_neq (a b : option string) : key_eqb a b = false <-> a <> b.
Proof.
  rewrite <- key_eqb_eq. destruct (key_eqb a b); split; congruence.
Qed.

Section MapFacts.
Context {V : Type}.
Implicit Types (m : list (option string * V)) (k : option string) (v : V).

Lemma get_None m k : JS.get key_eqb k m = None <-> ~ In k (map fst m).
Proof.
  induction m as [|[k' v'] m IH]; simpl; [tauto|].
  destruct (key_eqb k k') eqn:E.
  - apply key_eqb_eq in E. split; [discriminate|]. intros H. exfalso. auto.
  - apply key_eqb_neq in E. rewrite IH. split.
    + intros H [Heq|Hin]; [congruence | auto].
    + intros H Hin. apply H. now right.
Qed.

Lemma get_Some_In m k v : JS.get key_eqb k m = Some v -> In k (map fst m).
Proof.
  intros H. destruct (in_dec key_dec k (map fst m)) as [Hin|Hout]; [exact Hin|].
  apply get_None in Hout. congruence.
Qed.

Lemma get_set m k k0 v :
  JS.get key_eqb k (JS.set key_eqb k0 v m)
  = if key_eqb k k0 then Some v else JS.get key_eqb k m.
Proof.
  induction m as [|[k' v'] m IH]; simpl; [reflexivity|].
  destruct (key_eqb k0 k') eqn:E0; simpl.
  - apply key_eqb_eq in E0. subst k'.
    now destruct (key_eqb k k0).
  - rewrite IH. destruct (key_eqb k k') eqn:E; [|reflexivity].
    apply key_eqb_eq in E. subst k'.
    apply key_eqb_neq in E0.
    destruct (key_eqb k k0) eqn:E1; [|reflexivity].
    apply key_eqb_eq in E1. congruence.
Qed.

Lemma keys_set_present m k v e :
  JS.get key_eqb k m = Some e -> map fst (JS.set key_eqb k v m) = map fst m.
Proof.
  induction m as [|[k' v'] m IH]; simpl; [discriminate|].
  destruct (key_eqb k k'); simpl; [reflexivity|].
  intros H. now rewrite IH.
Qed.

Lemma keys_set_absent m k v :
  JS.get key_eqb k m = None ->
  map fst (JS.set key_eqb k v m) = (map fst m ++ [k])%list.
Proof.
  induction m as [|[k' v'] m IH]; simpl; [reflexivity|].
  destruct (key_eqb k k'); simpl; [discriminate|].
  intros H. now rewrite IH.
Qed.

Lemma In_get m k v :
  NoDup (map fst m) -> In (k, v) m -> JS.get key_eqb k m = Some v.
Proof.
  induction m as [|[k' v'] m IH]; simpl; [intros _ []|].
  intros Hnd [Heq|Hin].
  - inversion Heq; subst. now rewrite key_eqb_refl.
  - inversion Hnd as [|? ? Hout Hnd']; subst.
    destruct (key_eqb k k') eqn:E; [|now apply IH].
    apply key_eqb_eq in E. subst k'.
    exfalso. apply Hout. change k with (fst (k, v)). now apply in_map.
Qed.

Lemma sum_set_present (f : V -> Q) m k v e :
  JS.get key_eqb k m = Some e ->
  Qsum (map f (JS.values (JS.set key_eqb k v m)))
  == Qsum (map f (JS.values m)) - f e + f v.
Proof.
  unfold JS.values.
  induction m as [|[k' v'] m IH]; simpl; [discriminate|].
  destruct (key_eqb k k'); simpl.
  - intros H. inversion H; subst. lra.
  - intros H. rewrite (IH H). lra.
Qed.

Lemma sum_set_absent (f : V -> Q) m k v :
  JS.get key_eqb k m = None ->
  Qsum (map f (JS.values (JS.set key_eqb k v m)))
  == Qsum (map f (JS.values m)) + f v.
Proof.
  unfold JS.values.
  induction m as [|[k' v'] m IH]; simpl; [intros _; lra|].
  destruct (key_eqb k k'); simpl; [discriminate|].
  intros H. rewrite (IH H). lra.
Qed.

End MapFacts.

(** ** Keys at their first occurrence *)

Lemma In_first_occurrences (k : option string) (ks : list (option string)) :
  In k (first_occurrences ks) <-> In k ks.
Proof.
  unfold first_occurrences.
  rewrite <- in_rev, nodup_In, <- in_rev. tauto.
Qed.

Lemma NoDup_first_occurrences (ks : list (option string)) :
  NoDup (first_occurrences ks).
Proof.
  unfold first_occurrences. apply NoDup_rev, NoDup_nodup.
Qed.

Lemma first_occurrences_seen (ks : list (option string)) (k : option string) :
  In k ks -> first_occurrences (ks ++ [k]) = first_occurrences ks.
Proof.
  intros Hin. unfold first_occurrences.
  rewrite rev_app_distr. simpl.
  destruct (in_dec key_dec k (rev ks)) as [_|Hout]; [reflexivity|].
  exfalso. apply Hout. now apply in_rev in Hin.
Qed.

Lemma first_occurrences_new (ks : list (option string)) (k : option string) :
  ~ In k ks ->
  first_occurrences (ks ++ [k]) = (first_occurrences ks ++ [k])%list.
Proof.
  intros Hout. unfold first_occurrences.
  rewrite rev_app_distr. simpl.
  destruct (in_dec key_dec k (rev ks)) as [Hin|_]; [|reflexivity].
  exfalso. apply Hout. now apply in_rev.
Qed.

(** ** Grouping by category *)

Section GroupingFacts.
Context {E : Type} (amount_of : E -> Q).
Context (bumped : E -> Q -> E) (fresh : Transaction.t -> E).
Hypothesis amount_bumped : forall e a, amount_of (bumped e a) = amount_of e + a.
Hypothesis amount_fresh : forall t, amount_of (fresh t) = Transaction.amount t.

Lemma grouped_snoc (ts : list Transaction.t) (t : Transaction.t) :
  grouped bumped fresh (ts ++ [t])
  = group_step bumped fresh (grouped bumped fresh ts) t.
Proof. unfold grouped. now rewrite fold_left_app. Qed.

(** The keys of the map are the categories in order of first appearance. *)
Lemma keys_grouped (ts : list Transaction.t) :
  map fst (grouped bumped fresh ts)
  = first_occurrences (map Transaction.category_id ts).
Proof.
  induction ts as [|t ts IH] using rev_ind; [reflexivity|].
  rewrite grouped_snoc, map_app. simpl. unfold group_step.
  destruct (JS.get key_eqb (Transaction.category_id t)
              (grouped bumped fresh ts)) as [e|] eqn:G.
  - rewrite (keys_set_present _ _ _ _ G), IH.
    apply get_Some_In in G. rewrite IH in G.
    apply -> In_first_occurrences in G.
    now rewrite (first_occurrences_seen _ _ G).
  - rewrite (keys_set_absent _ _ _ G), IH.
    apply get_None in G. rewrite IH, In_first_occurrences in G.
    now rewrite (first_occurrences_new _ _ G).
Qed.





(** The amounts of the map add up to the amounts of the transactions. *)
Lemma sum_grouped (ts : list Transaction.t) :
  Qsum (map amount_of (JS.values (grouped bumped fresh ts)))
  == Qsum (map Transaction.amount ts).
Proof.
  induction ts as [|t ts IH] using rev_ind; [reflexivity|].
  rewrite grouped_snoc, map_app, Qsum_app. simpl. unfold group_step.
  destruct (JS.get key_eqb (Transaction.category_id t)
              (grouped bumped fresh ts)) as [e|] eqn:G.
  - rewrite (sum_set_present amount_of _ _ _ _ G), amount_bumped, IH. lra.
  - rewrite (sum_set_absent amount_of _ _ _ G), amount_fresh, IH. lra.
Qed.

Section Sorted.
Context {E' : Type} (amount' : E' -> Q) (conv : E -> E').
Hypothesis amount_conv : forall e, amount' (conv e) = amount_of e.



End Sorted.
End GroupingFacts.

(** ** The two pages *)

Lemma dashboard_categoryTotals (ts : list Transaction.t) :
  Dashboard.categoryTotals ts
  = grouped dashboard_bumped dashboard_fresh (expenses_with_category ts).
Proof. reflexivity. Qed.

Lemma budgets_breakdown (ts : list Transaction.t) :
  Budgets.breakdown ts
  = grouped budgets_bumped budgets_fresh (expenses_with_category ts).
Proof. reflexivity. Qed.


Lemma expenses_with_category_all (ts : list Transaction.t) :
  all_expenses_categorized ts ->
  expenses_with_category ts = of_type TransactionType.expense ts.
Proof.
  intros H. unfold expenses_with_category, of_type.
  apply filter_ext_in. intros t Hin.
  destruct (Transaction.type t) eqn:Ety; [reflexivity|].
  specialize (H t Hin Ety).
  destruct (Transaction.category t); [reflexivity | congruence].
Qed.

Lemma categorized_le_total (ts : list Transaction.t) :
  uncategorized_nonnegative ts ->
  categorized_expense ts <= total_of_type TransactionType.expense ts.
Proof.
  unfold categorized_expense, total_of_type, expenses_with_category, of_type.
  induction ts as [|t ts IH]; intros H; simpl; [lra|].
  assert (IH' : Qsum (map Transaction.amount
                   (filter (fun t => TransactionType.eqb (Transaction.type t)
                                       TransactionType.expense
                                     && JS.truthy (Transaction.category t)) ts))
                <= Qsum (map Transaction.amount
                     (filter (fun t => TransactionType.eqb (Transaction.type t)
                                         TransactionType.expense) ts))).
  { apply IH. intros t' Hin. apply H. now right. }
  destruct (Transaction.type t) eqn:Ety; simpl; [exact IH'|].
  destruct (Transaction.category t) eqn:Ec; simpl; [lra|].
  assert (0 <= Transaction.amount t) by (apply H; [now left| |]; assumption).
  lra.
Qed.

(** ** The pages on sample months *)

(** The scenario of the specification: 60 on Food, 40 on Rent, a salary of
    200. *)
Example scenario_totals :
  Qred (Budgets.income (Budgets.stats scenario_month None)) = 200
  /\ Qred (Budgets.expenses (Budgets.stats scenario_month None)) = 100
  /\ Qred (Budgets.net_savings (Budgets.stats scenario_month None)) = 100
  /\ map (fun e => (spending_name e, Qred (CategorySpending.amount e),
                    Qred (CategorySpending.percentage e)))
       (Dashboard.categorySpending scenario_month)
     = [("Food", 60, 60); ("Rent", 40, 40)].
Proof. repeat split. Qed.

(** Rent and Food both spend 60; Rent was met first and stays first. *)
Example tied_month_order :
  map (fun e => (spending_name e, Qred (CategorySpending.amount e)))
    (Dashboard.categorySpending tied_month)
  = [("Rent", 60); ("Food", 60)]
  /\ first_seen tied_month = [Some "c-rent"; Some "c-food"].
Proof. split; reflexivity. Qed.

Lemma scenario_month_categorized : all_expenses_categorized scenario_month.
Proof.
  intros t [<-|[<-|[<-|[]]]] Hty; discriminate.
Qed.

Lemma month_with_cash_nonnegative : uncategorized_nonnegative month_with_cash.
Proof.
  intros t [<-|[<-|[<-|[]]]] Hty Hc; discriminate.
Qed.

(** * Further properties of the aggregation *)

Lemma Qsum_nonneg (l : list Q) : Forall (fun x => 0 <= x) l -> 0 <= Qsum l.
Proof.
  induction 1 as [|x l Hx _ IH]; simpl; lra.
Qed.











Lemma first_seen_spec (ts : list Transaction.t) (k : option string) :
  In k (first_seen ts)
  <-> exists t, In t ts
                /\ Transaction.type t = TransactionType.expense
                /\ Transaction.category t <> None
                /\ Transaction.category_id t = k.
Proof.
  unfold first_seen. rewrite In_first_occurrences, in_map_iff.
  unfold expenses_with_category. split.
  - intros [t [Hk Hin]]. apply filter_In in Hin. destruct Hin as [Hin Hq].
    apply andb_true_iff in Hq. destruct Hq as [Hty Hc].
    exists t. repeat split; try assumption.
    + now destruct (Transaction.type t).
    + destruct (Transaction.category t); [discriminate | discriminate Hc].
  - intros [t [Hin [Hty [Hc Hk]]]]. exists t. split; [exact Hk|].
    apply filter_In. split; [exact Hin|]. rewrite Hty. simpl.
    destruct (Transaction.category t); [reflexivity | congruence].
Qed.

(** X3. Either breakdown has exactly one entry for each category id borne
    by an expense transaction that has a category: as many entries as there
    are such ids, which are listed without repetition by [first_seen]. *)
Theorem one_entry_per_category (ts : list Transaction.t) :
  length (Dashboard.categorySpending ts) = length (first_seen ts)
  /\ length (Budgets.categoryBreakdown ts) = length (first_seen ts)
  /\ NoDup (first_seen ts)
  /\ (forall k, In k (first_seen ts)
                <-> exists t, In t ts
                      /\ Transaction.type t = TransactionType.expense
                      /\ Transaction.category t <> None
                      /\ Transaction.category_id t = k).
Proof.
  split; [|split; [|split]].
  - unfold Dashboard.categorySpending.
    rewrite (Permutation_length (sort_perm _ _)).
    unfold JS.values. rewrite !length_map.
    rewrite <- (length_map fst), dashboard_categoryTotals.
    now rewrite (keys_grouped dashboard_bumped dashboard_fresh).
  - unfold Budgets.categoryBreakdown.
    rewrite (Permutation_length (sort_perm _ _)).
    unfold JS.values. rewrite length_map.
    rewrite <- (length_map fst), budgets_breakdown.
    now rewrite (keys_grouped budgets_bumped budgets_fresh).
  - apply NoDup_first_occurrences.
  - apply first_seen_spec.
Qed.


Section GroupingCategory.
Context {E : Type} (cat : E -> option Category.t).
Context (bumped : E -> Q -> E) (fresh : Transaction.t -> E).
Hypothesis cat_bumped : forall e a, cat (bumped e a) = cat e.
Hypothesis cat_fresh : forall t, cat (fresh t) = Transaction.category t.



End GroupingCategory.



(** ** The two pages side by side *)

Lemma sort_map {A B : Type} (g : A -> B) (cmpA : A -> A -> Q)
    (cmpB : B -> B -> Q) (l : list A) :
  (forall x y, cmpA x y = cmpB (g x) (g y)) ->
  map g (JS.sort cmpA l) = JS.sort cmpB (map g l).
Proof.
  intros Hcmp. induction l as [|x l IH]; simpl; [reflexivity|].
  rewrite <- IH. generalize (JS.sort cmpA l) as s.
  induction s as [|y s IHs]; simpl; [reflexivity|].
  rewrite <- Hcmp. destruct (Qle_bool (cmpA x y) 0); simpl; [reflexivity|].
  now rewrite IHs.
Qed.

Lemma get_map_values {V W : Type} (g : V -> W) (m : list (option string * V))
    (k : option string) :
  JS.get key_eqb k (map (fun kv => (fst kv, g (snd kv))) m)
  = option_map g (JS.get key_eqb k m).
Proof.
  induction m as [|[k' v'] m IH]; simpl; [reflexivity|].
  now destruct (key_eqb k k').
Qed.

Lemma set_map_values {V W : Type} (g : V -> W) (m : list (option string * V))
    (k : option string) (v : V) :
  JS.set key_eqb k (g v) (map (fun kv => (fst kv, g (snd kv))) m)
  = map (fun kv => (fst kv, g (snd kv))) (JS.set key_eqb k v m).
Proof.
  induction m as [|[k' v'] m IH]; simpl; [reflexivity|].
  destruct (key_eqb k k'); simpl; [reflexivity|].
  now rewrite IH.
Qed.

Lemma budgets_step_of_totals (m : list (option string * Dashboard.Total))
    (t : Transaction.t) :
  Budgets.add_transaction
    (map (fun kv => (fst kv, total_as_spent (snd kv))) m) t
  = map (fun kv => (fst kv, total_as_spent (snd kv)))
      (Dashboard.add_transaction m t).
Proof.
  unfold Budgets.add_transaction, Dashboard.add_transaction.
  rewrite get_map_values.
  destruct (JS.get key_eqb (Transaction.category_id t) m) as [e|];
    cbn [option_map].
  - exact (set_map_values total_as_spent _ _
             {| Dashboard.category := Dashboard.category e;
                Dashboard.amount := Dashboard.amount e + Transaction.amount t
             |}).
  - exact (set_map_values total_as_spent _ _
             {| Dashboard.category := Transaction.category t;
                Dashboard.amount := Transaction.amount t |}).
Qed.

Lemma budgets_breakdown_of_totals (ts : list Transaction.t) :
  Budgets.breakdown ts
  = map (fun kv => (fst kv, total_as_spent (snd kv)))
      (Dashboard.categoryTotals ts).
Proof.
  unfold Budgets.breakdown, Dashboard.categoryTotals.
  induction (expenses_with_category ts) as [|t l IH] using rev_ind;
    [reflexivity|].
  rewrite !fold_left_app. cbn [fold_left].
  now rewrite IH, budgets_step_of_totals.
Qed.

(** X5. The Dashboard and the Budgets page list the same categories with
    the same amounts in the same order. *)
Theorem pages_show_same_breakdown (ts : list Transaction.t) :
  map dashboard_shown (Dashboard.categorySpending ts)
  = map budgets_shown (Budgets.categoryBreakdown ts).
Proof.
  unfold Dashboard.categorySpending, Budgets.categoryBreakdown.
  rewrite budgets_breakdown_of_totals.
  unfold JS.values. rewrite !map_map. simpl.
  rewrite <- (map_map snd total_as_spent).
  rewrite <- (map_map snd (Dashboard.to_spending (Dashboard.total ts))).
  set (items := map snd (Dashboard.categoryTotals ts)).
  rewrite <- (sort_map (Dashboard.to_spending (Dashboard.total ts))
                (fun a b => Dashboard.amount b - Dashboard.amount a))
    by reflexivity.
  rewrite <- (sort_map total_as_spent
                (fun a b => Dashboard.amount b - Dashboard.amount a))
    by reflexivity.
  rewrite !map_map. reflexivity.
Qed.

(** * Further properties of the exporters *)

(** ** The CSV text can be read back *)

Lemma csv_read_at_separator (st : csv_state) (field : string)
    (row : list string) (rows : list (list string)) (rest : string) :
  at_separator rest -> st <> Quoted ->
  csv_read st field row rows rest = csv_read Unquoted field row rows rest.
Proof.
  intros Hsep Hst. destruct rest as [|c rest]; [reflexivity|].
  destruct Hsep as [-> | ->]; destruct st; try congruence; reflexivity.
Qed.

Lemma not_needs_quoting_cons (c : ascii) (s : string) :
  ~ needs_quoting (String c s) ->
  Ascii.eqb c "," = false /\ Ascii.eqb c JS.nl_char = false
  /\ Ascii.eqb c JS.dq_char = false /\ ~ needs_quoting s.
Proof.
  unfold needs_quoting, has_char. simpl. intros H.
  repeat split.
  - apply Ascii.eqb_neq. intros ->. apply H. left. now left.
  - apply Ascii.eqb_neq. intros ->. apply H. right. right. now left.
  - apply Ascii.eqb_neq. intros ->. apply H. right. left. now left.
  - intros [H'|[H'|H']]; apply H; [left|right; left|right; right]; now right.
Qed.

Lemma csv_read_plain (f acc : string) (row : list string)
    (rows : list (list string)) (rest : string) :
  ~ needs_quoting f ->
  csv_read Unquoted acc row rows (f ++ rest)
  = csv_read Unquoted (acc ++ f) row rows rest.
Proof.
  revert acc. induction f as [|c f IH]; intros acc Hf.
  - now rewrite append_nil_r.
  - destruct (not_needs_quoting_cons c f Hf) as [Hc [Hn [Hq Hf']]].
    cbn [append csv_read]. rewrite Hc, Hn, Hq.
    rewrite (IH _ Hf'), append_assoc. reflexivity.
Qed.

Lemma csv_read_quoted (f acc : string) (row : list string)
    (rows : list (list string)) (rest : string) :
  csv_read Quoted acc row rows
    (JS.replaceAll JS.dq_char (JS.dq ++ JS.dq) f ++ JS.dq ++ rest)
  = csv_read QuoteSeen (acc ++ f) row rows rest.
Proof.
  revert acc. induction f as [|c f IH]; intros acc.
  - cbn. now rewrite append_nil_r.
  - cbn [JS.replaceAll]. destruct (Ascii.eqb c JS.dq_char) eqn:Ec.
    + apply Ascii.eqb_eq in Ec. subst c.
      transitivity (csv_read Quoted (acc ++ JS.dq) row rows
                      (JS.replaceAll JS.dq_char (JS.dq ++ JS.dq) f
                       ++ JS.dq ++ rest)); [reflexivity|].
      rewrite (IH (acc ++ JS.dq)), append_assoc. reflexivity.
    + transitivity (csv_read Quoted (acc ++ String c EmptyString) row rows
                      (JS.replaceAll JS.dq_char (JS.dq ++ JS.dq) f
                       ++ JS.dq ++ rest)).
      * cbn [append csv_read]. now rewrite Ec.
      * rewrite (IH _), append_assoc. reflexivity.
Qed.

(** One escaped field, read from the start of a field. *)
Lemma csv_read_field (f : string) (row : list string)
    (rows : list (list string)) (rest : string) :
  at_separator rest ->
  csv_read FieldStart "" row rows (escapeCSV f ++ rest)
  = csv_read Unquoted f row rows rest.
Proof.
  intros Hsep. destruct (needs_quoting_dec f) as [Hq|Hp].
  - apply needs_quoting_test in Hq. unfold escapeCSV. rewrite Hq.
    rewrite !append_assoc. cbn [JS.dq append csv_read]. cbn.
    change (String JS.dq_char rest) with (JS.dq ++ rest).
    rewrite csv_read_quoted. cbn [append].
    apply csv_read_at_separator; [exact Hsep | discriminate].
  - rewrite (escapeCSV_plain f Hp).
    destruct f as [|c f].
    + cbn [append]. apply csv_read_at_separator; [exact Hsep | discriminate].
    + destruct (not_needs_quoting_cons c f Hp) as [Hc [Hn [Hd Hf']]].
      cbn [append csv_read]. rewrite Hc, Hn, Hd.
      now rewrite (csv_read_plain f _ row rows rest Hf').
Qed.

Lemma join_cons2 (sep x y : string) (l : list string) :
  JS.join sep (x :: y :: l) = x ++ sep ++ JS.join sep (y :: l).
Proof. reflexivity. Qed.

(** One line, read to the end of the text or to the next line. *)
Lemma csv_read_line (f : string) (fs row : list string)
    (rows : list (list string)) :
  csv_read FieldStart "" row rows (JS.join "," (map escapeCSV (f :: fs)))
  = (rows ++ [row ++ f :: fs])%list
  /\ forall rest,
       csv_read FieldStart "" row rows
         (JS.join "," (map escapeCSV (f :: fs)) ++ JS.nl ++ rest)
       = csv_read FieldStart "" [] (rows ++ [row ++ f :: fs])%list rest.
Proof.
  revert f row. induction fs as [|g gs IH]; intros f row.
  - cbn [map JS.join String.concat]. split.
    + rewrite <- (append_nil_r (escapeCSV f)).
      now rewrite csv_read_field.
    + intros rest. rewrite csv_read_field; [reflexivity|]. now right.
  - cbn [map]. rewrite join_cons2.
    destruct (IH g (row ++ [f])%list) as [IHend IHnl].
    split.
    + rewrite csv_read_field by now left.
      cbn [append csv_read Ascii.eqb Bool.eqb].
      cbn [map] in IHend. rewrite IHend.
      now rewrite <- app_assoc.
    + intros rest. rewrite !append_assoc.
      rewrite csv_read_field by now left.
      cbn [append csv_read Ascii.eqb Bool.eqb].
      specialize (IHnl rest). cbn [map] in IHnl.
      rewrite IHnl. now rewrite <- app_assoc.
Qed.

Lemma csv_read_text (r : list string) (rs acc : list (list string)) :
  r <> [] -> Forall (fun row => row <> []) rs ->
  csv_read FieldStart "" [] acc (csv_text (r :: rs)) = (acc ++ r :: rs)%list.
Proof.
  revert r acc. induction rs as [|r' rs IH]; intros r acc Hr Hrs.
  - destruct r as [|f fs]; [congruence|].
    unfold csv_text. cbn [map JS.join String.concat].
    exact (proj1 (csv_read_line f fs [] acc)).
  - destruct r as [|f fs]; [congruence|].
    inversion Hrs as [|? ? Hr' Hrs']; subst.
    unfold csv_text. cbn [map]. rewrite join_cons2.
    rewrite (proj2 (csv_read_line f fs [] acc)).
    fold (csv_text (r' :: rs)).
    rewrite (IH r' _ Hr' Hrs'). now rewrite <- app_assoc.
Qed.

Section CsvRoundTrip.
Context `{RT : Runtime}.

Lemma exportToCSV_document (t : Transaction.t) (ts : list Transaction.t)
    (fn : option string) (w : World) :
  exportToCSV (t :: ts) fn w
  = downloadBlob (csv_text (headers :: map csv_row (t :: ts)))
      "text/csv;charset=utf-8;"
      (JS.or_else fn ("transactions-" ++ format_yyyy_MM_dd (now w) ++ ".csv"))
      w.
Proof. reflexivity. Qed.

Lemma parse_csv_rows (ts : list Transaction.t) :
  parse_csv (csv_text (headers :: map csv_row ts)) = headers :: map csv_row ts.
Proof.
  unfold parse_csv. rewrite csv_read_text; [reflexivity|discriminate|].
  apply Forall_forall. intros row Hin.
  apply in_map_iff in Hin. destruct Hin as [t' [<- _]]. discriminate.
Qed.

(** X6. The text exported by [exportToCSV] for a non-empty list reads back,
    by the usual convention for comma-separated text, as the header row
    followed by the rows of the transactions, field for field, whatever
    commas, quotes or newlines the fields contain. *)
Theorem exportToCSV_reads_back (t : Transaction.t) (ts : list Transaction.t)
    (filename : option string) (w : World) :
  exists d,
    downloads (exportToCSV (t :: ts) filename w) = (downloads w ++ [d])%list
    /\ parse_csv (content d) = headers :: map csv_row (t :: ts).
Proof.
  rewrite exportToCSV_document. unfold downloadBlob. cbn [downloads].
  eexists. split; [reflexivity|].
  cbn [content]. apply parse_csv_rows.
Qed.

End CsvRoundTrip.

(** X7. An escaped field read back alone is the value it came from, so
    two values never share an escaped form. *)
Theorem escapeCSV_reads_back (s : string) :
  parse_csv (escapeCSV s) = [[s]]
  /\ forall s', escapeCSV s = escapeCSV s' -> s = s'.
Proof.
  assert (H : forall x, parse_csv (escapeCSV x) = [[x]]).
  { intros x. unfold parse_csv.
    rewrite <- (append_nil_r (escapeCSV x)).
    now rewrite csv_read_field. }
  split; [apply H|].
  intros s' Heq.
  pose proof (H s) as Hs. rewrite Heq, H in Hs. congruence.
Qed.

(** ** The markup escape *)

Lemma escape_markup_cons (c : ascii) (s : string) :
  escape_markup (String c s) = markup_piece c ++ escape_markup s.
Proof.
  rewrite !escape_markup_one_pass. unfold markup_escaped, markup_piece.
  cbn [list_ascii_of_string flat_map]. rewrite string_of_list_app.
  f_equal. destruct (Ascii.eqb c "&"); [reflexivity|].
  now destruct (Ascii.eqb c "<").
Qed.

Lemma markup_piece_cases (c : ascii) :
  (c = "&"%char /\ markup_piece c = "&amp;")
  \/ (c = "<"%char /\ markup_piece c = "&lt;")
  \/ (c <> "&"%char /\ c <> "<"%char
      /\ markup_piece c = String c EmptyString).
Proof.
  unfold markup_piece.
  destruct (Ascii.eqb_spec c "&") as [->|Ha]; [now left|].
  destruct (Ascii.eqb_spec c "<") as [->|Hl]; [right; now left|].
  right; right. now repeat split.
Qed.

Lemma escape_markup_injective (s1 s2 : string) :
  escape_markup s1 = escape_markup s2 -> s1 = s2.
Proof.
  revert s2. induction s1 as [|c1 s1 IH]; intros [|c2 s2] H.
  - reflexivity.
  - rewrite escape_markup_cons in H.
    destruct (markup_piece_cases c2) as [[_ E]|[[_ E]|[_ [_ E]]]];
      rewrite E in H; discriminate.
  - rewrite escape_markup_cons in H.
    destruct (markup_piece_cases c1) as [[_ E]|[[_ E]|[_ [_ E]]]];
      rewrite E in H; discriminate.
  - rewrite !escape_markup_cons in H.
    destruct (markup_piece_cases c1) as [[E1 P1]|[[E1 P1]|[A1 [L1 P1]]]];
      destruct (markup_piece_cases c2) as [[E2 P2]|[[E2 P2]|[A2 [L2 P2]]]];
      rewrite P1, P2 in H; cbn [append] in H; subst;
      first [ exfalso; congruence
            | f_equal; [congruence | apply IH; congruence]
            | f_equal; apply IH; congruence ].
Qed.

(** X8. The text [exportToExcel] puts in a string cell never contains a
    [<], and two different texts are never escaped to the same text. *)
Theorem escape_markup_safe (s : string) :
  ~ has_char "<" (escape_markup s)
  /\ forall s', escape_markup s = escape_markup s' -> s = s'.
Proof.
  split; [|intros s'; apply escape_markup_injective].
  unfold has_char. induction s as [|c s IH]; [intros []|].
  rewrite escape_markup_cons, list_ascii_app, in_app_iff.
  intros [H|H]; [|exact (IH H)].
  destruct (markup_piece_cases c) as [[_ E]|[[_ E]|[_ [Hl E]]]];
    rewrite E in H; cbn in H;
    repeat (destruct H as [H|H]; [try discriminate H; congruence|]);
    exact H.
Qed.

(** * The Transactions page *)

Section TransactionsFilter.
Context `{PR : PageRuntime}.

(** X9. With the filters the page starts with (no search text, every type,
    every category, no date bound) the filtered list is the whole list. *)
Theorem initial_filters_show_all (ts : list Transaction.t) :
  Transactions.filteredTransactions ts Transactions.initial_filters = ts.
Proof.
  unfold Transactions.filteredTransactions.
  induction ts as [|t ts IH]; [reflexivity|].
  cbn [filter]. now rewrite IH.
Qed.

(** X10. A transaction that has neither a description nor a category passes
    no search: whatever non-empty text is searched for, and whatever the
    other filters, it is left out. *)
Theorem search_hides_bare_transactions (ts : list Transaction.t)
    (filters : Transactions.Filters) (t : Transaction.t) :
  Transactions.search filters <> "" ->
  Transaction.description t = None ->
  Transaction.category t = None ->
  ~ In t (Transactions.filteredTransactions ts filters).
Proof.
  intros Hs Hd Hc Hin.
  apply filter_In in Hin. destruct Hin as [_ Hm].
  unfold Transactions.matches in Hm. rewrite Hd, Hc in Hm.
  apply String.eqb_neq in Hs. rewrite Hs in Hm. discriminate Hm.
Qed.

Lemma matches_type_filter (filters : Transactions.Filters)
    (k : TransactionType.t) (t : Transaction.t) :
  Transactions.typeFilter filters = TransactionType.to_string k ->
  Transactions.matches filters t
  = TransactionType.eqb (Transaction.type t) k
    && Transactions.matches
         {| Transactions.search := Transactions.search filters;
            Transactions.typeFilter := "all";
            Transactions.categoryFilter := Transactions.categoryFilter filters;
            Transactions.dateFrom := Transactions.dateFrom filters;
            Transactions.dateTo := Transactions.dateTo filters |} t.
Proof.
  intros Hk. unfold Transactions.matches.
  cbn [Transactions.search Transactions.typeFilter
       Transactions.categoryFilter Transactions.dateFrom Transactions.dateTo].
  rewrite Hk.
  destruct k, (Transaction.type t);
    cbn [TransactionType.to_string TransactionType.eqb String.eqb Ascii.eqb
         Bool.eqb orb andb];
    rewrite ?andb_true_r, ?andb_false_r; reflexivity.
Qed.

(** X11. The type filter acts on its own: with the filter set to a kind,
    the list is the transactions of that kind among those the other filters
    let through; with a value that is neither all nor a kind, it is
    empty. *)
Theorem type_filter_narrows (ts : list Transaction.t)
    (filters : Transactions.Filters) :
  (forall k,
     Transactions.typeFilter filters = TransactionType.to_string k ->
     Transactions.filteredTransactions ts filters
     = of_type k
         (Transactions.filteredTransactions ts
            {| Transactions.search := Transactions.search filters;
               Transactions.typeFilter := "all";
               Transactions.categoryFilter :=
                 Transactions.categoryFilter filters;
               Transactions.dateFrom := Transactions.dateFrom filters;
               Transactions.dateTo := Transactions.dateTo filters |}))
  /\ (Transactions.typeFilter filters <> "all" ->
      Transactions.typeFilter filters <> "income" ->
      Transactions.typeFilter filters <> "expense" ->
      Transactions.filteredTransactions ts filters = []).
Proof.
  split.
  - intros k Hk. unfold Transactions.filteredTransactions, of_type.
    induction ts as [|t ts IH]; [reflexivity|].
    cbn [filter]. rewrite IH, (matches_type_filter filters k t Hk).
    destruct (Transactions.matches _ t); cbn [filter];
      rewrite ?andb_true_r, ?andb_false_r; reflexivity.
  - intros Ha Hi He. unfold Transactions.filteredTransactions.
    induction ts as [|t ts IH]; [reflexivity|].
    cbn [filter]. rewrite IH.
    unfold Transactions.matches.
    apply String.eqb_neq in Ha.
    assert (Hty : String.eqb (TransactionType.to_string (Transaction.type t))
                    (Transactions.typeFilter filters) = false).
    { apply String.eqb_neq. destruct (Transaction.type t); cbn; congruence. }
    rewrite Ha, Hty. cbn [orb].
    rewrite andb_false_r. reflexivity.
Qed.

End TransactionsFilter.

(** ** Dictionaries with any decidable key *)

Section KeyedFacts.
Context {K V : Type} (keq : K -> K -> bool).
Hypothesis keq_eq : forall a b, keq a b = true <-> a = b.
Implicit Types (m : list (K * V)) (k : K) (v : V).

Lemma keq_refl k : keq k k = true.
Proof. now apply keq_eq. Qed.

Lemma keq_neq k k' : keq k k' = false <-> k <> k'.
Proof. rewrite <- keq_eq. destruct (keq k k'); split; congruence. Qed.

Lemma keyed_get_None m k : JS.get keq k m = None <-> ~ In k (map fst m).
Proof.
  induction m as [|[k' v'] m IH]; simpl; [tauto|].
  destruct (keq k k') eqn:Ek.
  - apply keq_eq in Ek. split; [discriminate|]. intros H. exfalso. auto.
  - apply keq_neq in Ek. rewrite IH. split.
    + intros H [Heq|Hin]; [congruence | auto].
    + intros H Hin. apply H. now right.
Qed.

Lemma keyed_get_set m k k0 v :
  JS.get keq k (JS.set keq k0 v m)
  = if keq k k0 then Some v else JS.get keq k m.
Proof.
  induction m as [|[k' v'] m IH]; simpl; [reflexivity|].
  destruct (keq k0 k') eqn:E0; simpl.
  - apply keq_eq in E0. subst k'. now destruct (keq k k0).
  - rewrite IH. destruct (keq k k') eqn:Ek; [|reflexivity].
    apply keq_eq in Ek. subst k'. apply keq_neq in E0.
    destruct (keq k k0) eqn:E1; [|reflexivity].
    apply keq_eq in E1. congruence.
Qed.

Lemma keyed_keys_present m k v e :
  JS.get keq k m = Some e -> map fst (JS.set keq k v m) = map fst m.
Proof.
  induction m as [|[k' v'] m IH]; simpl; [discriminate|].
  destruct (keq k k'); simpl; [reflexivity|].
  intros H. now rewrite IH.
Qed.

Lemma keyed_keys_absent m k v :
  JS.get keq k m = None ->
  map fst (JS.set keq k v m) = (map fst m ++ [k])%list.
Proof.
  induction m as [|[k' v'] m IH]; simpl; [reflexivity|].
  destruct (keq k k'); simpl; [discriminate|].
  intros H. now rewrite IH.
Qed.

Lemma keyed_In_get m k v :
  NoDup (map fst m) -> In (k, v) m -> JS.get keq k m = Some v.
Proof.
  induction m as [|[k' v'] m IH]; simpl; [intros _ []|].
  intros Hnd [Heq|Hin].
  - inversion Heq; subst. now rewrite keq_refl.
  - inversion Hnd as [|? ? Hout Hnd']; subst.
    destruct (keq k k') eqn:Ek; [|now apply IH].
    apply keq_eq in Ek. subst k'.
    exfalso. apply Hout. change k with (fst (k, v)). now apply in_map.
Qed.

Lemma keyed_get_In m k v : JS.get keq k m = Some v -> In (k, v) m.
Proof.
  induction m as [|[k' v'] m IH]; simpl; [discriminate|].
  destruct (keq k k') eqn:Ek.
  - apply keq_eq in Ek. subst k'. intros H. inversion H. now left.
  - intros H. right. now apply IH.
Qed.

End KeyedFacts.

Lemma filter_partition_perm {A : Type} (p : A -> bool) (l : list A) :
  Permutation (filter p l ++ filter (fun x => negb (p x)) l) l.
Proof.
  induction l as [|x l IH]; simpl; [reflexivity|].
  destruct (p x); simpl.
  - now constructor.
  - symmetry. apply Permutation_cons_app. now symmetry.
Qed.

Lemma entries_perm {V : Type} (o : JSObject.Obj V) :
  Permutation (JSObject.entries o) o.
Proof.
  unfold JSObject.entries.
  rewrite sort_perm. apply filter_partition_perm.
Qed.

Lemma nonempty_snoc {A : Type} (l : list A) (x : A) :
  nonempty (l ++ [x]) = Some (l ++ [x])%list.
Proof. now destruct l. Qed.

Lemma nonempty_Some {A : Type} (l d : list A) :
  nonempty l = Some d -> d = l /\ l <> [].
Proof. destruct l; [discriminate|]. intros H. inversion H. now split. Qed.

Lemma NoDup_snoc {A : Type} (l : list A) (x : A) :
  NoDup l -> ~ In x l -> NoDup (l ++ [x]).
Proof.
  intros Hnd Hout.
  apply (NoDup_Add (Add_app x l [])). rewrite app_nil_r. now split.
Qed.

Section TransactionsGroups.
Context `{PR : PageRuntime}.

Lemma filter_dateKey_snoc (k : string) (l : list Transaction.t)
    (t : Transaction.t) :
  filter (fun x => String.eqb (Transactions.dateKey x) k) (l ++ [t])
  = (filter (fun x => String.eqb (Transactions.dateKey x) k) l
     ++ if String.eqb (Transactions.dateKey t) k then [t] else [])%list.
Proof. rewrite filter_app. reflexivity. Qed.

(** After the loop: either an inherited name was met and the loop threw,
    or every day holds, in input order, the transactions of its date. *)
Lemma add_to_groups_fold (l : list Transaction.t) :
  match fold_left Transactions.add_to_groups l (Some []) with
  | Some groups =>
      (forall t, In t l ->
         JSObject.inherited (Transactions.dateKey t) = false)
      /\ NoDup (map fst groups)
      /\ (forall k, JSObject.get_own k groups
                    = nonempty (filter (fun x =>
                                   String.eqb (Transactions.dateKey x) k) l))
  | None =>
      exists t, In t l /\ JSObject.inherited (Transactions.dateKey t) = true
  end.
Proof.
  induction l as [|t l IH] using rev_ind.
  - cbn. repeat split; [intros t [] | constructor].
  - rewrite fold_left_app. cbn [fold_left].
    destruct (fold_left Transactions.add_to_groups l (Some []))
      as [groups|].
    + destruct IH as [Hinh [Hnd Hget]].
      unfold Transactions.add_to_groups.
      destruct (JSObject.get_own (Transactions.dateKey t) groups)
        as [day|] eqn:G.
      * assert (Hday := G). rewrite Hget in Hday.
        apply nonempty_Some in Hday. destruct Hday as [-> Hne].
        assert (Ht : JSObject.inherited (Transactions.dateKey t) = false).
        { destruct (filter _ l) as [|t' day'] eqn:F; [congruence|].
          assert (Hin : In t' (filter (fun x => String.eqb
                          (Transactions.dateKey x) (Transactions.dateKey t)) l))
            by (rewrite F; now left).
          apply filter_In in Hin. destruct Hin as [Hin Hk].
          apply String.eqb_eq in Hk. rewrite <- Hk. now apply Hinh. }
        split; [|split].
        -- intros x Hx. apply in_app_iff in Hx.
           destruct Hx as [Hx|[<-|[]]]; [now apply Hinh | exact Ht].
        -- unfold JSObject.set_own.
           now rewrite (keyed_keys_present String.eqb _ _ _ _ G).
        -- intros k. unfold JSObject.get_own, JSObject.set_own.
           rewrite (keyed_get_set String.eqb String.eqb_eq).
           rewrite filter_dateKey_snoc.
           destruct (String.eqb k (Transactions.dateKey t)) eqn:Ek.
           ++ apply String.eqb_eq in Ek. subst k.
              rewrite String.eqb_refl. now rewrite nonempty_snoc.
           ++ rewrite String.eqb_sym, Ek, app_nil_r. apply Hget.
      * destruct (JSObject.inherited (Transactions.dateKey t)) eqn:Ht.
        -- exists t. split; [apply in_app_iff; right; now left | exact Ht].
        -- assert (Hnone := G). rewrite Hget in Hnone.
           assert (Hempty : filter (fun x => String.eqb
                     (Transactions.dateKey x) (Transactions.dateKey t)) l = []).
           { destruct (filter _ l); [reflexivity | discriminate]. }
           split; [|split].
           ++ intros x Hx. apply in_app_iff in Hx.
              destruct Hx as [Hx|[<-|[]]]; [now apply Hinh | exact Ht].
           ++ unfold JSObject.set_own.
              rewrite (keyed_keys_absent String.eqb _ _ _ G).
              apply NoDup_snoc; [exact Hnd|].
              now apply (keyed_get_None String.eqb String.eqb_eq).
           ++ intros k. unfold JSObject.get_own, JSObject.set_own.
              rewrite (keyed_get_set String.eqb String.eqb_eq).
              rewrite filter_dateKey_snoc.
              destruct (String.eqb k (Transactions.dateKey t)) eqn:Ek.
              ** apply String.eqb_eq in Ek. subst k.
                 now rewrite String.eqb_refl, Hempty.
              ** rewrite String.eqb_sym, Ek, app_nil_r. apply Hget.
    + destruct IH as [x [Hx Hinh]]. exists x.
      split; [apply in_app_iff; now left | exact Hinh].
Qed.

(** X12. Unless the formatted date of a transaction is the name of an
    inherited object property, the grouped view puts every transaction in
    exactly one day: the days have distinct keys, none is empty, and each
    holds, in the order of the list, the transactions whose formatted date
    is its key. *)
Theorem groupedTransactions_partition (filtered : list Transaction.t) :
  (forall t, In t filtered ->
     JSObject.inherited (Transactions.dateKey t) = false) ->
  exists days,
    Transactions.groupedTransactions filtered = Some days
    /\ NoDup (map fst days)
    /\ (forall t, In t filtered ->
          In (Transactions.dateKey t) (map fst days))
    /\ (forall k day, In (k, day) days ->
          day <> []
          /\ day = filter (fun t => String.eqb (Transactions.dateKey t) k)
                     filtered).
Proof.
  intros Hinh. unfold Transactions.groupedTransactions.
  pose proof (add_to_groups_fold filtered) as Hfold.
  destruct (fold_left Transactions.add_to_groups filtered (Some []))
    as [groups|].
  - destruct Hfold as [_ [Hnd Hget]].
    assert (Hperm : Permutation
              (JS.sort (fun a b => localeCompare (fst b) (fst a))
                 (JSObject.entries groups)) groups).
    { rewrite sort_perm. apply entries_perm. }
    eexists. split; [reflexivity|]. split; [|split].
    + apply (Permutation_NoDup (Permutation_map fst (Permutation_sym Hperm))).
      exact Hnd.
    + intros t Ht.
      apply (Permutation_in _ (Permutation_map fst (Permutation_sym Hperm))).
      destruct (in_dec string_dec (Transactions.dateKey t) (map fst groups))
        as [Hin|Hout]; [exact Hin|].
      apply (keyed_get_None String.eqb String.eqb_eq) in Hout.
      unfold JSObject.get_own in Hget. rewrite Hget in Hout.
      assert (Hf : In t (filter (fun x => String.eqb (Transactions.dateKey x)
                                   (Transactions.dateKey t)) filtered)).
      { apply filter_In. split; [exact Ht | apply String.eqb_refl]. }
      destruct (filter _ filtered); [destruct Hf | discriminate].
    + intros k day Hin.
      apply (Permutation_in _ Hperm) in Hin.
      apply (keyed_In_get String.eqb String.eqb_eq _ _ _ Hnd) in Hin.
      unfold JSObject.get_own in Hget. rewrite Hget in Hin.
      apply nonempty_Some in Hin. destruct Hin as [-> Hne]. now split.
  - destruct Hfold as [t [Ht Hi]]. rewrite (Hinh t Ht) in Hi. discriminate.
Qed.

(** Conversely, a formatted date that is the name of an inherited property
    makes the loop throw. *)
Lemma groupedTransactions_throws (filtered : list Transaction.t)
    (t : Transaction.t) :
  In t filtered ->
  JSObject.inherited (Transactions.dateKey t) = true ->
  Transactions.groupedTransactions filtered = None.
Proof.
  intros Ht Hi. unfold Transactions.groupedTransactions.
  pose proof (add_to_groups_fold filtered) as Hfold.
  destruct (fold_left Transactions.add_to_groups filtered (Some []))
    as [groups|]; [|reflexivity].
  destruct Hfold as [Hinh _]. rewrite (Hinh t Ht) in Hi. discriminate.
Qed.

End TransactionsGroups.

Lemma groupedTransactions_partition_witness :
  (forall t, In t three_days ->
     JSObject.inherited (Transactions.dateKey (H := sample_runtime) t)
     = false)
  /\ exists days,
       Transactions.groupedTransactions (PR := sample_page_runtime) three_days
       = Some days
       /\ NoDup (map fst days)
       /\ (forall t, In t three_days ->
             In (Transactions.dateKey (H := sample_runtime) t)
               (map fst days))
       /\ (forall k day, In (k, day) days ->
             day <> []
             /\ day = filter (fun t => String.eqb
                                (Transactions.dateKey (H := sample_runtime) t) k)
                        three_days).
Proof.
  assert (Hinh : forall t, In t three_days ->
            JSObject.inherited
              (Transactions.dateKey (H := sample_runtime) t) = false).
  { intros t [<-|[<-|[<-|[]]]]; reflexivity. }
  split; [exact Hinh|].
  exact (groupedTransactions_partition (PR := sample_page_runtime)
           three_days Hinh).
Defined.

(** The days of [three_days], latest first. *)
Example groupedTransactions_three_days :
  option_map (map (fun kd => (fst kd,
                              map Transaction.description (snd kd))))
    (Transactions.groupedTransactions (PR := sample_page_runtime) three_days)
  = Some [("2026-02-05", [Some "b"]); ("2026-02-03", [Some "a"; Some "c"])].
Proof. reflexivity. Qed.

Lemma search_hides_bare_transactions_witness :
  "a" <> ""
  /\ Transaction.description
       (sample_transaction TransactionType.expense 5 None None None) = None
  /\ Transaction.category
       (sample_transaction TransactionType.expense 5 None None None) = None
  /\ ~ In (sample_transaction TransactionType.expense 5 None None None)
         (Transactions.filteredTransactions (PR := sample_page_runtime)
            [sample_transaction TransactionType.expense 5 None None None;
             lunch]
            {| Transactions.search := "a";
               Transactions.typeFilter := "all";
               Transactions.categoryFilter := "all";
               Transactions.dateFrom := None;
               Transactions.dateTo := None |}).
Proof.
  split; [discriminate|]. split; [reflexivity|]. split; [reflexivity|].
  apply (search_hides_bare_transactions (PR := sample_page_runtime));
    [discriminate | reflexivity | reflexivity].
Defined.

(** The same search keeps the transaction described as "a < b & c". *)
Example search_keeps_described_transaction :
  Transactions.filteredTransactions (PR := sample_page_runtime)
    [sample_transaction TransactionType.expense 5 None None None; lunch]
    {| Transactions.search := "A";
       Transactions.typeFilter := "all";
       Transactions.categoryFilter := "all";
       Transactions.dateFrom := None;
       Transactions.dateTo := None |}
  = [lunch].
Proof. reflexivity. Qed.

Section TransactionsExport.
Context `{PR : PageRuntime}.

(** X13. The export handlers report what they did. With nothing to export
    they show the error toast and leave the browser alone. Otherwise they
    hand the browser exactly one file, under the dated default name and the
    format's MIME type (the CSV one reading back as the header and the rows
    of the filtered list), and show a success toast with the number of
    transactions. *)
Theorem export_handlers_report (filtered : list Transaction.t)
    (p : Transactions.Page) :
  (filtered = [] ->
   Transactions.handleExportCSV filtered p
   = {| Transactions.browser := Transactions.browser p;
        Transactions.toasts :=
          (Transactions.toasts p
           ++ [toast_error "No transactions to export"])%list |}
   /\ Transactions.handleExportExcel filtered p
      = {| Transactions.browser := Transactions.browser p;
           Transactions.toasts :=
             (Transactions.toasts p
              ++ [toast_error "No transactions to export"])%list |})
  /\ (filtered <> [] ->
      (exists d,
         downloads (Transactions.browser
                      (Transactions.handleExportCSV filtered p))
         = (downloads (Transactions.browser p) ++ [d])%list
         /\ mimeType d = "text/csv;charset=utf-8;"
         /\ filename d
            = "transactions-"
              ++ format_yyyy_MM_dd (now (Transactions.browser p)) ++ ".csv"
         /\ parse_csv (content d) = headers :: map csv_row filtered)
      /\ Transactions.toasts (Transactions.handleExportCSV filtered p)
         = (Transactions.toasts p
            ++ [toast_success
                  ("Exported " ++ Transactions.count_text (length filtered)
                   ++ " transactions as CSV")])%list
      /\ (exists d,
            downloads (Transactions.browser
                         (Transactions.handleExportExcel filtered p))
            = (downloads (Transactions.browser p) ++ [d])%list
            /\ mimeType d = "application/vnd.ms-excel"
            /\ filename d
               = "transactions-"
                 ++ format_yyyy_MM_dd (now (Transactions.browser p)) ++ ".xls"
            /\ content d = spreadsheet filtered)
      /\ Transactions.toasts (Transactions.handleExportExcel filtered p)
         = (Transactions.toasts p
            ++ [toast_success
                  ("Exported " ++ Transactions.count_text (length filtered)
                   ++ " transactions as Excel")])%list).
Proof.
  split.
  - intros ->. split; reflexivity.
  - intros Hne. destruct filtered as [|t ts]; [congruence|].
    unfold Transactions.handleExportCSV, Transactions.handleExportExcel.
    cbn [length Nat.eqb Transactions.browser Transactions.toasts].
    split; [|split; [reflexivity|split; [|reflexivity]]].
    + rewrite exportToCSV_document. unfold downloadBlob.
      cbn [downloads]. eexists. split; [reflexivity|].
      cbn [mimeType filename content JS.or_else].
      repeat split. apply parse_csv_rows.
    + rewrite exportToExcel_document. unfold downloadBlob.
      cbn [downloads]. eexists. split; [reflexivity|]. repeat split.
Qed.

End TransactionsExport.

(** * The monthly tracker *)









(** A category id that names an inherited property makes the tracker
    throw. *)
Example tracker_throws_on_inherited_name :
  MonthlyTracker.expensesByCategory
    [sample_transaction TransactionType.expense 5 (Some "constructor")
       (Some groceries) None]
  = None.
Proof. reflexivity. Qed.

(** * The comparison of two periods *)

Lemma fold_left_map {A B C : Type} (f : C -> B -> C) (g : A -> B)
    (l : list A) (c : C) :
  fold_left f (map g l) c = fold_left (fun acc x => f acc (g x)) l c.
Proof.
  revert c. induction l as [|x l IH]; intros c; [reflexivity|].
  simpl. apply IH.
Qed.















(** Nine categories in the current period: the smallest is left out. *)
Example comparison_of_nine :
  map (fun r => (Reports.Row.name r, Qred (Reports.Row.current r),
                 Qred (Reports.Row.previous r), Qred (Reports.Row.change r)))
    (Reports.budgetComparisonData
       (Some (map (fun n =>
                     sample_transaction TransactionType.expense
                       (inject_Z (Z.of_nat n))
                       (Some (String (ascii_of_nat (96 + n)) EmptyString))
                       (Some (sample_category "c"
                                (String (ascii_of_nat (64 + n)) EmptyString)))
                       None)
                [3; 9; 1; 4; 7; 2; 8; 5; 6]%nat))
       (Some [sample_transaction TransactionType.expense 6 (Some "i")
                (Some (sample_category "c" "I")) None]))
  = [("I", 9, 6, 50); ("H", 8, 0, 0); ("G", 7, 0, 0); ("F", 6, 0, 0);
     ("E", 5, 0, 0); ("D", 4, 0, 0); ("C", 3, 0, 0); ("B", 2, 0, 0)].
Proof. reflexivity. Qed.

(** The order of [Object.entries]: array indices first, in numeric order;
    "01" and "x" are ordinary names and keep their order of creation. *)
Example entries_order :
  map fst (JSObject.entries
             [("x", 1%nat); ("10", 2%nat); ("01", 3%nat); ("9", 4%nat);
              ("a", 5%nat)])
  = ["9"; "10"; "x"; "01"; "a"].
Proof. reflexivity. Qed.

(** * IEEE doubles

    The comparisons and the subtraction of doubles, read through the
    specification of the format: on doubles other than NaN they are the
    comparisons and the sign of the difference of integers. *)

Module DoubleFacts.
Import SpecFloat FloatOps.

Local Open Scope Z_scope.

Lemma digits2_size (p : positive) : digits2_pos p = Pos.size p.
Proof. induction p; simpl; congruence. Qed.

Lemma digits2_lower (p : positive) : 2 ^ (Zpos (digits2_pos p) - 1) <= Zpos p.
Proof.
  rewrite digits2_size.
  pose proof (Pos.size_le p) as H.
  apply Pos2Z.pos_le_pos in H.
  rewrite Pos2Z.inj_pow in H.
  change (Z.pos p~0) with (2 * Z.pos p) in H.
  replace (Z.pos (Pos.size p)) with (Z.succ (Z.pos (Pos.size p) - 1)) in H by lia.
  rewrite Z.pow_succ_r in H by lia. lia.
Qed.

Lemma digits2_upper (p : positive) : Zpos p < 2 ^ Zpos (digits2_pos p).
Proof.
  rewrite digits2_size.
  pose proof (Pos.size_gt p) as H.
  apply Pos2Z.pos_lt_pos in H. now rewrite Pos2Z.inj_pow in H.
Qed.

Lemma shr_1_m (mrs : shr_record) :
  0 <= shr_m mrs -> shr_m (shr_1 mrs) = shr_m mrs / 2.
Proof.
  destruct mrs as [m r s]. simpl. intros Hm.
  destruct m as [|p|p]; [reflexivity| |lia].
  destruct p as [p|p|]; simpl.
  - change (Z.pos p~1) with (2 * Z.pos p + 1).
    apply Z.div_unique with 1; lia.
  - change (Z.pos p~0) with (2 * Z.pos p).
    apply Z.div_unique with 0; lia.
  - reflexivity.
Qed.

Lemma iter_shr_1_m (p : positive) (mrs : shr_record) :
  0 <= shr_m mrs ->
  shr_m (iter_pos shr_1 p mrs) = shr_m mrs / 2 ^ Zpos p.
Proof.
  revert mrs. induction p as [p IH|p IH|]; intros mrs Hm; cbn [iter_pos].
  - assert (H1 : 0 <= shr_m (shr_1 mrs))
      by (rewrite shr_1_m by exact Hm; apply Z.div_pos; lia).
    assert (H2 : 0 <= shr_m (iter_pos shr_1 p (shr_1 mrs)))
      by (rewrite IH by exact H1; apply Z.div_pos; lia).
    rewrite IH by exact H2. rewrite IH by exact H1. rewrite shr_1_m by exact Hm.
    rewrite !Z.div_div by lia.
    f_equal. change (Z.pos p~1) with (2 * Z.pos p + 1).
    rewrite Z.pow_add_r by lia.
    replace (2 * Z.pos p) with (Z.pos p + Z.pos p) by lia.
    rewrite Z.pow_add_r by lia. simpl (2 ^ 1). lia.
  - assert (H1 : 0 <= shr_m (iter_pos shr_1 p mrs))
      by (rewrite IH by exact Hm; apply Z.div_pos; lia).
    rewrite IH by exact H1. rewrite IH by exact Hm.
    rewrite !Z.div_div by lia.
    f_equal. change (Z.pos p~0) with (2 * Z.pos p).
    replace (2 * Z.pos p) with (Z.pos p + Z.pos p) by lia.
    now rewrite Z.pow_add_r by lia.
  - rewrite shr_1_m by exact Hm. reflexivity.
Qed.

(** Shifting to the exponent of the format never loses a whole mantissa when the exponent is in range. *)
Lemma shr_fexp_positive (m e : Z) (l : location) :
  0 < m -> Double.emin <= e ->
  0 < shr_m (fst (shr_fexp prec emax m e l))
  /\ Double.emin <= snd (shr_fexp prec emax m e l).
Proof.
  intros Hm He. unfold shr_fexp, shr.
  destruct m as [|p|p]; try lia. simpl Zdigits2.
  assert (Hrec : shr_m (shr_record_of_loc (Z.pos p) l) = Z.pos p)
    by (destruct l as [|[| |]]; reflexivity).
  destruct (fexp prec emax (Z.pos (digits2_pos p) + e) - e) as [|n|n] eqn:Hn;
    simpl; try (rewrite Hrec; split; lia).
  rewrite iter_shr_1_m by (rewrite Hrec; lia). rewrite Hrec.
  unfold fexp in Hn. fold Double.emin in Hn.
  assert (Hn' : Z.pos n = Z.pos (digits2_pos p) - prec).
  { change (SpecFloat.emin prec emax) with Double.emin in Hn. lia. }
  split; [|lia].
  apply Z.div_str_pos. split; [apply Z.pow_pos_nonneg; lia|].
  apply Z.le_trans with (2 ^ (Z.pos (digits2_pos p) - 1)); [|apply digits2_lower].
  apply Z.pow_le_mono_r; [lia|]. rewrite Hn'. unfold prec. lia.
Qed.

Lemma round_nearest_even_positive (m : Z) (l : location) :
  0 < m -> 0 < round_nearest_even m l.
Proof.
  intros Hm. destruct l as [|[| |]]; simpl; try lia.
  destruct (Z.even m); lia.
Qed.

(** A rounded non-zero number keeps its sign: it is finite or infinite. *)
Lemma binary_round_aux_signed (s : bool) (m e : Z) (l : location) :
  0 < m -> Double.emin <= e ->
  (exists m' e', binary_round_aux prec emax s m e l = S754_finite s m' e')
  \/ binary_round_aux prec emax s m e l = S754_infinity s.
Proof.
  intros Hm He. unfold binary_round_aux.
  pose proof (shr_fexp_positive m e l Hm He) as H1.
  destruct (shr_fexp prec emax m e l) as [mrs' e']. simpl in H1.
  destruct H1 as [Hm' He'].
  pose proof (shr_fexp_positive _ e' loc_Exact
                (round_nearest_even_positive _ (loc_of_shr_record mrs') Hm')
                He') as H2.
  destruct (shr_fexp prec emax
              (round_nearest_even (shr_m mrs') (loc_of_shr_record mrs')) e'
              loc_Exact) as [mrs'' e'']. simpl in H2.
  destruct H2 as [Hm'' _].
  destruct (shr_m mrs'') as [|p|p]; try lia.
  destruct (e'' <=? emax - prec); [left; eauto | now right].
Qed.

Lemma binary_round_signed (s : bool) (m : positive) (e : Z) :
  Double.emin <= e ->
  (exists m' e', binary_round prec emax s m e = S754_finite s m' e')
  \/ binary_round prec emax s m e = S754_infinity s.
Proof.
  intros He. unfold binary_round.
  destruct (shl_align m e (fexp prec emax (Z.pos (digits2_pos m) + e)))
    as [mz ez] eqn:Hal.
  apply binary_round_aux_signed; [lia|].
  unfold shl_align in Hal.
  assert (Hf : Double.emin <= fexp prec emax (Z.pos (digits2_pos m) + e)).
  { unfold fexp. change (SpecFloat.emin prec emax) with Double.emin. lia. }
  destruct (fexp prec emax (Z.pos (digits2_pos m) + e) - e);
    injection Hal as _ <-; first [exact Hf | exact He].
Qed.

(** The sign of a normalised integer. *)
Lemma binary_normalize_sign (m e : Z) :
  Double.emin <= e ->
  SFltb (S754_zero false) (binary_normalize prec emax m e false) = (0 <? m).
Proof.
  intros He. destruct m as [|p|p]; simpl; [reflexivity| |].
  - destruct (binary_round_signed false p e He) as [[m' [e' ->]]| ->];
      reflexivity.
  - destruct (binary_round_signed true p e He) as [[m' [e' ->]]| ->];
      reflexivity.
Qed.

Lemma shl_align_value (m : positive) (e ez : Z) :
  ez <= e ->
  Z.pos (fst (shl_align m e ez)) = Z.pos m * 2 ^ (e - ez).
Proof.
  intros H. unfold shl_align.
  destruct (ez - e) as [|d|d] eqn:Hd; try lia.
  - replace (e - ez) with 0 by lia. simpl. lia.
  - simpl fst. replace (e - ez) with (Z.pos d) by lia.
    clear Hd H. induction d as [|d IH] using Pos.peano_ind.
    + simpl. lia.
    + rewrite Pos.iter_succ. rewrite Pos2Z.inj_succ.
      rewrite Z.pow_succ_r by lia.
      change (Z.pos (Pos.iter xO m d)~0) with (2 * Z.pos (Pos.iter xO m d)).
      rewrite IH. lia.
Qed.

(** What validity says of a finite float. *)
Lemma bounded_spec (m : positive) (e : Z) :
  bounded prec emax m e = true ->
  Double.emin <= e <= emax - prec
  /\ Z.pos (digits2_pos m) <= prec
  /\ (Double.emin < e -> Z.pos (digits2_pos m) = prec).
Proof.
  unfold bounded, canonical_mantissa, fexp.
  change (SpecFloat.emin prec emax) with Double.emin.
  intros H. apply andb_true_iff in H. destruct H as [H1 H2].
  apply Z.eqb_eq in H1. apply Z.leb_le in H2. lia.
Qed.

Lemma pow2_split (a b : Z) : 0 <= a -> 0 <= b -> 2 ^ (a + b) = 2 ^ a * 2 ^ b.
Proof. intros. now apply Z.pow_add_r. Qed.

(** Of two positive valid floats the one with the greater exponent is greater. *)
Lemma ordinal_exponent (m1 m2 : positive) (e1 e2 : Z) :
  bounded prec emax m1 e1 = true -> bounded prec emax m2 e2 = true ->
  e1 < e2 ->
  Z.pos m1 * 2 ^ (e1 - Double.emin) < Z.pos m2 * 2 ^ (e2 - Double.emin).
Proof.
  intros H1 H2 He.
  destruct (bounded_spec _ _ H1) as [[He1 _] [Hd1 _]].
  destruct (bounded_spec _ _ H2) as [[He2 _] [_ Hd2]].
  specialize (Hd2 ltac:(lia)).
  pose proof (digits2_upper m1) as Hu.
  pose proof (digits2_lower m2) as Hl. rewrite Hd2 in Hl.
  assert (Hm1 : Z.pos m1 < 2 ^ prec).
  { apply Z.lt_le_trans with (2 ^ Z.pos (digits2_pos m1)); [exact Hu|].
    apply Z.pow_le_mono_r; lia. }
  replace (e2 - Double.emin) with ((e2 - e1 - 1) + 1 + (e1 - Double.emin))
    by lia.
  rewrite !pow2_split by lia.
  assert (Hp : 0 < 2 ^ (e1 - Double.emin)) by (apply Z.pow_pos_nonneg; lia).
  assert (Hq : 1 <= 2 ^ (e2 - e1 - 1))
    by (change 1 with (2 ^ 0); apply Z.pow_le_mono_r; lia).
  assert (Hm2 : 2 ^ prec <= Z.pos m2 * 2 ^ 1).
  { replace prec with ((prec - 1) + 1) at 1 by lia.
    rewrite pow2_split by (unfold prec; lia). 
    apply Z.mul_le_mono_nonneg_r; [lia | exact Hl]. }
  change (2 ^ 1) with 2 in *.
  generalize dependent (2 ^ (e1 - Double.emin)).
  generalize dependent (2 ^ (e2 - e1 - 1)).
  generalize dependent (2 ^ prec).
  intros A Hm1 Hm2 Q HQ P HP.
  apply Z.lt_le_trans with (A * P);
    [apply Z.mul_lt_mono_pos_r; lia|].
  apply Z.le_trans with (Z.pos m2 * 2 * P);
    [apply Z.mul_le_mono_nonneg_r; lia|].
  replace (Z.pos m2 * (Q * 2 * P)) with (Z.pos m2 * 2 * P * Q) by ring.
  rewrite <- (Z.mul_1_r (Z.pos m2 * 2 * P)) at 1.
  apply Z.mul_le_mono_nonneg_l; lia.
Qed.


Lemma big_positive : 0 < 2 ^ (emax - Double.emin).
Proof. apply Z.pow_pos_nonneg; [lia | discriminate]. Qed.

Lemma finite_ordinal (m : positive) (e : Z) :
  bounded prec emax m e = true ->
  0 < Z.pos m * 2 ^ (e - Double.emin) < 2 ^ (emax - Double.emin).
Proof.
  intros H. destruct (bounded_spec _ _ H) as [[He1 He2] [Hd _]].
  assert (Hp : 0 < 2 ^ (e - Double.emin)) by (apply Z.pow_pos_nonneg; lia).
  split; [lia|].
  pose proof (digits2_upper m) as Hu.
  assert (Hm : Z.pos m < 2 ^ prec).
  { apply Z.lt_le_trans with (2 ^ Z.pos (digits2_pos m)); [exact Hu|].
    apply Z.pow_le_mono_r; lia. }
  apply Z.lt_le_trans with (2 ^ prec * 2 ^ (e - Double.emin));
    [apply Z.mul_lt_mono_pos_r; lia|].
  rewrite <- pow2_split by (unfold prec; lia).
  apply Z.pow_le_mono_r; lia.
Qed.

Lemma compare_lt (a b : Z) : a < b -> (a ?= b) = Lt.
Proof. apply Z.compare_lt_iff. Qed.

Lemma compare_gt (a b : Z) : b < a -> (a ?= b) = Gt.
Proof. apply Z.compare_gt_iff. Qed.

(** On valid floats other than NaN, the comparison of floats is the
    comparison of their ordinals. *)
Lemma SFcompare_ordinal (x y : spec_float) :
  valid_binary prec emax x = true -> valid_binary prec emax y = true ->
  x <> S754_nan -> y <> S754_nan ->
  SFcompare x y = Some (Double.ordinal x ?= Double.ordinal y).
Proof.
  intros Hx Hy Nx Ny. pose proof big_positive as Hbig.
  destruct x as [sx|sx| |sx mx ex], y as [sy|sy| |sy my ey];
    try congruence; cbn [valid_binary] in Hx, Hy;
    cbn [SFcompare Double.ordinal];
    try (pose proof (finite_ordinal _ _ Hx) as Fx);
    try (pose proof (finite_ordinal _ _ Hy) as Fy); f_equal;
    try (destruct sx); try (destruct sy); cbn [cond_Zopp]; symmetry;
    try (first [apply Z.compare_refl | apply compare_lt; lia
               | apply compare_gt; lia]).
  - rewrite Z.compare_opp.
    destruct (Z.compare_spec ex ey) as [He|He|He].
    + subst ey.
      change (Pos.compare_cont Eq mx my) with (Z.pos mx ?= Z.pos my).
      assert (Hp : 2 ^ (ex - Double.emin) > 0)
        by (apply Z.lt_gt, Z.pow_pos_nonneg;
            destruct (bounded_spec _ _ Hx); lia).
      rewrite <- (Zmult_compare_compat_r _ _ _ Hp).
      now rewrite Z.compare_antisym.
    + apply compare_gt. now apply ordinal_exponent.
    + apply compare_lt. now apply ordinal_exponent.
  - destruct (Z.compare_spec ex ey) as [He|He|He].
    + subst ey.
      change (Pos.compare_cont Eq mx my) with (Z.pos mx ?= Z.pos my).
      assert (Hp : 2 ^ (ex - Double.emin) > 0)
        by (apply Z.lt_gt, Z.pow_pos_nonneg;
            destruct (bounded_spec _ _ Hx); lia).
      now rewrite <- (Zmult_compare_compat_r _ _ _ Hp).
    + apply compare_lt. now apply ordinal_exponent.
    + apply compare_gt. now apply ordinal_exponent.
Qed.


Lemma cond_Zopp_mul (s : bool) (a b : Z) :
  cond_Zopp s (a * b) = cond_Zopp s a * b.
Proof. destruct s; simpl; lia. Qed.

Lemma aligned_ordinal (s : bool) (m : positive) (e ez : Z) :
  Double.emin <= ez -> ez <= e ->
  Double.ordinal (S754_finite s m e)
  = cond_Zopp s (Z.pos (fst (shl_align m e ez))) * 2 ^ (ez - Double.emin).
Proof.
  intros H1 H2. cbn [Double.ordinal].
  rewrite shl_align_value by exact H2.
  rewrite <- cond_Zopp_mul. f_equal.
  replace (e - Double.emin) with ((e - ez) + (ez - Double.emin)) by lia.
  rewrite pow2_split by lia. ring.
Qed.

(** The difference of two floats other than NaN is positive exactly when
    the first is the greater. *)
Lemma SFsub_sign (x y : spec_float) :
  valid_binary prec emax x = true -> valid_binary prec emax y = true ->
  x <> S754_nan -> y <> S754_nan ->
  SFltb (S754_zero false) (SFsub prec emax y x)
  = (Double.ordinal x <? Double.ordinal y).
Proof.
  intros Hx Hy Nx Ny. pose proof big_positive as Hbig.
  destruct x as [sx|sx| |sx mx ex], y as [sy|sy| |sy my ey];
    try congruence; cbn [valid_binary] in Hx, Hy;
    try (pose proof (finite_ordinal _ _ Hx) as Fx);
    try (pose proof (finite_ordinal _ _ Hy) as Fy).
  9: {
    destruct (bounded_spec _ _ Hx) as [[Hex _] _].
    destruct (bounded_spec _ _ Hy) as [[Hey _] _].
    cbn [SFsub]. cbv zeta.
    rewrite binary_normalize_sign by lia.
    rewrite (aligned_ordinal sx mx ex (Z.min ey ex)) by lia.
    rewrite (aligned_ordinal sy my ey (Z.min ey ex)) by lia.
    assert (Hp : 0 < 2 ^ (Z.min ey ex - Double.emin))
      by (apply Z.pow_pos_nonneg; lia).
    generalize dependent (2 ^ (Z.min ey ex - Double.emin)).
    generalize (cond_Zopp sx (Z.pos (fst (shl_align mx ex (Z.min ey ex))))).
    generalize (cond_Zopp sy (Z.pos (fst (shl_align my ey (Z.min ey ex))))).
    intros Y X P HP.
    destruct (Z.ltb_spec 0 (Y - X)), (Z.ltb_spec (X * P) (Y * P));
      try reflexivity; exfalso; nia. }
  all: cbn [SFsub Double.ordinal];
    try (destruct sx); try (destruct sy); cbn [cond_Zopp negb SFltb SFcompare];
    symmetry;
    first [apply Z.ltb_lt; lia | apply Z.ltb_ge; lia].
Qed.


Lemma not_nan (a : PrimFloat.float) :
  PrimFloat.is_nan a = false -> Prim2SF a <> S754_nan.
Proof.
  unfold PrimFloat.is_nan. rewrite FloatAxioms.eqb_spec.
  intros H E. rewrite E in H. discriminate.
Qed.

(** The comparisons of doubles other than NaN, read on their ordinals. *)
Lemma ltb_ordinal (a b : PrimFloat.float) :
  PrimFloat.is_nan a = false -> PrimFloat.is_nan b = false ->
  PrimFloat.ltb a b
  = (Double.ordinal (Prim2SF a) <? Double.ordinal (Prim2SF b)).
Proof.
  intros Ha Hb. rewrite FloatAxioms.ltb_spec. unfold SFltb.
  rewrite SFcompare_ordinal;
    auto using FloatAxioms.Prim2SF_valid, not_nan.
Qed.

Lemma leb_ordinal (a b : PrimFloat.float) :
  PrimFloat.is_nan a = false -> PrimFloat.is_nan b = false ->
  PrimFloat.leb a b
  = (Double.ordinal (Prim2SF a) <=? Double.ordinal (Prim2SF b)).
Proof.
  intros Ha Hb. rewrite FloatAxioms.leb_spec. unfold SFleb.
  rewrite SFcompare_ordinal;
    auto using FloatAxioms.Prim2SF_valid, not_nan.
Qed.

Lemma eqb_ordinal (a b : PrimFloat.float) :
  PrimFloat.is_nan a = false -> PrimFloat.is_nan b = false ->
  PrimFloat.eqb a b
  = (Double.ordinal (Prim2SF a) =? Double.ordinal (Prim2SF b)).
Proof.
  intros Ha Hb. rewrite FloatAxioms.eqb_spec. unfold SFeqb.
  rewrite SFcompare_ordinal;
    auto using FloatAxioms.Prim2SF_valid, not_nan.
  now rewrite Z.eqb_compare.
Qed.

(** [b - a > 0] exactly when [b > a], for doubles other than NaN. *)
Lemma sub_positive (a b : PrimFloat.float) :
  PrimFloat.is_nan a = false -> PrimFloat.is_nan b = false ->
  PrimFloat.ltb PrimFloat.zero (PrimFloat.sub b a) = PrimFloat.ltb a b.
Proof.
  intros Ha Hb. rewrite (ltb_ordinal a b Ha Hb).
  rewrite FloatAxioms.ltb_spec, FloatAxioms.sub_spec.
  change (Prim2SF PrimFloat.zero) with (S754_zero false).
  apply SFsub_sign; auto using FloatAxioms.Prim2SF_valid, not_nan.
Qed.


Lemma is_nan_false (a : PrimFloat.float) :
  Prim2SF a <> S754_nan -> PrimFloat.is_nan a = false.
Proof.
  intros H. unfold PrimFloat.is_nan. rewrite FloatAxioms.eqb_spec.
  unfold SFeqb.
  rewrite SFcompare_ordinal; auto using FloatAxioms.Prim2SF_valid.
  now rewrite Z.compare_refl.
Qed.

Lemma is_finite_spec (a : PrimFloat.float) :
  PrimFloat.is_finite a = true ->
  match Prim2SF a with
  | S754_zero _ | S754_finite _ _ _ => True
  | S754_infinity _ | S754_nan => False
  end.
Proof.
  unfold PrimFloat.is_finite. rewrite negb_true_iff, orb_false_iff.
  intros [Hn Hi]. apply not_nan in Hn.
  unfold PrimFloat.is_infinity in Hi.
  rewrite FloatAxioms.eqb_spec, FloatAxioms.abs_spec in Hi.
  change (Prim2SF PrimFloat.infinity) with (S754_infinity false) in Hi.
  destruct (Prim2SF a); try exact I; [discriminate | congruence].
Qed.

Lemma finite_not_nan (a : PrimFloat.float) :
  PrimFloat.is_finite a = true -> PrimFloat.is_nan a = false.
Proof.
  unfold PrimFloat.is_finite. rewrite negb_true_iff, orb_false_iff. tauto.
Qed.

Lemma binary_normalize_not_nan (m e : Z) :
  Double.emin <= e -> binary_normalize prec emax m e false <> S754_nan.
Proof.
  intros He. destruct m as [|p|p]; simpl; [discriminate| |].
  - destruct (binary_round_signed false p e He) as [[m' [e' ->]]| ->];
      discriminate.
  - destruct (binary_round_signed true p e He) as [[m' [e' ->]]| ->];
      discriminate.
Qed.

(** Adding a finite double to a double other than NaN never gives NaN. *)
Lemma add_not_nan (a b : PrimFloat.float) :
  PrimFloat.is_nan a = false -> PrimFloat.is_finite b = true ->
  PrimFloat.is_nan (PrimFloat.add a b) = false.
Proof.
  intros Ha Hb. apply is_nan_false. rewrite FloatAxioms.add_spec.
  apply not_nan in Ha. apply is_finite_spec in Hb.
  pose proof (FloatAxioms.Prim2SF_valid a) as Va.
  pose proof (FloatAxioms.Prim2SF_valid b) as Vb.
  unfold FloatAxioms.SF64add.
  destruct (Prim2SF a) as [sa|sa| |sa ma ea]; [| |congruence|];
    destruct (Prim2SF b) as [sb|sb| |sb mb eb]; try contradiction;
    cbn [SFadd]; try discriminate.
  - now destruct sa, sb.
  - cbv zeta. apply binary_normalize_not_nan.
    cbn [valid_binary] in Va, Vb.
    destruct (bounded_spec _ _ Va) as [[H1 _] _].
    destruct (bounded_spec _ _ Vb) as [[H2 _] _]. lia.
Qed.

End DoubleFacts.

(** * The pages in the arithmetic of the running program *)

(** ** The selections of the specification *)

Lemma of_type_those_of_kind (k : TransactionType.t) (ts : list Transaction.t) :
  of_type k ts = those_of_kind k ts.
Proof.
  unfold of_type. induction ts as [|t ts IH]; simpl; [reflexivity|].
  rewrite IH.
  destruct (kind_dec (Transaction.type t) k) as [Heq|Hne].
  - rewrite Heq. now destruct k.
  - destruct (Transaction.type t), k; simpl; try reflexivity;
      exfalso; now apply Hne.
Qed.

Lemma expenses_with_category_categorised (ts : list Transaction.t) :
  expenses_with_category ts = categorised_expenses ts.
Proof.
  unfold expenses_with_category.
  induction ts as [|t ts IH]; simpl; [reflexivity|].
  rewrite IH.
  now destruct (Transaction.type t), (Transaction.category t).
Qed.

Lemma bearing_snoc (k : option string) (ts : list Transaction.t)
    (t : Transaction.t) :
  bearing k (ts ++ [t])
  = (bearing k ts
     ++ if key_eqb k (Transaction.category_id t) then [t] else [])%list.
Proof.
  induction ts as [|t0 ts IH]; simpl.
  - destruct (key_dec (Transaction.category_id t) k) as [Heq|Hne].
    + subst k. now rewrite key_eqb_refl.
    + assert (Hk : key_eqb k (Transaction.category_id t) = false)
        by (apply key_eqb_neq; congruence).
      now rewrite Hk.
  - rewrite IH. now destruct (key_dec (Transaction.category_id t0) k).
Qed.

Lemma bearing_none (k : option string) (ts : list Transaction.t) :
  ~ In k (map Transaction.category_id ts) -> bearing k ts = [].
Proof.
  induction ts as [|t ts IH]; simpl; [reflexivity|].
  intros H. destruct (key_dec (Transaction.category_id t) k) as [Heq|_].
  - exfalso. apply H. now left.
  - apply IH. intros Hin. apply H. now right.
Qed.

Lemma bearing_snoc_other (keys : list (option string))
    (ts : list Transaction.t) (t : Transaction.t) :
  ~ In (Transaction.category_id t) keys ->
  flat_map (fun k => bearing k (ts ++ [t])) keys
  = flat_map (fun k => bearing k ts) keys.
Proof.
  induction keys as [|k keys IH]; intros H; simpl; [reflexivity|].
  rewrite IH by (intros Hin; apply H; now right).
  rewrite bearing_snoc.
  assert (Hk : key_eqb k (Transaction.category_id t) = false).
  { apply key_eqb_neq. intros ->. apply H. now left. }
  now rewrite Hk, app_nil_r.
Qed.

Lemma bearing_snoc_same (keys : list (option string))
    (ts : list Transaction.t) (t : Transaction.t) :
  NoDup keys -> In (Transaction.category_id t) keys ->
  Permutation (flat_map (fun k => bearing k (ts ++ [t])) keys)
    (flat_map (fun k => bearing k ts) keys ++ [t]).
Proof.
  induction keys as [|k keys IH]; intros Hnd Hin; simpl; [destruct Hin|].
  inversion Hnd as [|? ? Hout Hnd']; subst.
  rewrite bearing_snoc.
  destruct (key_eqb k (Transaction.category_id t)) eqn:Hk.
  - apply key_eqb_eq in Hk. subst k.
    rewrite (bearing_snoc_other keys ts t Hout).
    rewrite <- !app_assoc. apply Permutation_app_head.
    apply Permutation_app_comm.
  - apply key_eqb_neq in Hk. destruct Hin as [Heq|Hin]; [congruence|].
    rewrite app_nil_r, <- app_assoc.
    apply Permutation_app_head. now apply IH.
Qed.

(** Filed by category id, each id at its first appearance, the transactions
    of a list are the transactions of the list, each once. *)
Lemma bearing_partition (ts : list Transaction.t) :
  Permutation
    (flat_map (fun k => bearing k ts)
       (first_occurrences (map Transaction.category_id ts)))
    ts.
Proof.
  induction ts as [|t ts IH] using rev_ind; [constructor|].
  rewrite map_app. simpl.
  destruct (in_dec key_dec (Transaction.category_id t)
              (map Transaction.category_id ts)) as [Hin|Hout].
  - rewrite (first_occurrences_seen _ _ Hin).
    rewrite bearing_snoc_same.
    + now apply Permutation_app_tail.
    + apply NoDup_first_occurrences.
    + now apply In_first_occurrences.
  - rewrite (first_occurrences_new _ _ Hout).
    rewrite flat_map_app. simpl.
    rewrite bearing_snoc_other
      by (intros H; apply -> In_first_occurrences in H; contradiction).
    rewrite bearing_snoc, key_eqb_refl, (bearing_none _ _ Hout).
    rewrite app_nil_r. simpl. now apply Permutation_app_tail.
Qed.

(** ** Sums in list order *)

Section InOrder.
Context `{AR : Arithmetic}.

Lemma reduce_amounts_in_order (ts : list Transaction.t) :
  reduce_amounts ts = in_order_sum (amounts ts).
Proof.
  unfold reduce_amounts, in_order_sum, amounts.
  now rewrite fold_left_map.
Qed.

Lemma amounts_snoc (ts : list Transaction.t) (t : Transaction.t) :
  amounts (ts ++ [t])
  = (amounts ts ++ [Number (Transaction.amount t)])%list.
Proof. unfold amounts. now rewrite map_app. Qed.

End InOrder.

(** ** The sort over an arithmetic *)

Section SortByFacts.
Context `{AR : Arithmetic} {A : Type}.

Lemma insert_by_perm (cmp : A -> A -> number) (x : A) (l : list A) :
  Permutation (insert_by cmp x l) (x :: l).
Proof.
  induction l as [|y l IH]; simpl; [reflexivity|].
  destruct (greater (cmp x y) zero); [|reflexivity].
  rewrite IH. apply perm_swap.
Qed.

Lemma sort_by_perm (cmp : A -> A -> number) (l : list A) :
  Permutation (sort_by cmp l) l.
Proof.
  induction l as [|x l IH]; simpl; [reflexivity|].
  rewrite insert_by_perm. now constructor.
Qed.

Context (f : A -> number) (dom : A -> Prop).
Hypothesis dom_total : forall a b, dom a -> dom b ->
  stays_before (f a) (f b) = false -> stays_before (f b) (f a) = true.
Hypothesis dom_trans : forall a b c, dom a -> dom b -> dom c ->
  stays_before (f a) (f b) = true -> stays_before (f b) (f c) = true ->
  stays_before (f a) (f c) = true.

Lemma insert_by_sorted (x : A) (l : list A) :
  dom x -> Forall dom l ->
  StronglySorted (fun a b => stays_before (f a) (f b) = true) l ->
  StronglySorted (fun a b => stays_before (f a) (f b) = true)
    (insert_by (fun a b => sub (f b) (f a)) x l).
Proof.
  intros Hx Hl Hs. induction Hs as [|y l Hs IH Hy]; simpl.
  - repeat constructor.
  - inversion Hl as [|? ? Hdy Hdl]; subst.
    destruct (greater (sub (f y) (f x)) zero) eqn:G.
    + assert (Hyx : stays_before (f y) (f x) = true).
      { apply dom_total; [exact Hx | exact Hdy|].
        unfold stays_before. now rewrite G. }
      constructor; [now apply IH|].
      apply (Permutation_Forall (Permutation_sym (insert_by_perm _ x l))).
      now constructor.
    + assert (Hxy : stays_before (f x) (f y) = true)
        by (unfold stays_before; now rewrite G).
      constructor; [now constructor|].
      constructor; [exact Hxy|].
      rewrite Forall_forall in Hy, Hdl |- *.
      intros z Hz. apply (dom_trans x y z); auto.
Qed.

Lemma sort_by_sorted (l : list A) :
  Forall dom l ->
  StronglySorted (fun a b => stays_before (f a) (f b) = true)
    (sort_by (fun a b => sub (f b) (f a)) l).
Proof.
  induction l as [|x l IH]; intros Hl; simpl; [constructor|].
  inversion Hl; subst.
  apply insert_by_sorted; auto.
  apply (Permutation_Forall (Permutation_sym (sort_by_perm _ l))).
  assumption.
Qed.

End SortByFacts.

Section SortByStable.
Context `{AR : Arithmetic} {A : Type} (f : A -> number).

(** Entries selected by [p] stay before one another: sorting leaves them in
    the order they had. *)
Lemma filter_insert_by (p : A -> bool) (x : A) (l : list A) :
  (forall y, In y l -> p x = true -> p y = true ->
     stays_before (f x) (f y) = true) ->
  filter p (insert_by (fun a b => sub (f b) (f a)) x l)
  = if p x then x :: filter p l else filter p l.
Proof.
  induction l as [|y l IH]; intros Hties; simpl; [reflexivity|].
  destruct (greater (sub (f y) (f x)) zero) eqn:G; simpl; [|reflexivity].
  rewrite IH by (intros z Hz; apply Hties; now right).
  destruct (p x) eqn:Px; [|reflexivity].
  destruct (p y) eqn:Py; [|reflexivity].
  exfalso.
  assert (Hxy : stays_before (f x) (f y) = true)
    by (apply Hties; [now left | reflexivity | exact Py]).
  unfold stays_before in Hxy. rewrite G in Hxy. discriminate.
Qed.

Lemma filter_sort_by (p : A -> bool) (l : list A) :
  (forall x y, In x l -> In y l -> p x = true -> p y = true ->
     stays_before (f x) (f y) = true) ->
  filter p (sort_by (fun a b => sub (f b) (f a)) l) = filter p l.
Proof.
  induction l as [|x l IH]; intros Hties; simpl; [reflexivity|].
  rewrite filter_insert_by.
  - rewrite IH; [reflexivity|].
    intros a b Ha Hb. apply Hties; now right.
  - intros y Hy. apply Hties; [now left|].
    right. exact (Permutation_in _ (sort_by_perm _ l) Hy).
Qed.

End SortByStable.

(** Sorting labelled entries by the amount of the entry and dropping the
    labels is sorting the entries. *)
Lemma sort_by_map_snd `{AR : Arithmetic} {K A : Type} (f : A -> number)
    (l : list (K * A)) :
  map snd (sort_by (fun a b => sub (f (snd b)) (f (snd a))) l)
  = sort_by (fun a b => sub (f b) (f a)) (map snd l).
Proof.
  induction l as [|x l IH]; simpl; [reflexivity|].
  rewrite <- IH.
  generalize (sort_by (fun a b => sub (f (snd b)) (f (snd a))) l) as s.
  induction s as [|y s IHs]; simpl; [reflexivity|].
  destruct (greater (sub (f (snd y)) (f (snd x))) zero); simpl;
    [|reflexivity].
  now rewrite IHs.
Qed.

(** ** One entry before another *)

Lemma before_in_map {A B : Type} (g : A -> B) (x y : A) (l : list A) :
  before_in x y l -> before_in (g x) (g y) (map g l).
Proof.
  intros [l1 [l2 [l3 ->]]].
  exists (map g l1), (map g l2), (map g l3).
  rewrite map_app. simpl. now rewrite map_app.
Qed.

Lemma before_in_filter {A : Type} (p : A -> bool) (x y : A) (l : list A) :
  before_in x y l -> p x = true -> p y = true -> before_in x y (filter p l).
Proof.
  intros [l1 [l2 [l3 ->]]] Px Py.
  exists (filter p l1), (filter p l2), (filter p l3).
  rewrite filter_app. simpl. rewrite Px, filter_app. simpl. now rewrite Py.
Qed.

Lemma filter_split {A : Type} (p : A -> bool) (l a b : list A) (x : A) :
  filter p l = (a ++ x :: b)%list ->
  exists a' b', l = (a' ++ x :: b')%list /\ filter p b' = b.
Proof.
  revert a. induction l as [|z l IH]; intros a H; simpl in H.
  - destruct a; discriminate.
  - destruct (p z) eqn:Pz.
    + destruct a as [|a0 a]; simpl in H; inversion H; subst.
      * exists [], l. split; reflexivity.
      * destruct (IH a H2) as [a' [b' [-> Hb]]].
        exists (a0 :: a'), b'. split; [reflexivity | exact Hb].
    + destruct (IH a H) as [a' [b' [-> Hb]]].
      exists (z :: a'), b'. split; [reflexivity | exact Hb].
Qed.

Lemma before_in_unfiltered {A : Type} (p : A -> bool) (x y : A) (l : list A) :
  before_in x y (filter p l) -> before_in x y l.
Proof.
  intros [l1 [l2 [l3 H]]].
  destruct (filter_split p l l1 (l2 ++ y :: l3) x H) as [a [b [-> Hb]]].
  destruct (filter_split p b l2 l3 y Hb) as [c [d [-> _]]].
  now exists a, c, d.
Qed.

Lemma sorted_before_in {A : Type} (R : A -> A -> Prop) (x y : A)
    (l : list A) :
  StronglySorted R l -> before_in x y l -> R x y.
Proof.
  intros Hs [l1 [l2 [l3 ->]]].
  induction l1 as [|z l1 IH]; simpl in Hs; inversion Hs; subst.
  - rewrite Forall_forall in H2. apply H2.
    apply in_or_app. right. now left.
  - now apply IH.
Qed.

(** ** What the loop leaves in the map *)

Lemma comparison_orders_spec `{AR : Arithmetic} (l : list number) :
  comparison_orders l = true ->
  (forall a b, In a l -> In b l -> stays_before a b = negb (greater b a))
  /\ (forall a b, In a l -> In b l ->
        greater a b = true -> greater b a = false)
  /\ (forall a b c, In a l -> In b l -> In c l ->
        greater b a = false -> greater c b = false -> greater c a = false).
Proof.
  unfold comparison_orders. intros H.
  rewrite forallb_forall in H.
  assert (H' : forall a b, In a l -> In b l ->
            Bool.eqb (greater (sub b a) zero) (greater b a) = true
            /\ negb (greater a b && greater b a) = true
            /\ forallb (fun c =>
                  implb (negb (greater b a) && negb (greater c b))
                    (negb (greater c a))) l = true).
  { intros a b Ha Hb. specialize (H a Ha). rewrite forallb_forall in H.
    specialize (H b Hb). rewrite !andb_true_iff in H. tauto. }
  split; [|split].
  - intros a b Ha Hb. destruct (H' a b Ha Hb) as [He _].
    apply Bool.eqb_prop in He. unfold stays_before. now rewrite He.
  - intros a b Ha Hb Hab. destruct (H' a b Ha Hb) as [_ [Hn _]].
    rewrite Hab in Hn. now destruct (greater b a).
  - intros a b c Ha Hb Hc Hba Hcb. destruct (H' a b Ha Hb) as [_ [_ Ht]].
    rewrite forallb_forall in Ht. specialize (Ht c Hc).
    rewrite Hba, Hcb in Ht. simpl in Ht. now apply negb_true_iff in Ht.
Qed.

(** What it takes for the comparison to order [l], fact by fact. *)
Lemma comparison_orders_intro `{AR : Arithmetic} (l : list number) :
  (forall a b, In a l -> In b l -> greater (sub b a) zero = greater b a) ->
  (forall a b, In a l -> In b l ->
     greater a b = true -> greater b a = false) ->
  (forall a b c, In a l -> In b l -> In c l ->
     greater b a = false -> greater c b = false -> greater c a = false) ->
  comparison_orders l = true.
Proof.
  intros Hagree Hasym Htrans. unfold comparison_orders.
  apply forallb_forall. intros a Ha.
  apply forallb_forall. intros b Hb.
  rewrite !andb_true_iff. split; [split|].
  - rewrite (Hagree a b Ha Hb). apply Bool.eqb_reflx.
  - destruct (greater a b) eqn:Hab; [|reflexivity].
    now rewrite (Hasym a b Ha Hb Hab).
  - apply forallb_forall. intros c Hc.
    destruct (greater b a) eqn:Hba; [reflexivity|].
    destruct (greater c b) eqn:Hcb; [reflexivity|].
    simpl. now rewrite (Htrans a b c Ha Hb Hc Hba Hcb).
Qed.

Section GroupedAmounts.
Context `{AR : Arithmetic} {E : Type} (amount_of : E -> number).
Context (bumped : E -> Q -> E) (fresh : Transaction.t -> E).
Hypothesis amount_bumped :
  forall e a, amount_of (bumped e a) = add (amount_of e) (Number a).
Hypothesis amount_fresh :
  forall t, amount_of (fresh t) = Number (Transaction.amount t).

(** The entry of a key holds the amounts filed under the key, the later
    ones added one after the other to the first. *)
Lemma get_grouped_amount (ts : list Transaction.t) (k : option string) :
  match JS.get key_eqb k (grouped bumped fresh ts) with
  | Some e =>
      bearing k ts <> []
      /\ amount_of e = match amounts (bearing k ts) with
                       | [] => zero
                       | a :: rest => fold_left add rest a
                       end
  | None => bearing k ts = []
  end.
Proof.
  induction ts as [|t ts IH] using rev_ind; [reflexivity|].
  rewrite grouped_snoc, bearing_snoc. unfold group_step.
  destruct (JS.get key_eqb (Transaction.category_id t)
              (grouped bumped fresh ts)) as [e0|] eqn:G0;
    rewrite get_set; destruct (key_eqb k (Transaction.category_id t)) eqn:Ek.
  - apply key_eqb_eq in Ek. subst k. rewrite G0 in IH.
    destruct IH as [Hne Ha].
    split; [now destruct (bearing (Transaction.category_id t) ts)|].
    rewrite amount_bumped, Ha, amounts_snoc.
    destruct (amounts (bearing (Transaction.category_id t) ts)) as [|a rest]
      eqn:Hb.
    + exfalso. apply Hne.
      unfold amounts in Hb. now apply map_eq_nil in Hb.
    + simpl. now rewrite fold_left_app.
  - rewrite app_nil_r. exact IH.
  - apply key_eqb_eq in Ek. subst k. rewrite G0 in IH. rewrite IH.
    split; [discriminate|]. simpl. apply amount_fresh.
  - rewrite app_nil_r. exact IH.
Qed.

Lemma amount_of_key (ts : list Transaction.t) (k : option string) (e : E) :
  In (k, e) (grouped bumped fresh (expenses_with_category ts)) ->
  amount_of e = category_amount k ts.
Proof.
  intros Hin.
  pose proof (get_grouped_amount (expenses_with_category ts) k) as H.
  rewrite (In_get (grouped bumped fresh (expenses_with_category ts)) k e)
    in H; [| |exact Hin].
  - unfold category_amount. rewrite <- expenses_with_category_categorised.
    apply H.
  - rewrite keys_grouped. apply NoDup_first_occurrences.
Qed.

Lemma keys_of_grouped (ts : list Transaction.t) :
  map fst (grouped bumped fresh (expenses_with_category ts)) = category_ids ts.
Proof.
  rewrite keys_grouped. unfold category_ids.
  now rewrite expenses_with_category_categorised.
Qed.

(** The amounts of the map, in the order of the map, are the amounts of the
    categories in order of first appearance. *)
Lemma amounts_of_grouped (ts : list Transaction.t) :
  map amount_of (JS.values (grouped bumped fresh (expenses_with_category ts)))
  = category_amounts ts.
Proof.
  unfold category_amounts. rewrite <- keys_of_grouped.
  unfold JS.values. rewrite !map_map.
  apply map_ext_in. intros [k e] Hin. simpl. now apply amount_of_key.
Qed.

Section Sorted.
Context {E' : Type} (amount' : E' -> number) (conv : E -> E').
Hypothesis amount_conv : forall e, amount' (conv e) = amount_of e.

Lemma sorted_amounts_perm (ts : list Transaction.t) :
  Permutation
    (map amount'
       (sort_by (fun a b => sub (amount' b) (amount' a))
          (map conv
             (JS.values (grouped bumped fresh (expenses_with_category ts))))))
    (category_amounts ts).
Proof.
  rewrite (Permutation_map amount' (sort_by_perm _ _)).
  rewrite map_map, (map_ext _ amount_of amount_conv).
  now rewrite amounts_of_grouped.
Qed.

(** The sorted entries of the map, each with its key, form a breakdown in
    order. *)
Lemma breakdown_in_order_grouped (ts : list Transaction.t) :
  comparison_orders (category_amounts ts) = true ->
  breakdown_in_order amount' ts
    (sort_by (fun a b => sub (amount' (snd b)) (amount' (snd a)))
       (map (fun ke => (fst ke, conv (snd ke)))
          (grouped bumped fresh (expenses_with_category ts)))).
Proof.
  intros Horder.
  destruct (comparison_orders_spec _ Horder) as [Hagree [Hasym Hntrans]].
  assert (Htotal : forall a b, In a (category_amounts ts) ->
            In b (category_amounts ts) ->
            stays_before a b = false -> stays_before b a = true).
  { intros a b Ha Hb. rewrite (Hagree a b Ha Hb), (Hagree b a Hb Ha).
    rewrite negb_false_iff, negb_true_iff. now apply Hasym. }
  assert (Htrans : forall a b c, In a (category_amounts ts) ->
            In b (category_amounts ts) -> In c (category_amounts ts) ->
            stays_before a b = true -> stays_before b c = true ->
            stays_before a c = true).
  { intros a b c Ha Hb Hc.
    rewrite (Hagree a b Ha Hb), (Hagree b c Hb Hc), (Hagree a c Ha Hc).
    rewrite !negb_true_iff. now apply Hntrans. }
  set (m := grouped bumped fresh (expenses_with_category ts)).
  set (unsorted := map (fun ke : option string * E => (fst ke, conv (snd ke)))
                     m).
  set (cmp := fun a b : option string * E' =>
                sub (amount' (snd b)) (amount' (snd a))).
  assert (Hkeys : map fst unsorted = category_ids ts).
  { unfold unsorted. rewrite map_map. simpl. apply keys_of_grouped. }
  assert (Hamount : forall x, In x unsorted ->
            amount' (snd x) = category_amount (fst x) ts).
  { intros x Hx. apply in_map_iff in Hx. destruct Hx as [[k e] [<- Hin]].
    simpl. rewrite amount_conv. now apply amount_of_key. }
  assert (Hdom : forall x, In x unsorted ->
            In (amount' (snd x)) (category_amounts ts)).
  { intros x Hx. rewrite (Hamount x Hx). unfold category_amounts.
    apply (in_map (fun k => category_amount k ts)).
    rewrite <- Hkeys. now apply in_map. }
  assert (Hperm : Permutation (sort_by cmp unsorted) unsorted)
    by apply sort_by_perm.
  assert (Hsorted : StronglySorted
            (fun a b => stays_before (amount' (snd a)) (amount' (snd b)) = true)
            (sort_by cmp unsorted)).
  { apply (sort_by_sorted (fun x : option string * E' => amount' (snd x))
             (fun x => In x unsorted)).
    - intros a b Ha Hb. apply Htotal; now apply Hdom.
    - intros a b c Ha Hb Hc. apply Htrans; now apply Hdom.
    - now apply Forall_forall. }
  split; [|split; [|split]].
  - rewrite (Permutation_map fst Hperm). now rewrite Hkeys.
  - intros k e Hin. apply (Permutation_in _ Hperm) in Hin.
    exact (Hamount (k, e) Hin).
  - intros x y Hxy.
    pose proof (sorted_before_in _ x y _ Hsorted Hxy) as Hxy'.
    simpl in Hxy'.
    assert (Hx : In x unsorted).
    { apply (Permutation_in _ Hperm). destruct Hxy as [l1 [l2 [l3 ->]]].
      apply in_elt. }
    assert (Hy : In y unsorted).
    { apply (Permutation_in _ Hperm). destruct Hxy as [l1 [l2 [l3 ->]]].
      apply in_or_app. right. right. apply in_elt. }
    rewrite (Hagree _ _ (Hdom x Hx) (Hdom y Hy)) in Hxy'.
    now apply negb_true_iff in Hxy'.
  - intros x y Hxy Hyx0.
    pose proof (sorted_before_in _ x y _ Hsorted Hxy) as Hxy'.
    simpl in Hxy'.
    assert (Hx : In x unsorted).
    { apply (Permutation_in _ Hperm). destruct Hxy as [l1 [l2 [l3 ->]]].
      apply in_elt. }
    assert (Hy : In y unsorted).
    { apply (Permutation_in _ Hperm). destruct Hxy as [l1 [l2 [l3 ->]]].
      apply in_or_app. right. right. apply in_elt. }
    assert (Hyx : stays_before (amount' (snd y)) (amount' (snd x)) = true).
    { rewrite (Hagree _ _ (Hdom y Hy) (Hdom x Hx)).
      now apply negb_true_iff. }
    set (p := fun z : option string * E' =>
                stays_before (amount' (snd z)) (amount' (snd x))
                && stays_before (amount' (snd x)) (amount' (snd z))).
    assert (Hxx : stays_before (amount' (snd x)) (amount' (snd x)) = true).
    { destruct (stays_before (amount' (snd x)) (amount' (snd x))) eqn:Hs;
        [reflexivity|].
      rewrite <- Hs at 1. apply Htotal; auto. }
    assert (Px : p x = true) by (unfold p; now rewrite Hxx).
    assert (Py : p y = true) by (unfold p; now rewrite Hyx, Hxy').
    assert (Hstable : filter p (sort_by cmp unsorted) = filter p unsorted).
    { apply (filter_sort_by (fun z : option string * E' => amount' (snd z))).
      intros a b Ha Hb Pa Pb. unfold p in Pa, Pb.
      apply andb_true_iff in Pa. apply andb_true_iff in Pb.
      apply (Htrans _ (amount' (snd x))); try (now apply Hdom); tauto. }
    pose proof (before_in_filter p x y _ Hxy Px Py) as Hf.
    rewrite Hstable in Hf. apply before_in_unfiltered in Hf.
    rewrite <- Hkeys. now apply before_in_map.
Qed.

End Sorted.
End GroupedAmounts.

(** ** The two pages *)

Section PagesFacts.
Context `{AR : Arithmetic}.

Lemma page_categoryTotals (ts : list Transaction.t) :
  DashboardPage.categoryTotals ts
  = grouped page_total_bumped page_total_fresh (expenses_with_category ts).
Proof. reflexivity. Qed.

Lemma page_breakdown (ts : list Transaction.t) :
  BudgetsPage.breakdown ts
  = grouped page_spent_bumped page_spent_fresh (expenses_with_category ts).
Proof. reflexivity. Qed.

Lemma page_totals_amounts (ts : list Transaction.t) :
  map DashboardPage.amount (JS.values (DashboardPage.categoryTotals ts))
  = category_amounts ts.
Proof.
  rewrite page_categoryTotals.
  apply (amounts_of_grouped DashboardPage.amount page_total_bumped
           page_total_fresh); reflexivity.
Qed.

Lemma page_breakdown_amounts (ts : list Transaction.t) :
  map BudgetsPage.spent (JS.values (BudgetsPage.breakdown ts))
  = category_amounts ts.
Proof.
  rewrite page_breakdown.
  apply (amounts_of_grouped BudgetsPage.spent page_spent_bumped
           page_spent_fresh); reflexivity.
Qed.

Lemma page_total (ts : list Transaction.t) :
  DashboardPage.total ts = in_order_sum (category_amounts ts).
Proof.
  unfold DashboardPage.total, in_order_sum.
  rewrite <- page_totals_amounts. now rewrite fold_left_map.
Qed.

Lemma page_spending_perm (ts : list Transaction.t) :
  Permutation (map Spending.amount (DashboardPage.categorySpending ts))
    (category_amounts ts).
Proof.
  unfold DashboardPage.categorySpending. rewrite page_categoryTotals.
  apply (sorted_amounts_perm DashboardPage.amount page_total_bumped
           page_total_fresh (fun e a => eq_refl) (fun t => eq_refl)
           Spending.amount); reflexivity.
Qed.

Lemma page_spent_perm (ts : list Transaction.t) :
  Permutation (map BudgetsPage.spent (BudgetsPage.categoryBreakdown ts))
    (category_amounts ts).
Proof.
  unfold BudgetsPage.categoryBreakdown. rewrite page_breakdown.
  rewrite <- (map_id (JS.values _)).
  apply (sorted_amounts_perm BudgetsPage.spent page_spent_bumped
           page_spent_fresh (fun e a => eq_refl) (fun t => eq_refl)
           BudgetsPage.spent (fun e => e)); reflexivity.
Qed.

Lemma page_keyed_spending (ts : list Transaction.t) :
  map snd (DashboardPage.keyed ts) = DashboardPage.categorySpending ts.
Proof.
  unfold DashboardPage.keyed, DashboardPage.categorySpending.
  cbv zeta. rewrite sort_by_map_snd. unfold JS.values.
  now rewrite !map_map.
Qed.

Lemma page_keyed_breakdown (ts : list Transaction.t) :
  map snd (BudgetsPage.keyed ts) = BudgetsPage.categoryBreakdown ts.
Proof.
  unfold BudgetsPage.keyed, BudgetsPage.categoryBreakdown.
  now rewrite sort_by_map_snd.
Qed.

End PagesFacts.

(** ** Exact arithmetic *)

Lemma exact_comparison_orders (l : list Q) :
  comparison_orders (AR := exact_arithmetic) l = true.
Proof.
  apply comparison_orders_intro.
  - intros a b _ _. change (JS.gt (b - a) 0 = JS.gt b a).
    destruct (JS.gt b a) eqn:H.
    + apply gt_true in H. apply gt_true. lra.
    + apply gt_false in H. apply gt_false. lra.
  - intros a b _ _ H. change (JS.gt a b = true) in H.
    change (JS.gt b a = false).
    apply gt_true in H. apply gt_false. lra.
  - intros a b c _ _ _ H1 H2.
    change (JS.gt b a = false) in H1. change (JS.gt c b = false) in H2.
    change (JS.gt c a = false).
    apply gt_false in H1. apply gt_false in H2. apply gt_false. lra.
Qed.

Lemma exact_expenses (ts : list Transaction.t) :
  reduce_amounts (AR := exact_arithmetic)
    (of_type TransactionType.expense ts)
  == total_of_type TransactionType.expense ts.
Proof.
  change (sum_amount (of_type TransactionType.expense ts)
          == total_of_type TransactionType.expense ts).
  apply sum_amount_Qsum.
Qed.

Lemma exact_spending_sum (ts : list Transaction.t) :
  Qsum (map Spending.amount
          (DashboardPage.categorySpending (AR := exact_arithmetic) ts))
  == categorized_expense ts.
Proof.
  rewrite (Qsum_perm _ _ (page_spending_perm (AR := exact_arithmetic) ts)).
  rewrite <- (page_totals_amounts (AR := exact_arithmetic) ts).
  rewrite page_categoryTotals.
  apply (sum_grouped (DashboardPage.amount (AR := exact_arithmetic))
           page_total_bumped page_total_fresh);
    reflexivity.
Qed.

Lemma exact_spent_sum (ts : list Transaction.t) :
  Qsum (map BudgetsPage.spent
          (BudgetsPage.categoryBreakdown (AR := exact_arithmetic) ts))
  == categorized_expense ts.
Proof.
  rewrite (Qsum_perm _ _ (page_spent_perm (AR := exact_arithmetic) ts)).
  rewrite <- (page_breakdown_amounts (AR := exact_arithmetic) ts).
  rewrite page_breakdown.
  apply (sum_grouped (BudgetsPage.spent (AR := exact_arithmetic))
           page_spent_bumped page_spent_fresh);
    reflexivity.
Qed.

(** The sort over the exact arithmetic is the sort of module [JS]. *)
Lemma sort_by_exact {A : Type} (cmp : A -> A -> Q) (l : list A) :
  sort_by (AR := exact_arithmetic) cmp l = JS.sort cmp l.
Proof.
  induction l as [|x l IH]; simpl; [reflexivity|].
  rewrite IH. generalize (JS.sort cmp l) as s.
  induction s as [|y s IHs]; simpl; [reflexivity|].
  unfold JS.gt.
  destruct (Qle_bool (cmp x y) 0); simpl; [reflexivity|].
  now rewrite IHs.
Qed.

Lemma exact_step (m : list (option string * DashboardPage.Total))
    (t : Transaction.t) :
  Dashboard.add_transaction (map (fun kv => (fst kv, exact_total (snd kv))) m) t
  = map (fun kv => (fst kv, exact_total (snd kv)))
      (DashboardPage.add_transaction (AR := exact_arithmetic) m t).
Proof.
  unfold Dashboard.add_transaction, DashboardPage.add_transaction.
  rewrite get_map_values.
  destruct (JS.get key_eqb (Transaction.category_id t) m) as [e|];
    cbn [option_map].
  - exact (set_map_values exact_total _ _
             {| DashboardPage.category := DashboardPage.category e;
                DashboardPage.amount :=
                  add (Arithmetic := exact_arithmetic)
                    (DashboardPage.amount e)
                    (Number (Transaction.amount t)) |}).
  - exact (set_map_values exact_total _ _
             {| DashboardPage.category := Transaction.category t;
                DashboardPage.amount :=
                  Number (Arithmetic := exact_arithmetic)
                    (Transaction.amount t) |}).
Qed.

Lemma exact_spent_step (m : list (option string * BudgetsPage.Spent))
    (t : Transaction.t) :
  Budgets.add_transaction (map (fun kv => (fst kv, exact_spent (snd kv))) m) t
  = map (fun kv => (fst kv, exact_spent (snd kv)))
      (BudgetsPage.add_transaction (AR := exact_arithmetic) m t).
Proof.
  unfold Budgets.add_transaction, BudgetsPage.add_transaction.
  rewrite get_map_values.
  destruct (JS.get key_eqb (Transaction.category_id t) m) as [e|];
    cbn [option_map].
  - exact (set_map_values exact_spent _ _
             {| BudgetsPage.category := BudgetsPage.category e;
                BudgetsPage.spent :=
                  add (Arithmetic := exact_arithmetic)
                    (BudgetsPage.spent e)
                    (Number (Transaction.amount t)) |}).
  - exact (set_map_values exact_spent _ _
             {| BudgetsPage.category := Transaction.category t;
                BudgetsPage.spent :=
                  Number (Arithmetic := exact_arithmetic)
                    (Transaction.amount t) |}).
Qed.

Lemma exact_categoryTotals (ts : list Transaction.t) :
  Dashboard.categoryTotals ts
  = map (fun kv => (fst kv, exact_total (snd kv)))
      (DashboardPage.categoryTotals (AR := exact_arithmetic) ts).
Proof.
  unfold Dashboard.categoryTotals, DashboardPage.categoryTotals.
  induction (expenses_with_category ts) as [|t l IH] using rev_ind;
    [reflexivity|].
  rewrite !fold_left_app. cbn [fold_left].
  now rewrite IH, exact_step.
Qed.

Lemma exact_breakdown (ts : list Transaction.t) :
  Budgets.breakdown ts
  = map (fun kv => (fst kv, exact_spent (snd kv)))
      (BudgetsPage.breakdown (AR := exact_arithmetic) ts).
Proof.
  unfold Budgets.breakdown, BudgetsPage.breakdown.
  induction (expenses_with_category ts) as [|t l IH] using rev_ind;
    [reflexivity|].
  rewrite !fold_left_app. cbn [fold_left].
  now rewrite IH, exact_spent_step.
Qed.

Lemma exact_dashboard_total (ts : list Transaction.t) :
  Dashboard.total ts = DashboardPage.total (AR := exact_arithmetic) ts.
Proof.
  unfold Dashboard.total, DashboardPage.total.
  rewrite exact_categoryTotals. unfold JS.values.
  rewrite map_map. cbn [snd].
  rewrite <- (map_map snd exact_total), fold_left_map. reflexivity.
Qed.

(** With the exact arithmetic, the pages over an arithmetic compute what the
    modules [Dashboard] and [Budgets] compute. *)
Lemma exact_pages (ts : list Transaction.t) (profile : option Profile.t)
    (monthlyIncome : Q) :
  Dashboard.categorySpending ts
  = map exact_spending
      (DashboardPage.categorySpending (AR := exact_arithmetic) ts)
  /\ Budgets.categoryBreakdown ts
     = map exact_spent
         (BudgetsPage.categoryBreakdown (AR := exact_arithmetic) ts)
  /\ Dashboard.stats ts profile monthlyIncome
     = exact_dashboard_stats
         (DashboardPage.stats (AR := exact_arithmetic) ts profile
            monthlyIncome)
  /\ Budgets.stats ts profile
     = exact_budgets_stats
         (BudgetsPage.stats (AR := exact_arithmetic) ts profile).
Proof.
  split; [|split; [|split]].
  - unfold Dashboard.categorySpending, DashboardPage.categorySpending.
    cbv zeta. rewrite sort_by_exact.
    rewrite (sort_map exact_spending _
               (fun a b => CategorySpending.amount b
                           - CategorySpending.amount a))
      by reflexivity.
    rewrite exact_dashboard_total, exact_categoryTotals.
    unfold JS.values. rewrite !map_map. reflexivity.
  - unfold Budgets.categoryBreakdown, BudgetsPage.categoryBreakdown.
    rewrite sort_by_exact.
    rewrite (sort_map exact_spent _
               (fun a b => Budgets.spent b - Budgets.spent a))
      by reflexivity.
    rewrite exact_breakdown. unfold JS.values. now rewrite !map_map.
  - unfold Dashboard.stats, DashboardPage.stats, exact_dashboard_stats.
    destruct profile; reflexivity.
  - unfold Budgets.stats, BudgetsPage.stats, exact_budgets_stats.
    destruct profile; reflexivity.
Qed.

(** ** The order of either breakdown, in any arithmetic *)

Lemma pages_in_order `{AR : Arithmetic} (ts : list Transaction.t) :
  comparison_orders (category_amounts ts) = true ->
  (map snd (DashboardPage.keyed ts) = DashboardPage.categorySpending ts
   /\ breakdown_in_order Spending.amount ts (DashboardPage.keyed ts))
  /\ (map snd (BudgetsPage.keyed ts) = BudgetsPage.categoryBreakdown ts
      /\ breakdown_in_order BudgetsPage.spent ts (BudgetsPage.keyed ts)).
Proof.
  intros Horder. split; split.
  - apply page_keyed_spending.
  - unfold DashboardPage.keyed. cbv zeta. rewrite page_categoryTotals.
    apply (breakdown_in_order_grouped DashboardPage.amount page_total_bumped
             page_total_fresh (fun e a => eq_refl) (fun t => eq_refl)
             Spending.amount
             (DashboardPage.to_spending (DashboardPage.total ts)));
      [reflexivity | exact Horder].
  - apply page_keyed_breakdown.
  - unfold BudgetsPage.keyed. rewrite page_breakdown.
    assert (Hid : forall l : list (option string * BudgetsPage.Spent),
              l = map (fun ke => (fst ke, snd ke)) l).
    { intros l. rewrite <- (map_id l) at 1. apply map_ext. now intros [k e]. }
    rewrite (Hid (grouped _ _ _)).
    apply (breakdown_in_order_grouped BudgetsPage.spent page_spent_bumped
             page_spent_fresh (fun e a => eq_refl) (fun t => eq_refl)
             BudgetsPage.spent (fun e => e));
      [reflexivity | exact Horder].
Qed.

(** ** Double arithmetic *)

(** On doubles other than NaN the comparison of the sort is an order. *)
Lemma double_comparison_orders (l : list PrimFloat.float) :
  (forall a, In a l -> PrimFloat.is_nan a = false) ->
  comparison_orders (AR := double_arithmetic) l = true.
Proof.
  intros Hl. apply comparison_orders_intro.
  - intros a b Ha Hb.
    change (PrimFloat.ltb PrimFloat.zero (PrimFloat.sub b a)
            = PrimFloat.ltb a b).
    apply DoubleFacts.sub_positive; auto.
  - intros a b Ha Hb.
    change (PrimFloat.ltb b a = true -> PrimFloat.ltb a b = false).
    rewrite !DoubleFacts.ltb_ordinal by auto.
    rewrite Z.ltb_lt, Z.ltb_ge. lia.
  - intros a b c Ha Hb Hc.
    change (PrimFloat.ltb a b = false -> PrimFloat.ltb b c = false ->
            PrimFloat.ltb a c = false).
    rewrite !DoubleFacts.ltb_ordinal by auto.
    rewrite !Z.ltb_ge. lia.
Qed.

Lemma In_bearing (k : option string) (ts : list Transaction.t)
    (t : Transaction.t) :
  In t (bearing k ts) -> In t ts.
Proof.
  induction ts as [|t0 ts IH]; simpl; [tauto|].
  destruct (key_dec (Transaction.category_id t0) k); simpl; tauto.
Qed.

Lemma In_categorised_expenses (ts : list Transaction.t) (t : Transaction.t) :
  In t (categorised_expenses ts) -> In t ts.
Proof.
  induction ts as [|t0 ts IH]; simpl; [tauto|].
  destruct (Transaction.type t0), (Transaction.category t0); simpl; tauto.
Qed.

Lemma fold_add_not_nan (rest : list PrimFloat.float) (a : PrimFloat.float) :
  PrimFloat.is_nan a = false ->
  (forall b, In b rest -> PrimFloat.is_finite b = true) ->
  PrimFloat.is_nan (fold_left PrimFloat.add rest a) = false.
Proof.
  revert a. induction rest as [|b rest IH]; intros a Ha Hrest; [exact Ha|].
  simpl. apply IH.
  - apply DoubleFacts.add_not_nan; [exact Ha|]. apply Hrest. now left.
  - intros c Hc. apply Hrest. now right.
Qed.

(** Finite amounts never add up to NaN. *)
Lemma category_amount_not_nan (ts : list Transaction.t) :
  amounts_are_finite ts ->
  forall k,
    PrimFloat.is_nan (category_amount (AR := double_arithmetic) k ts) = false.
Proof.
  intros Hfinite k. unfold category_amount.
  assert (H : forall b,
            In b (amounts (AR := double_arithmetic)
                    (bearing k (categorised_expenses ts))) ->
            PrimFloat.is_finite b = true).
  { intros b Hb. unfold amounts in Hb. apply in_map_iff in Hb.
    destruct Hb as [t [<- Ht]]. apply Hfinite.
    now apply In_bearing, In_categorised_expenses in Ht. }
  destruct (amounts (AR := double_arithmetic)
              (bearing k (categorised_expenses ts))) as [|a rest];
    [reflexivity|].
  apply fold_add_not_nan.
  - apply DoubleFacts.finite_not_nan. apply H. now left.
  - intros b Hb. apply H. now right.
Qed.

Lemma double_category_amounts_ordered (ts : list Transaction.t) :
  amounts_are_finite ts ->
  comparison_orders (AR := double_arithmetic) (category_amounts ts) = true.
Proof.
  intros Hfinite. apply double_comparison_orders.
  intros a Ha. unfold category_amounts in Ha. apply in_map_iff in Ha.
  destruct Ha as [k [<- _]]. now apply category_amount_not_nan.
Qed.

(** On doubles other than NaN, a breakdown in order is descending, with
    entries of equal amount in the order of first appearance. *)
Lemma in_order_descending {E : Type} (amount_of : E -> PrimFloat.float)
    (ts : list Transaction.t) (keyed : list (option string * E)) :
  (forall k,
     PrimFloat.is_nan (category_amount (AR := double_arithmetic) k ts)
     = false) ->
  breakdown_in_order (AR := double_arithmetic) amount_of ts keyed ->
  descending_with_stable_ties amount_of ts keyed.
Proof.
  intros Hnan [Hperm [Hamount [Hsorted Hties]]].
  assert (Hn : forall x, In x keyed ->
            PrimFloat.is_nan (amount_of (snd x)) = false).
  { intros [k e] Hx. simpl. rewrite (Hamount k e Hx). apply Hnan. }
  assert (Hin : forall x y, before_in x y keyed -> In x keyed /\ In y keyed).
  { intros x y [l1 [l2 [l3 ->]]]. split; [apply in_elt|].
    apply in_or_app. right. right. apply in_elt. }
  split; [exact Hperm|]. split; [exact Hamount|]. split.
  - intros x y Hxy. destruct (Hin x y Hxy) as [Hx Hy].
    specialize (Hsorted x y Hxy).
    change (PrimFloat.ltb (amount_of (snd x)) (amount_of (snd y)) = false)
      in Hsorted.
    rewrite DoubleFacts.ltb_ordinal in Hsorted by auto.
    rewrite DoubleFacts.leb_ordinal by auto.
    apply Z.ltb_ge in Hsorted. now apply Z.leb_le.
  - intros x y Hxy Heq. destruct (Hin x y Hxy) as [Hx Hy].
    apply (Hties x y Hxy).
    change (PrimFloat.ltb (amount_of (snd y)) (amount_of (snd x)) = false).
    rewrite DoubleFacts.eqb_ordinal in Heq by auto.
    rewrite DoubleFacts.ltb_ordinal by auto.
    apply Z.eqb_eq in Heq. apply Z.ltb_ge. lia.
Qed.

(** ** Totals, percentages and order of the breakdown *)

(** C2, as the pages have it. The Budgets page computes the income total as
    the sum of the amounts of the transactions whose kind is income, the
    expense total as the sum of the amounts of the transactions whose kind
    is expense, each added to 0 in the order of the list, and shows their
    difference as net savings. The Dashboard computes the same expense
    total; its income figure is the recorded monthly income when that is
    greater than 0 and the sum of the income transactions otherwise; its
    balance is its income figure minus its expense total. This holds in any
    arithmetic, that of the running program included. *)
Theorem totals_and_net `{AR : Arithmetic} (ts : list Transaction.t)
    (profile : option Profile.t) (monthlyIncome : number) :
  BudgetsPage.income (BudgetsPage.stats ts profile)
  = in_order_sum (amounts (those_of_kind TransactionType.income ts))
  /\ BudgetsPage.expenses (BudgetsPage.stats ts profile)
     = in_order_sum (amounts (those_of_kind TransactionType.expense ts))
  /\ BudgetsPage.net_savings (BudgetsPage.stats ts profile)
     = sub (in_order_sum (amounts (those_of_kind TransactionType.income ts)))
         (in_order_sum (amounts (those_of_kind TransactionType.expense ts)))
  /\ DashboardPage.expenses (DashboardPage.stats ts profile monthlyIncome)
     = in_order_sum (amounts (those_of_kind TransactionType.expense ts))
  /\ DashboardPage.income (DashboardPage.stats ts profile monthlyIncome)
     = (if greater monthlyIncome zero then monthlyIncome
        else in_order_sum (amounts (those_of_kind TransactionType.income ts)))
  /\ DashboardPage.balance (DashboardPage.stats ts profile monthlyIncome)
     = sub (DashboardPage.income (DashboardPage.stats ts profile monthlyIncome))
         (DashboardPage.expenses
            (DashboardPage.stats ts profile monthlyIncome)).
Proof.
  unfold BudgetsPage.net_savings. simpl.
  rewrite !reduce_amounts_in_order, !of_type_those_of_kind.
  repeat split.
Qed.

(** C3, as the pages have it. On the Budgets page the percentage of an entry
    is (spent / totalExpense) * 100, with totalExpense the sum over all
    expense transactions, and 0 when that total is not greater than 0. On
    the Dashboard an entry carries (amount / total) * 100, where total is
    the sum of the amounts of the breakdown itself, one per category in
    order of first appearance, each the sum of the expenses of the category
    that have a category object; it is 0 when that total is not greater than
    0. The amounts of the entries are those category amounts. *)
Theorem percentage_of_breakdown `{AR : Arithmetic} (ts : list Transaction.t)
    (profile : option Profile.t) :
  (forall e, In e (BudgetsPage.categoryBreakdown ts) ->
     BudgetsPage.percentage (BudgetsPage.stats ts profile) e
     = if greater
            (in_order_sum (amounts (those_of_kind TransactionType.expense ts)))
            zero
       then mul (div (BudgetsPage.spent e)
                   (in_order_sum
                      (amounts (those_of_kind TransactionType.expense ts))))
              hundred
       else zero)
  /\ (forall e, In e (DashboardPage.categorySpending ts) ->
        Spending.percentage e
        = if greater (in_order_sum (category_amounts ts)) zero
          then mul (div (Spending.amount e)
                      (in_order_sum (category_amounts ts)))
                 hundred
          else zero)
  /\ Permutation (map BudgetsPage.spent (BudgetsPage.categoryBreakdown ts))
       (category_amounts ts)
  /\ Permutation (map Spending.amount (DashboardPage.categorySpending ts))
       (category_amounts ts).
Proof.
  split; [|split; [|split]].
  - intros e _. unfold BudgetsPage.percentage. simpl.
    now rewrite reduce_amounts_in_order, of_type_those_of_kind.
  - intros e Hin. unfold DashboardPage.categorySpending in Hin.
    apply (Permutation_in _ (sort_by_perm _ _)) in Hin.
    apply in_map_iff in Hin. destruct Hin as [item [<- _]].
    simpl. now rewrite page_total.
  - apply page_spent_perm.
  - apply page_spending_perm.
Qed.

(** C6, as the pages have it. For a list whose amounts are finite doubles,
    the breakdown of either page has one entry per category, holding the
    amount the page computes for it in double arithmetic; the amounts never
    increase along the breakdown, and two entries of equal amount stand in
    the order in which the list first shows their categories. The entries
    carry the keys they have in the map of the page. *)
Theorem breakdown_sorted_stable (ts : list Transaction.t) :
  amounts_are_finite ts ->
  (map snd (DashboardPage.keyed (AR := double_arithmetic) ts)
   = DashboardPage.categorySpending ts
   /\ descending_with_stable_ties
        (Spending.amount (AR := double_arithmetic)) ts
        (DashboardPage.keyed (AR := double_arithmetic) ts))
  /\ (map snd (BudgetsPage.keyed (AR := double_arithmetic) ts)
      = BudgetsPage.categoryBreakdown ts
      /\ descending_with_stable_ties
        (BudgetsPage.spent (AR := double_arithmetic)) ts
           (BudgetsPage.keyed (AR := double_arithmetic) ts)).
Proof.
  intros Hfinite.
  pose proof (category_amount_not_nan ts Hfinite) as Hnan.
  destruct (pages_in_order (AR := double_arithmetic) ts
              (double_category_amounts_ordered ts Hfinite))
    as [[Hd1 Hd2] [Hb1 Hb2]].
  split; split; try assumption; now apply in_order_descending.
Qed.

(** C7, as the pages have it. In any arithmetic the breakdown of either page
    holds, for each category in order of first appearance, the amounts of
    the expenses of the category that have a category object, added in list
    order; the sorted breakdown holds the same amounts, and the expense
    total adds the amounts of all expenses in list order. Every expense that
    has a category is filed under exactly one category. With exact sums the
    amounts of the breakdown therefore add up to the expense total when
    every expense transaction has a category, and to at most the expense
    total when the expense transactions without a category have non-negative
    amounts. *)
Theorem breakdown_sum_vs_expenses (ts : list Transaction.t)
    (profile : option Profile.t) (monthlyIncome : Q) :
  (forall AR : Arithmetic,
     map DashboardPage.amount (JS.values (DashboardPage.categoryTotals ts))
     = category_amounts ts
     /\ map BudgetsPage.spent (JS.values (BudgetsPage.breakdown ts))
        = category_amounts ts
     /\ Permutation (map Spending.amount (DashboardPage.categorySpending ts))
          (category_amounts ts)
     /\ Permutation (map BudgetsPage.spent (BudgetsPage.categoryBreakdown ts))
          (category_amounts ts)
     /\ BudgetsPage.expenses (BudgetsPage.stats ts profile)
        = in_order_sum (amounts (those_of_kind TransactionType.expense ts)))
  /\ Permutation
       (flat_map (fun k => bearing k (categorised_expenses ts))
          (category_ids ts))
       (categorised_expenses ts)
  /\ (all_expenses_categorized ts ->
        Qsum (map Spending.amount
                (DashboardPage.categorySpending (AR := exact_arithmetic) ts))
        == DashboardPage.expenses
             (DashboardPage.stats (AR := exact_arithmetic) ts profile
                monthlyIncome)
        /\ Qsum (map BudgetsPage.spent
                   (BudgetsPage.categoryBreakdown (AR := exact_arithmetic) ts))
           == BudgetsPage.expenses
                (BudgetsPage.stats (AR := exact_arithmetic) ts profile))
  /\ (uncategorized_nonnegative ts ->
        Qsum (map Spending.amount
                (DashboardPage.categorySpending (AR := exact_arithmetic) ts))
        <= DashboardPage.expenses
             (DashboardPage.stats (AR := exact_arithmetic) ts profile
                monthlyIncome)
        /\ Qsum (map BudgetsPage.spent
                   (BudgetsPage.categoryBreakdown (AR := exact_arithmetic) ts))
           <= BudgetsPage.expenses
                (BudgetsPage.stats (AR := exact_arithmetic) ts profile)).
Proof.
  split; [|split; [|split]].
  - intros AR.
    split; [apply page_totals_amounts|].
    split; [apply page_breakdown_amounts|].
    split; [apply page_spending_perm|].
    split; [apply page_spent_perm|].
    simpl. now rewrite reduce_amounts_in_order, of_type_those_of_kind.
  - apply bearing_partition.
  - intros H. simpl.
    rewrite exact_spending_sum, exact_spent_sum, exact_expenses.
    assert (Heq : categorized_expense ts
                  == total_of_type TransactionType.expense ts).
    { unfold categorized_expense, total_of_type.
      now rewrite expenses_with_category_all. }
    now split.
  - intros H. simpl.
    rewrite exact_spending_sum, exact_spent_sum, exact_expenses.
    split; now apply categorized_le_total.
Qed.

(** With sums taken exactly, adding in list order gives the sum. *)
Lemma in_order_sum_exact (l : list Q) :
  in_order_sum (AR := exact_arithmetic) l == Qsum l.
Proof.
  unfold in_order_sum.
  rewrite <- (map_id l) at 1.
  rewrite fold_left_map.
  change (fold_left (fun acc x => acc + x) l 0 == Qsum l).
  rewrite (fold_left_sum (fun x => x)), map_id. lra.
Qed.

(** ** The pages of the running program on sample months *)

(** With a monthly income of 500 on record, the Dashboard shows 500 as
    income although the income transactions add up to 200. *)
Lemma dashboard_income_overridden :
  DashboardPage.income
    (DashboardPage.stats (AR := double_arithmetic) scenario_month None
       (Double.Number 500))
  = Double.Number 500
  /\ in_order_sum (AR := double_arithmetic)
       (amounts (those_of_kind TransactionType.income scenario_month))
     = Double.Number 200
  /\ PrimFloat.eqb (Double.Number 500) (Double.Number 200) = false.
Proof. repeat split. Qed.

Lemma totals_and_net_witness :
  BudgetsPage.income (BudgetsPage.stats (AR := double_arithmetic)
                        scenario_month None)
  = Double.Number 200
  /\ BudgetsPage.expenses (BudgetsPage.stats (AR := double_arithmetic)
                             scenario_month None)
     = Double.Number 100
  /\ BudgetsPage.net_savings (BudgetsPage.stats (AR := double_arithmetic)
                                scenario_month None)
     = Double.Number 100.
Proof.
  pose proof (totals_and_net (AR := double_arithmetic) scenario_month None
                (Double.Number 0)) as H.
  destruct H as [Hi [He [Hn _]]].
  rewrite Hi, He, Hn. repeat split.
Defined.

(** With 40 of cash expense outside every category, Food carries 100 per
    cent on the Dashboard, while 100 * 60 / totalExpense is 60. *)
Lemma dashboard_percentage_of_categorized :
  map (fun e => (name_of e, Spending.amount e, Spending.percentage e))
    (DashboardPage.categorySpending (AR := double_arithmetic) month_with_cash)
  = [("Food", Double.Number 60, Double.Number 100)]
  /\ in_order_sum (AR := double_arithmetic)
       (amounts (those_of_kind TransactionType.expense month_with_cash))
     = Double.Number 100
  /\ PrimFloat.div (PrimFloat.mul (Double.Number 100) (Double.Number 60))
       (Double.Number 100)
     = Double.Number 60.
Proof. repeat split. Qed.

Lemma percentage_of_breakdown_witness :
  Forall (fun e : Spending.t (AR := double_arithmetic) =>
            Spending.percentage e
            = PrimFloat.mul
                (PrimFloat.div (Spending.amount e) (Double.Number 100))
                (Double.Number 100))
    (DashboardPage.categorySpending (AR := double_arithmetic) scenario_month)
  /\ Forall (fun e : BudgetsPage.Spent (AR := double_arithmetic) =>
               BudgetsPage.percentage
                 (BudgetsPage.stats (AR := double_arithmetic)
                    month_with_cash None) e
               = Double.Number 60)
       (BudgetsPage.categoryBreakdown (AR := double_arithmetic)
          month_with_cash).
Proof.
  split; apply Forall_forall; intros e Hin.
  - exact (proj1 (proj2 (percentage_of_breakdown (AR := double_arithmetic)
                           scenario_month None)) e Hin).
  - rewrite (proj1 (percentage_of_breakdown (AR := double_arithmetic)
                      month_with_cash None) e Hin).
    destruct Hin as [<-|[]]. reflexivity.
Defined.

(** Food is met first and spends 0.3; Rent spends 0.1 and 0.2.  The doubles
    0.1 and 0.2 add up to 0.30000000000000004, which is greater than the
    double 0.3: both pages list Rent first.  With exact sums the two
    categories tie, and Food, met first, comes first. *)
Example three_tenths_month_order :
  category_ids three_tenths_month = [Some "c-food"; Some "c-rent"]
  /\ map (fun e => (name_of e, Spending.amount e))
       (DashboardPage.categorySpending (AR := double_arithmetic)
          three_tenths_month)
     = [("Rent", Double.Number 0.30000000000000004);
        ("Food", Double.Number 0.3)]
  /\ map (fun e => (budgets_name_of e, BudgetsPage.spent e))
       (BudgetsPage.categoryBreakdown (AR := double_arithmetic)
          three_tenths_month)
     = [("Rent", Double.Number 0.30000000000000004);
        ("Food", Double.Number 0.3)]
  /\ map (fun e => name_of e)
       (DashboardPage.categorySpending (AR := exact_arithmetic)
          three_tenths_month)
     = ["Food"; "Rent"].
Proof. repeat split. Qed.

(** The amounts 1e400 and -1e400 of Rent read as [Infinity] and
    [-Infinity], and add up to [NaN]; every comparison with [NaN] is taken
    as a tie, and the breakdown of either page stays as the map has it: Food
    with 1, Rent with [NaN], Power with 2.  Power has the greater amount and
    stands behind Food. *)
Lemma overflow_breaks_order :
  map (fun e : Spending.t (AR := double_arithmetic) =>
         (name_of e, PrimFloat.is_nan (Spending.amount e)))
    (DashboardPage.categorySpending (AR := double_arithmetic)
       overflowing_month)
  = [("Food", false); ("Rent", true); ("Power", false)]
  /\ map (fun e : BudgetsPage.Spent (AR := double_arithmetic) =>
            (budgets_name_of e, PrimFloat.is_nan (BudgetsPage.spent e)))
       (BudgetsPage.categoryBreakdown (AR := double_arithmetic)
          overflowing_month)
     = [("Food", false); ("Rent", true); ("Power", false)]
  /\ category_amount (AR := double_arithmetic) (Some "c-food")
       overflowing_month
     = Double.Number 1
  /\ category_amount (AR := double_arithmetic) (Some "c-power")
       overflowing_month
     = Double.Number 2
  /\ PrimFloat.ltb (Double.Number 1) (Double.Number 2) = true
  /\ map (fun t => PrimFloat.is_finite
                     (Double.Number (Transaction.amount t)))
       overflowing_month
     = [true; false; false; true].
Proof. repeat split. Qed.

Lemma three_tenths_month_finite : amounts_are_finite three_tenths_month.
Proof.
  intros t [<-|[<-|[<-|[]]]]; reflexivity.
Qed.

Lemma breakdown_sorted_stable_witness :
  amounts_are_finite three_tenths_month
  /\ map fst (DashboardPage.keyed (AR := double_arithmetic)
                three_tenths_month)
     = [Some "c-rent"; Some "c-food"]
  /\ descending_with_stable_ties
        (Spending.amount (AR := double_arithmetic)) three_tenths_month
       (DashboardPage.keyed (AR := double_arithmetic) three_tenths_month)
  /\ descending_with_stable_ties
        (BudgetsPage.spent (AR := double_arithmetic)) three_tenths_month
       (BudgetsPage.keyed (AR := double_arithmetic) three_tenths_month).
Proof.
  split; [exact three_tenths_month_finite|]. split; [reflexivity|].
  pose proof (breakdown_sorted_stable three_tenths_month
                three_tenths_month_finite) as H.
  split; [exact (proj2 (proj1 H)) | exact (proj2 (proj2 H))].
Defined.

(** In exact arithmetic the comparison always orders the amounts, and ties
    are ties of the exact sums: Rent and Food both spend 60 in
    [tied_month], and Rent, met first, stays first. *)
Example tied_month_in_order :
  breakdown_in_order Spending.amount tied_month
    (DashboardPage.keyed (AR := exact_arithmetic) tied_month)
  /\ map fst (DashboardPage.keyed (AR := exact_arithmetic) tied_month)
     = [Some "c-rent"; Some "c-food"].
Proof.
  split; [|reflexivity].
  apply (pages_in_order (AR := exact_arithmetic) tied_month).
  apply exact_comparison_orders.
Qed.

(** [Infinity - Infinity] is [NaN], and no comparison with [NaN] is
    positive: the comparison does not order the amounts of
    [overflowing_month]. *)
Example overflowing_month_unordered :
  comparison_orders (AR := double_arithmetic)
    (category_amounts overflowing_month) = false
  /\ map PrimFloat.is_nan
       (category_amounts (AR := double_arithmetic) overflowing_month)
     = [false; true; false].
Proof. split; reflexivity. Qed.

(** Every expense of [penny_month] has a category: 0.1 and 2.2 on Food, 0.2
    on Rent.  The breakdown adds 0.1 + 2.2 and then 0.2, which gives
    2.5000000000000004; the expense total adds 0.1 + 0.2 and then 2.2, which
    gives 2.5. *)
Lemma penny_month_sums_differ :
  all_expenses_categorized penny_month
  /\ in_order_sum (AR := double_arithmetic)
       (map Spending.amount
          (DashboardPage.categorySpending (AR := double_arithmetic)
             penny_month))
     = Double.Number 2.5000000000000004
  /\ in_order_sum (AR := double_arithmetic)
       (map BudgetsPage.spent
          (BudgetsPage.categoryBreakdown (AR := double_arithmetic)
             penny_month))
     = Double.Number 2.5000000000000004
  /\ DashboardPage.expenses
       (DashboardPage.stats (AR := double_arithmetic) penny_month None
          (Double.Number 0))
     = Double.Number 2.5
  /\ BudgetsPage.expenses
       (BudgetsPage.stats (AR := double_arithmetic) penny_month None)
     = Double.Number 2.5
  /\ PrimFloat.eqb (Double.Number 2.5000000000000004) (Double.Number 2.5)
     = false
  /\ PrimFloat.leb (Double.Number 2.5000000000000004) (Double.Number 2.5)
     = false.
Proof.
  split; [|repeat split].
  intros t [<-|[<-|[<-|[]]]] Hty; discriminate.
Qed.

Lemma breakdown_sum_vs_expenses_witness :
  all_expenses_categorized scenario_month
  /\ Qsum (map Spending.amount
             (DashboardPage.categorySpending (AR := exact_arithmetic)
                scenario_month))
     == DashboardPage.expenses
          (DashboardPage.stats (AR := exact_arithmetic) scenario_month None 0)
  /\ uncategorized_nonnegative month_with_cash
  /\ Qsum (map BudgetsPage.spent
             (BudgetsPage.categoryBreakdown (AR := exact_arithmetic)
                month_with_cash))
     <= BudgetsPage.expenses
          (BudgetsPage.stats (AR := exact_arithmetic) month_with_cash None).
Proof.
  split; [exact scenario_month_categorized|].
  split.
  - apply (breakdown_sum_vs_expenses scenario_month None 0).
    exact scenario_month_categorized.
  - split; [exact month_with_cash_nonnegative|].
    apply (breakdown_sum_vs_expenses month_with_cash None 0).
    exact month_with_cash_nonnegative.
Defined.

(** * Two runs of the exporters *)

Lemma csv_row_two_runs (RT1 RT2 : Runtime) (t : Transaction.t) :
  format_yyyy_MM_dd (Runtime := RT1) (Date_parse (Transaction.date t))
  = format_yyyy_MM_dd (Runtime := RT2) (Date_parse (Transaction.date t)) ->
  String_of_number (Runtime := RT1) (Transaction.amount t)
  = String_of_number (Runtime := RT2) (Transaction.amount t) ->
  csv_row (RT := RT1) t = csv_row (RT := RT2) t
  /\ row_markup (RT := RT1) t = row_markup (RT := RT2) t.
Proof.
  intros Hd Hn. unfold csv_row, row_markup.
  rewrite !amount_style_excel_row, Hd, Hn. split; reflexivity.
Qed.

Lemma handed_over_one `{RT : Runtime} (content mimeType filename : string)
    (w : World) :
  handed_over w (downloadBlob content mimeType filename w)
  = [{| content := content; mimeType := mimeType; filename := filename |}].
Proof.
  unfold handed_over, downloadBlob. cbn [downloads].
  rewrite skipn_app, skipn_all, Nat.sub_diag. reflexivity.
Qed.

(** C10, as the exporters have it. Take two runs of an exporter, each in a
    runtime of its own, with its own clock, time zone and earlier downloads,
    on the same list and with the same non-empty file name. If the two
    runtimes print the dates and the amounts of the list alike, what the
    two runs hand to the browser is the same. *)
Theorem export_same_in_same_zone (RT1 RT2 : Runtime)
    (ts : list Transaction.t) (filename : string)
    (w1 : World (H := RT1)) (w2 : World (H := RT2)) :
  filename <> "" ->
  (forall t, In t ts ->
     format_yyyy_MM_dd (Runtime := RT1) (Date_parse (Transaction.date t))
     = format_yyyy_MM_dd (Runtime := RT2) (Date_parse (Transaction.date t))) ->
  (forall t, In t ts ->
     String_of_number (Runtime := RT1) (Transaction.amount t)
     = String_of_number (Runtime := RT2) (Transaction.amount t)) ->
  handed_over w1 (exportToCSV ts (Some filename) w1)
  = handed_over w2 (exportToCSV ts (Some filename) w2)
  /\ handed_over w1 (exportToExcel ts (Some filename) w1)
     = handed_over w2 (exportToExcel ts (Some filename) w2).
Proof.
  intros Hfn Hdate Hnum.
  assert (Hrows : map (csv_row (RT := RT1)) ts = map (csv_row (RT := RT2)) ts
                  /\ map (row_markup (RT := RT1)) ts
                     = map (row_markup (RT := RT2)) ts).
  { split; apply map_ext_in; intros t Hin;
      apply csv_row_two_runs; auto. }
  destruct Hrows as [Hcsv Hxml].
  destruct ts as [|t ts].
  - unfold handed_over. cbn [exportToCSV exportToExcel length Nat.eqb].
    now rewrite !skipn_all.
  - rewrite !exportToCSV_document, !exportToExcel_document.
    rewrite !handed_over_one.
    rewrite !(or_else_nonempty filename _ Hfn), Hcsv.
    unfold spreadsheet. rewrite Hxml. split; reflexivity.
Qed.

(** The same list and the same file name, exported on the same day by a
    process on Greenwich time and by one west of it: the Date column
    differs.  And an empty file name, though supplied, falls back to the
    dated default: two clocks give two file names. *)
Lemma export_follows_zone_and_clock :
  map content
    (handed_over (sample_world "2026-02-04")
       (exportToCSV [lunch] (Some "january.csv") (sample_world "2026-02-04")))
  = [ "Date,Type,Category,Amount,Description,Recurring,Frequency" ++ JS.nl
      ++ "2026-02-03,expense,Food,12.5,a < b & c,No," ]
  /\ map content
       (handed_over (western_world "2026-02-04")
          (exportToCSV [lunch] (Some "january.csv")
             (western_world "2026-02-04")))
     = [ "Date,Type,Category,Amount,Description,Recurring,Frequency" ++ JS.nl
         ++ "2026-02-02,expense,Food,12.5,a < b & c,No," ]
  /\ String.eqb
       (flatten (map content
          (handed_over (sample_world "2026-02-04")
             (exportToExcel [lunch] (Some "january.xls")
                (sample_world "2026-02-04")))))
       (flatten (map content
          (handed_over (western_world "2026-02-04")
             (exportToExcel [lunch] (Some "january.xls")
                (western_world "2026-02-04")))))
     = false
  /\ map filename
       (handed_over (sample_world "2026-01-01")
          (exportToCSV [lunch] (Some "") (sample_world "2026-01-01")))
     = ["transactions-2026-01-01.csv"]
  /\ map filename
       (handed_over (sample_world "2026-12-31")
          (exportToCSV [lunch] (Some "") (sample_world "2026-12-31")))
     = ["transactions-2026-12-31.csv"]
  /\ map filename
       (handed_over (sample_world "2026-01-01")
          (exportToExcel [lunch] (Some "") (sample_world "2026-01-01")))
     = ["transactions-2026-01-01.xls"]
  /\ map filename
       (handed_over (sample_world "2026-12-31")
          (exportToExcel [lunch] (Some "") (sample_world "2026-12-31")))
     = ["transactions-2026-12-31.xls"].
Proof. repeat split. Qed.

(** A run on Greenwich time on New Year's Day and a run an hour east of
    Greenwich on New Year's Eve, after an earlier download. *)
Lemma export_same_in_same_zone_witness :
  "january.csv" <> ""
  /\ handed_over (sample_world "2026-01-01")
       (exportToCSV [lunch] (Some "january.csv") (sample_world "2026-01-01"))
     = handed_over
         (eastern_world "2026-12-31T18:30"
            [{| content := ""; mimeType := ""; filename := "old.csv" |}])
         (exportToCSV [lunch] (Some "january.csv")
            (eastern_world "2026-12-31T18:30"
               [{| content := ""; mimeType := ""; filename := "old.csv" |}]))
  /\ handed_over (sample_world "2026-01-01")
       (exportToExcel [lunch] (Some "january.csv")
          (sample_world "2026-01-01"))
     = handed_over
         (eastern_world "2026-12-31T18:30"
            [{| content := ""; mimeType := ""; filename := "old.csv" |}])
         (exportToExcel [lunch] (Some "january.csv")
            (eastern_world "2026-12-31T18:30"
               [{| content := ""; mimeType := ""; filename := "old.csv" |}])).
Proof.
  split; [discriminate|].
  apply (export_same_in_same_zone sample_runtime eastern_runtime [lunch]
           "january.csv").
  - discriminate.
  - intros t [<-|[]]. reflexivity.
  - reflexivity.
Defined.
